(** * Campus Share: expiry and storage accounting

    A shallow embedding of the quota ledger, the content store and the
    expiry sweeper of the Campus Share server:

    - [server/config/constants.js]            (constants)
    - [server/models/User.js]                 (quota fields and methods)
    - [server/models/File.js]                 (file documents, save/delete hooks)
    - [server/models/Clipboard.js]            (clipboard documents)
    - [server/middleware/auth.js]             ([protect])
    - [server/middleware/upload.js]           ([checkStorageSpace])
    - [server/controllers/fileController.js]  (upload, get, delete)
    - [server/controllers/clipboardController.js] ([getClip])
    - [server/services/schedulerService.js]   (the scheduled sweeper)

    Modelling conventions.

    - JavaScript numbers that hold byte counts and millisecond timestamps
      are integers here ([Z]); a [Date] is its millisecond value.
    - A MongoDB collection is the list of its documents in natural
      (insertion) order; a query without [.sort()] returns the matching
      documents in that order.  The [User] collection, only ever addressed
      by [_id], is a finite map.
    - Every [await] is a state transformer on [Store] that is complete when
      the next statement runs, mongoose hooks included; a controller is a
      function from the request and the store to the new store and the
      response.  The database itself is reliable: the only failures are the
      ones the code provokes or catches (schema validation, duplicate key,
      [fs.unlink] errors).
    - [req.user] is a document in memory: what [protect] read from the
      store, not the stored account itself.
    - Requests overlap: between [protect] and the rest of a request, steps
      of other requests may run ([overlap_run]); requests served one after
      another ([run]) are the special case.
    - [console.log] and friends are not modelled. *)

From Stdlib Require Import ZArith Lia Sorted.
From stdpp Require Import base gmap strings list pretty.

Open Scope Z_scope.

(** An [ObjectId]; fresh ones are drawn from a counter kept in the store. *)
Abbreviation ObjectId := nat (only parsing).

(** Milliseconds since the epoch. *)
Abbreviation Date := Z (only parsing).

(** ** Documents *)

Module User.
(** The quota-relevant fields of [userSchema]. *)
Record t := mk {
  _id : ObjectId;
  storageUsed : Z;
  storageLimit : Z
}.

Definition set_storageUsed (v : Z) (u : t) : t :=
  mk (_id u) v (storageLimit u).

(** Schema defaults of a new account: nothing used, 500MB allowed. *)
Definition fresh (id : ObjectId) : t := mk id 0 524288000.
End User.

Module Folder.
Record t := mk {
  _id : ObjectId;
  userId : ObjectId
}.
End Folder.

Module File.
Record t := mk {
  _id : ObjectId;
  userId : ObjectId;
  originalName : string;
  fileName : string;
  filePath : string;
  fileSize : Z;
  mimeType : string;
  extension : string;
  folderId : option ObjectId;
  expiresAt : Date
}.

Definition set_expiresAt (d : Date) (f : t) : t :=
  mk (_id f) (userId f) (originalName f) (fileName f) (filePath f)
     (fileSize f) (mimeType f) (extension f) (folderId f) d.
End File.

Module Clipboard.
Record t := mk {
  _id : ObjectId;
  userId : ObjectId;
  title : string;
  content : string;
  expiresAt : Date
}.

Definition set_expiresAt (d : Date) (c : t) : t :=
  mk (_id c) (userId c) (title c) (content c) d.
End Clipboard.

(** A file as multer's disk storage hands it to the controller. *)
Module Upload.
Record t := mk {
  originalname : string;
  filename : string;
  path : string;
  size : Z;
  mimetype : string
}.
End Upload.

(** Documents can be compared field by field. *)
#[global] Instance User_eq_dec : EqDecision User.t.
Proof. solve_decision. Defined.

#[global] Instance File_eq_dec : EqDecision File.t.
Proof. solve_decision. Defined.

#[global] Instance Clipboard_eq_dec : EqDecision Clipboard.t.
Proof. solve_decision. Defined.

(** ** The store: database collections and the upload directory *)

(** The upload directory maps a path to [true] when the payload can be
    unlinked and to [false] when unlinking it fails for a reason other than
    absence (a permission error, say). *)
Record Store := mkStore {
  users : gmap nat User.t;
  files : list File.t;
  folders : list Folder.t;
  clips : list Clipboard.t;
  disk : gmap string bool;
  next_oid : ObjectId
}.

Definition set_users (us : gmap nat User.t) (s : Store) : Store :=
  mkStore us (files s) (folders s) (clips s) (disk s) (next_oid s).
Definition set_files (fs : list File.t) (s : Store) : Store :=
  mkStore (users s) fs (folders s) (clips s) (disk s) (next_oid s).
Definition set_clips (cs : list Clipboard.t) (s : Store) : Store :=
  mkStore (users s) (files s) (folders s) cs (disk s) (next_oid s).
Definition set_disk (d : gmap string bool) (s : Store) : Store :=
  mkStore (users s) (files s) (folders s) (clips s) d (next_oid s).
Definition set_next_oid (n : ObjectId) (s : Store) : Store :=
  mkStore (users s) (files s) (folders s) (clips s) (disk s) n.

(** ** Generic collection helpers *)

(** [collection.deleteOne(filter)]: the first matching document goes. *)
Fixpoint remove_first {A} (p : A -> bool) (l : list A) : list A :=
  match l with
  | [] => []
  | x :: l' => if p x then l' else x :: remove_first p l'
  end.

(** [collection.updateOne(filter, update)]: the first match is updated. *)
Fixpoint update_first {A} (p : A -> bool) (g : A -> A) (l : list A) : list A :=
  match l with
  | [] => []
  | x :: l' => if p x then g x :: l' else x :: update_first p g l'
  end.

(** [collection.findOne(filter)]. *)
Fixpoint find_first {A} (p : A -> bool) (l : list A) : option A :=
  match l with
  | [] => None
  | x :: l' => if p x then Some x else find_first p l'
  end.

(** Sum of an integer attribute over a list. *)
Fixpoint sumZ {A} (g : A -> Z) (l : list A) : Z :=
  match l with
  | [] => 0
  | x :: l' => g x + sumZ g l'
  end.

(** ** [fs/promises] *)

Inductive FsError := ENOENT | EACCES.

(** [fs.unlink(path)]: the new directory and the error, if any. *)
Definition fs_unlink (p : string) (d : gmap string bool)
  : gmap string bool * option FsError :=
  match d !! p with
  | None => (d, Some ENOENT)
  | Some true => (delete p d, None)
  | Some false => (d, Some EACCES)
  end.

(** [await fs.unlink(p).catch(() => {})]: the error is swallowed. *)
Definition unlink_quiet (p : string) (s : Store) : Store :=
  set_disk (fst (fs_unlink p (disk s))) s.

(** ** [config/constants.js] *)

Module HTTP_STATUS.
Definition OK : Z := 200.
Definition CREATED : Z := 201.
Definition BAD_REQUEST : Z := 400.
Definition UNAUTHORIZED : Z := 401.
Definition NOT_FOUND : Z := 404.
End HTTP_STATUS.

Module ERROR_MESSAGES.
Definition USER_NOT_FOUND : string := "User not found".
Definition FILE_NOT_FOUND : string := "File not found".
Definition STORAGE_LIMIT : string :=
  "Storage limit exceeded. Please delete some files".
Definition FOLDER_NOT_FOUND : string := "Folder not found".
Definition CLIP_NOT_FOUND : string := "Clipboard item not found".
End ERROR_MESSAGES.

Module SUCCESS_MESSAGES.
Definition FILE_UPLOADED : string := "File(s) uploaded successfully".
Definition FILE_DELETED : string := "File deleted successfully".
End SUCCESS_MESSAGES.

(** [24 * 60 * 60 * 1000] *)
Definition DAY_MS : Z := 24 * 60 * 60 * 1000.

(** ** Requests and responses *)

Record Request := mkRequest {
  user : User.t;                  (* req.user, as [protect] loaded it *)
  params_id : ObjectId;           (* req.params.id *)
  body_folderId : option ObjectId;(* req.body.folderId *)
  body_fileIds : list ObjectId;   (* req.body.fileIds *)
  req_files : list Upload.t;      (* req.files *)
  req_file : option Upload.t      (* req.file *)
}.

(** The [data] (or the extra top-level keys) of a JSON reply. *)
Inductive Payload :=
| NoData
| FileData (file : File.t)
| ClipData (clip : Clipboard.t)
| QuotaData (storageUsed storageLimit required : Z)
| UploadData (uploaded : list File.t) (count : nat)
             (totalSize storageUsed storageLimit : Z)
| DeleteData (freedSpace storageUsed : Z)
| DeleteManyData (deletedCount : nat) (freedSpace storageUsed : Z).

Record Response := mkResponse {
  status : Z;
  success : bool;
  message : option string;
  data : Payload
}.

Inductive MongooseError := ValidationError | DuplicateKey.

(** What a controller does with the request: reply, or pass an error on
    with [next(error)]. *)
Inductive Outcome :=
| Json (r : Response)
| Next (e : MongooseError).

Definition not_found (msg : string) : Outcome :=
  Json (mkResponse HTTP_STATUS.NOT_FOUND false (Some msg) NoData).

(** ** [models/User.js] *)

(** [userSchema.methods.hasStorageSpace] *)
Definition hasStorageSpace (this : User.t) (bytes : Z) : bool :=
  User.storageUsed this + bytes <=? User.storageLimit this.

(** [User.findByIdAndUpdate(id, { $inc: { storageUsed: delta } })] *)
Definition inc_storageUsed (id : ObjectId) (delta : Z) (s : Store) : Store :=
  set_users
    (alter (fun u => User.set_storageUsed (User.storageUsed u + delta) u)
           id (users s)) s.

(** [user.save()] after an assignment to [storageUsed]: mongoose sends
    [$set: { storageUsed }] when the value changed and nothing otherwise. *)
Definition save_storageUsed (old : Z) (this : User.t) (s : Store) : Store :=
  if User.storageUsed this =? old then s
  else set_users
         (alter (User.set_storageUsed (User.storageUsed this))
                (User._id this) (users s)) s.

(** [userSchema.methods.updateStorage]: the in-memory document after the
    call, and the store. *)
Definition updateStorage (this : User.t) (bytes : Z) (s : Store)
  : User.t * Store :=
  let this' :=
    User.set_storageUsed (Z.max 0 (User.storageUsed this + bytes)) this in
  (this', save_storageUsed (User.storageUsed this) this' s).

(** [User.create] in [signup]: a new account with the schema defaults. *)
Definition User_create (s : Store) : Store :=
  let id := next_oid s in
  set_next_oid (S id) (set_users (<[id := User.fresh id]> (users s)) s).

(** [User.findById], as [protect] calls it to fill [req.user]. *)
Definition protect (id : ObjectId) (s : Store) : option User.t :=
  users s !! id.

(** ** The server

    The environment and the JavaScript library functions the code calls are
    parameters of the development. *)

Section Server.

(** [parseInt(process.env.FILE_EXPIRY_DAYS)]: [None] when the variable is
    unset or does not parse ([NaN]). *)
Variable FILE_EXPIRY_DAYS : option Z.

(** [String.prototype.trim], [String.prototype.toLowerCase] and Node's
    [path.extname]. *)
Variable trim : string -> string.
Variable toLowerCase : string -> string.
Variable extname : string -> string.

(** [FILE_CONFIG.EXPIRY_DAYS] and [CLIPBOARD_CONFIG.EXPIRY_DAYS]:
    [parseInt(process.env.FILE_EXPIRY_DAYS) || 7]. *)
Definition EXPIRY_DAYS : Z :=
  match FILE_EXPIRY_DAYS with
  | Some n => if n =? 0 then 7 else n
  | None => 7
  end.

(** *** [models/File.js] *)

(** A [required] string path rejects the empty string. *)
Definition required (v : string) : bool := negb (String.eqb v "").

(** Mongoose validation of a new file document against [fileSchema]. *)
Definition fileSchema_validate (doc : File.t) : bool :=
  required (File.originalName doc) && required (File.fileName doc)
  && required (File.filePath doc) && required (File.mimeType doc)
  && required (File.extension doc).

(** [fileSchema.pre('save')] stores [isNew] in [wasNew];
    [fileSchema.post('save')] credits the owner when the document was new. *)
Definition post_save (wasNew : bool) (doc : File.t) (s : Store) : Store :=
  if wasNew then inc_storageUsed (File.userId doc) (File.fileSize doc) s
  else s.

(** The document the controller passes to [File.create]; [originalName] has
    [trim: true] in the schema. *)
Definition new_file (id owner : ObjectId) (folder : option ObjectId)
    (now : Date) (file : Upload.t) : File.t :=
  File.mk id owner (trim (Upload.originalname file)) (Upload.filename file)
    (Upload.path file) (Upload.size file) (Upload.mimetype file)
    (toLowerCase (extname (Upload.originalname file))) folder
    (now + EXPIRY_DAYS * 24 * 60 * 60 * 1000).

(** [File.create(doc)]: validate, insert (the [fileName] index is unique),
    then run the post-save hook.  A rejected document leaves no trace. *)
Definition File_create (mk_doc : ObjectId -> File.t) (s : Store)
  : Store * (File.t + MongooseError) :=
  let doc := mk_doc (next_oid s) in
  if negb (fileSchema_validate doc) then (s, inr ValidationError)
  else if existsb (fun d => String.eqb (File.fileName d) (File.fileName doc))
                  (files s)
  then (s, inr DuplicateKey)
  else
    let s1 := set_next_oid (S (next_oid s)) (set_files (files s ++ [doc]) s) in
    (post_save true doc s1, inl doc).

(** [fileSchema.pre('deleteOne', { document: true, query: false })]:
    unlink the payload, whatever the outcome, then debit the owner. *)
Definition pre_deleteOne (this : File.t) (s : Store) : Store :=
  inc_storageUsed (File.userId this) (- File.fileSize this)
    (unlink_quiet (File.filePath this) s).

Definition has_id (id : ObjectId) (d : File.t) : bool :=
  Nat.eqb (File._id d) id.

(** [File.deleteOne({ _id })] on the model: query middleware only, so the
    document hook above does not run. *)
Definition File_deleteOne (id : ObjectId) (s : Store) : Store :=
  set_files (remove_first (has_id id) (files s)) s.

(** [file.deleteOne()] on a document: the hook, then the removal. *)
Definition doc_deleteOne (this : File.t) (s : Store) : Store :=
  File_deleteOne (File._id this) (pre_deleteOne this s).

(** [fileSchema.methods.extendExpiry]; [days] is [None] when the argument
    is omitted.  The save of an existing document sets the changed path and
    runs the post-save hook with [wasNew = false]. *)
Definition extendExpiry (days : option Z) (now : Date) (this : File.t)
    (s : Store) : File.t * Store :=
  let days := default EXPIRY_DAYS days in
  let this' := File.set_expiresAt (now + days * 24 * 60 * 60 * 1000) this in
  (this',
   post_save false this'
     (set_files
        (update_first (has_id (File._id this))
           (File.set_expiresAt (File.expiresAt this')) (files s)) s)).

(** [fileSchema.statics.getExpiredFiles]:
    [find({ expiresAt: { $lt: new Date() } })]. *)
Definition getExpiredFiles (now : Date) (s : Store) : list File.t :=
  filter (fun f => File.expiresAt f < now) (files s).

(** [fileSchema.statics.cleanupExpiredFiles]: the store, [count] and
    [freedSpace]. *)
Definition File_cleanupExpiredFiles (now : Date) (s : Store)
  : Store * (nat * Z) :=
  let expiredFiles := getExpiredFiles now s in
  let '(s', freedSpace) :=
    foldl (fun '(s, freedSpace) file =>
             (doc_deleteOne file s, freedSpace + File.fileSize file))
          (s, 0) expiredFiles in
  (s', (length expiredFiles, freedSpace)).

(** *** [models/Clipboard.js] *)

Definition clip_has_id (id : ObjectId) (c : Clipboard.t) : bool :=
  Nat.eqb (Clipboard._id c) id.

(** [clipboardSchema.methods.extendExpiry] *)
Definition Clipboard_extendExpiry (days : option Z) (now : Date)
    (this : Clipboard.t) (s : Store) : Clipboard.t * Store :=
  let days := default EXPIRY_DAYS days in
  let this' :=
    Clipboard.set_expiresAt (now + days * 24 * 60 * 60 * 1000) this in
  (this',
   set_clips
     (update_first (clip_has_id (Clipboard._id this))
        (Clipboard.set_expiresAt (Clipboard.expiresAt this')) (clips s)) s).

(** *** [middleware/upload.js] *)

(** [checkStorageSpace]: [contentLength] is
    [parseInt(req.headers['content-length'])], [None] for [NaN].  [None] as
    result stands for [next()]. *)
Definition checkStorageSpace (contentLength : option Z) (req : Request)
  : option Outcome :=
  let contentLength := default 0 contentLength in
  if negb (hasStorageSpace (user req) contentLength) then
    Some (Json (mkResponse HTTP_STATUS.BAD_REQUEST false
                  (Some ERROR_MESSAGES.STORAGE_LIMIT)
                  (QuotaData (User.storageUsed (user req))
                             (User.storageLimit (user req)) 0)))
  else None.

(** *** [controllers/fileController.js] *)

(** [for (const file of req.files) await fs.unlink(file.path).catch(() => {})] *)
Definition unlink_all (fs : list Upload.t) (s : Store) : Store :=
  foldl (fun s file => unlink_quiet (Upload.path file) s) s fs.

(** [for (const file of req.files) totalSize += file.size] *)
Definition total_size (fs : list Upload.t) : Z :=
  foldl (fun totalSize file => totalSize + Upload.size file) 0 fs.

(** [Folder.findOne({ _id: folderId, userId })] finds nothing. *)
Definition folder_missing (folderId owner : ObjectId) (s : Store) : bool :=
  negb (existsb (fun d => Nat.eqb (Folder._id d) folderId
                          && Nat.eqb (Folder.userId d) owner) (folders s)).

(** The loop that creates the file records; the first [File.create] that
    throws ends it. *)
Fixpoint create_records (owner : ObjectId) (folder : option ObjectId)
    (now : Date) (fs : list Upload.t) (uploadedFiles : list File.t)
    (s : Store) : Store * (list File.t + MongooseError) :=
  match fs with
  | [] => (s, inl uploadedFiles)
  | file :: rest =>
    match File_create (fun id => new_file id owner folder now file) s with
    | (s1, inl fileDoc) =>
      create_records owner folder now rest (uploadedFiles ++ [fileDoc]) s1
    | (s1, inr e) => (s1, inr e)
    end
  end.

(** The head of [uploadFiles]: without [req.files], [req.file] stands in;
    [None] when there is neither. *)
Definition uploaded_batch (req : Request) : option (list Upload.t) :=
  match req_files req with
  | [] => match req_file req with
          | None => None
          | Some f => Some [f]
          end
  | fs => Some fs
  end.

(** [uploadFiles]; the payloads are on disk already (multer ran). *)
Definition uploadFiles (req : Request) (now : Date) (s : Store)
  : Store * Outcome :=
  match uploaded_batch req with
  | None =>
    (s, Json (mkResponse HTTP_STATUS.BAD_REQUEST false
                (Some "No files uploaded"%string) NoData))
  | Some fs =>
    let owner := User._id (user req) in
    if match body_folderId req with
       | Some folderId => folder_missing folderId owner s
       | None => false
       end
    then (unlink_all fs s, not_found ERROR_MESSAGES.FOLDER_NOT_FOUND)
    else
      let totalSize := total_size fs in
      if negb (hasStorageSpace (user req) totalSize) then
        (unlink_all fs s,
         Json (mkResponse HTTP_STATUS.BAD_REQUEST false
                 (Some ERROR_MESSAGES.STORAGE_LIMIT)
                 (QuotaData (User.storageUsed (user req))
                            (User.storageLimit (user req)) totalSize)))
      else
        match create_records owner (body_folderId req) now fs [] s with
        | (s1, inr e) => (unlink_all fs s1, Next e)
        | (s1, inl uploadedFiles) =>
          let '(user', s2) := updateStorage (user req) totalSize s1 in
          (s2,
           Json (mkResponse HTTP_STATUS.CREATED true
                   (Some SUCCESS_MESSAGES.FILE_UPLOADED)
                   (UploadData uploadedFiles (length uploadedFiles) totalSize
                      (User.storageUsed user' + totalSize)
                      (User.storageLimit user'))))
        end
  end.

(** The filter [{ _id: id, userId: owner }]. *)
Definition owned_by (id owner : ObjectId) (d : File.t) : bool :=
  has_id id d && Nat.eqb (File.userId d) owner.

(** [getFile] *)
Definition getFile (req : Request) (s : Store) : Outcome :=
  match find_first (owned_by (params_id req) (User._id (user req)))
                   (files s) with
  | None => not_found ERROR_MESSAGES.FILE_NOT_FOUND
  | Some file =>
    Json (mkResponse HTTP_STATUS.OK true None (FileData file))
  end.

(** [deleteFile] *)
Definition deleteFile (req : Request) (s : Store) : Store * Outcome :=
  match find_first (owned_by (params_id req) (User._id (user req)))
                   (files s) with
  | None => (s, not_found ERROR_MESSAGES.FILE_NOT_FOUND)
  | Some file =>
    let fileSize := File.fileSize file in
    (doc_deleteOne file s,
     Json (mkResponse HTTP_STATUS.OK true
             (Some SUCCESS_MESSAGES.FILE_DELETED)
             (DeleteData fileSize
                (User.storageUsed (user req) - fileSize))))
  end.

(** [deleteMultipleFiles] *)
Definition deleteMultipleFiles (req : Request) (s : Store)
  : Store * Outcome :=
  match body_fileIds req with
  | [] =>
    (s, Json (mkResponse HTTP_STATUS.BAD_REQUEST false
                (Some "Please provide an array of file IDs"%string) NoData))
  | fileIds =>
    let found :=
      filter (fun d => File._id d ∈ fileIds
                       ∧ File.userId d = User._id (user req)) (files s) in
    match found with
    | [] =>
      (s, Json (mkResponse HTTP_STATUS.NOT_FOUND false
                  (Some "No files found"%string) NoData))
    | _ =>
      let '(s', totalFreed) :=
        foldl (fun '(s, totalFreed) file =>
                 (doc_deleteOne file s, totalFreed + File.fileSize file))
              (s, 0) found in
      (s',
       Json (mkResponse HTTP_STATUS.OK true
               (Some (pretty (length found) +:+ " file(s) deleted"))
               (DeleteManyData (length found) totalFreed
                  (User.storageUsed (user req) - totalFreed))))
    end
  end.

(** *** [controllers/clipboardController.js] *)

(** [getClip] *)
Definition getClip (req : Request) (s : Store) : Outcome :=
  match find_first (fun c => clip_has_id (params_id req) c
                             && Nat.eqb (Clipboard.userId c)
                                        (User._id (user req)))
                   (clips s) with
  | None => not_found ERROR_MESSAGES.CLIP_NOT_FOUND
  | Some clip =>
    Json (mkResponse HTTP_STATUS.OK true None (ClipData clip))
  end.

(** *** [services/schedulerService.js] *)

(** A JavaScript [Map] from user id to bytes: entries in insertion order,
    [set] on a present key keeps its place. *)
Fixpoint Map_get (k : ObjectId) (m : list (ObjectId * Z)) : option Z :=
  match m with
  | [] => None
  | (k', v) :: m' => if Nat.eqb k' k then Some v else Map_get k m'
  end.

Fixpoint Map_set (k : ObjectId) (v : Z) (m : list (ObjectId * Z))
  : list (ObjectId * Z) :=
  match m with
  | [] => [(k, v)]
  | (k', v') :: m' =>
    if Nat.eqb k' k then (k, v) :: m' else (k', v') :: Map_set k v m'
  end.

Record CleanupResult := mkCleanupResult {
  deletedCount : nat;
  freedSpace : Z;
  errors : option (list string)
}.

(** The body of the loop over the expired files.  [owner] is what
    [populate('userId')] put in [file.userId]: the owner's document, or
    null when there is none. *)
Definition sweep_one
    (acc : Store * list (ObjectId * Z) * nat * Z)
    (entry : File.t * option User.t)
  : Store * list (ObjectId * Z) * nat * Z :=
  let '(s, userStorageUpdates, deletedCount, freedSpace) := acc in
  let '(file, owner) := entry in
  let userStorageUpdates :=
    match owner with
    | Some u =>
      let userId := User._id u in
      let current := default 0 (Map_get userId userStorageUpdates) in
      Map_set userId (current + File.fileSize file) userStorageUpdates
    | None => userStorageUpdates
    end in
  (* fs.unlink in a try/catch of its own: any error is at most logged *)
  let s := unlink_quiet (File.filePath file) s in
  let s := File_deleteOne (File._id file) s in
  (s, userStorageUpdates, S deletedCount, freedSpace + File.fileSize file).

(** [cleanupExpiredFiles], the scheduled and the operator-triggered sweep. *)
Definition cleanupExpiredFiles (now : Date) (s : Store)
  : Store * CleanupResult :=
  let expiredFiles :=
    (fun f => (f, users s !! File.userId f))
      <$> filter (fun f => File.expiresAt f < now) (files s) in
  let '(s1, userStorageUpdates, deletedCount, freedSpace) :=
    foldl sweep_one (s, [], 0%nat, 0) expiredFiles in
  let s2 :=
    foldl (fun s '(userId, spaceFreed) =>
             inc_storageUsed userId (- spaceFreed) s)
          s1 userStorageUpdates in
  (s2, mkCleanupResult deletedCount freedSpace None).


(** *** Requests in sequence

    A request is served from start to end before the next one starts:
    [protect] loads [req.user] from the store the controller then works on. *)

(** [uploadMultiple]: multer writes each payload under the upload
    directory before the controller runs. *)
Definition uploadMultiple (fs : list Upload.t) (s : Store) : Store :=
  set_disk (foldl (fun d file => <[Upload.path file := true]> d) (disk s) fs)
           s.

Inductive Op :=
| OpSignup
| OpUpload (uid : ObjectId) (contentLength : option Z)
           (folderId : option ObjectId) (fs : list Upload.t)
| OpDelete (uid fileId : ObjectId)
| OpDeleteMany (uid : ObjectId) (fileIds : list ObjectId)
| OpSweep.

(** One request or sweeper run at time [now]. *)
Definition step (s : Store) (e : Date * Op) : Store :=
  let '(now, op) := e in
  match op with
  | OpSignup => User_create s
  | OpUpload uid contentLength folderId fs =>
    match protect uid s with
    | None => s
    | Some u =>
      let req := mkRequest u 0 folderId [] fs None in
      match checkStorageSpace contentLength req with
      | Some _ => s
      | None => fst (uploadFiles req now (uploadMultiple fs s))
      end
    end
  | OpDelete uid fileId =>
    match protect uid s with
    | None => s
    | Some u => fst (deleteFile (mkRequest u fileId None [] [] None) s)
    end
  | OpDeleteMany uid fileIds =>
    match protect uid s with
    | None => s
    | Some u =>
      fst (deleteMultipleFiles (mkRequest u 0 None fileIds [] None) s)
    end
  | OpSweep => fst (cleanupExpiredFiles now s)
  end.

Definition run (trace : list (Date * Op)) (s : Store) : Store :=
  foldl step s trace.

(** The sizes multer reports are byte counts. *)
Definition op_sizes_ok (e : Date * Op) : Prop :=
  match snd e with
  | OpUpload _ _ _ fs => Forall (fun file => 0 <= Upload.size file) fs
  | _ => True
  end.

(** *** Requests that overlap

    The server takes up the next request while one is waiting for the
    database.  A request is two steps here: [protect] loads [req.user];
    the middleware and the controller then work on that document.  Between
    the two, steps of other requests may run. *)

(** What a request asks for, once [protect] has let it pass. *)
Inductive Call :=
| CallUpload (contentLength : option Z) (folderId : option ObjectId)
             (fs : list Upload.t)
| CallDelete (fileId : ObjectId)
| CallDeleteMany (fileIds : list ObjectId).

(** Middleware and controller of a request whose [req.user] is [u]. *)
Definition serve (u : User.t) (now : Date) (call : Call) (s : Store)
  : Store :=
  match call with
  | CallUpload contentLength folderId fs =>
    let req := mkRequest u 0 folderId [] fs None in
    match checkStorageSpace contentLength req with
    | Some _ => s
    | None => fst (uploadFiles req now (uploadMultiple fs s))
    end
  | CallDelete fileId =>
    fst (deleteFile (mkRequest u fileId None [] [] None) s)
  | CallDeleteMany fileIds =>
    fst (deleteMultipleFiles (mkRequest u 0 None fileIds [] None) s)
  end.

Inductive Event :=
| EvSignup
| EvProtect (r : nat) (uid : ObjectId)   (* [protect] of request [r] *)
| EvServe (r : nat) (call : Call)        (* the rest of request [r] *)
| EvSweep.

(** One step at time [now].  The second component holds, for the requests
    that are past [protect], the document it loaded.  A request whose
    [protect] found no account has ended there (401). *)
Definition overlap_step (st : Store * gmap nat User.t) (e : Date * Event)
  : Store * gmap nat User.t :=
  let '(s, pending) := st in
  let '(now, ev) := e in
  match ev with
  | EvSignup => (User_create s, pending)
  | EvProtect r uid =>
    match protect uid s with
    | Some u => (s, <[r := u]> pending)
    | None => (s, pending)
    end
  | EvServe r call =>
    match pending !! r with
    | Some u => (serve u now call s, delete r pending)
    | None => (s, pending)
    end
  | EvSweep => (fst (cleanupExpiredFiles now s), pending)
  end.

Definition overlap_run (trace : list (Date * Event)) (s : Store) : Store :=
  fst (foldl overlap_step (s, ∅) trace).

(** Requests served one after another are the traces in which every
    [protect] is followed at once by the rest of its request. *)
Definition sequential_events (e : Date * Op) : list (Date * Event) :=
  let '(now, op) := e in
  match op with
  | OpSignup => [(now, EvSignup)]
  | OpUpload uid contentLength folderId fs =>
    [(now, EvProtect 0 uid);
     (now, EvServe 0 (CallUpload contentLength folderId fs))]
  | OpDelete uid fileId =>
    [(now, EvProtect 0 uid); (now, EvServe 0 (CallDelete fileId))]
  | OpDeleteMany uid fileIds =>
    [(now, EvProtect 0 uid); (now, EvServe 0 (CallDeleteMany fileIds))]
  | OpSweep => [(now, EvSweep)]
  end.

(** The database before the first signup. *)
Definition empty_store : Store := mkStore ∅ [] [] [] ∅ 0.

(** The clock does not run backwards over a trace. *)
Definition clock_ok (trace : list (Date * Event)) : Prop :=
  StronglySorted Z.le (fst <$> trace).

(** ** Well-formed stores *)

(** [_id] is unique in the file collection, and the user collection is
    keyed by [_id]. *)
Definition unique_ids (s : Store) : Prop :=
  NoDup (File._id <$> files s).

Definition keyed (s : Store) : Prop :=
  map_Forall (fun k u => User._id u = k) (users s).

(** The files of one owner, and their bytes. *)
Definition owned (k : ObjectId) (l : list File.t) : list File.t :=
  filter (fun f => File.userId f = k) l.

Definition owned_bytes (k : ObjectId) (l : list File.t) : Z :=
  sumZ File.fileSize (owned k l).

(** The ledger never reports less than the bytes the account's records
    hold, nor more than the limit. *)
Record consistent (s : Store) : Prop := mkConsistent {
  cons_accounts : map_Forall (fun k _ => (k < next_oid s)%nat) (users s);
  cons_owners : Forall (fun f => (File.userId f < next_oid s)%nat) (files s);
  cons_fresh : Forall (fun f => (File._id f < next_oid s)%nat) (files s);
  cons_unique : unique_ids s;
  cons_sizes : Forall (fun f => 0 <= File.fileSize f) (files s);
  cons_keyed : keyed s;
  cons_ledger :
    map_Forall (fun k u => owned_bytes k (files s) <= User.storageUsed u
                           /\ User.storageUsed u <= User.storageLimit u)
               (users s)
}.

(** [$inc] by [delta] on one user document. *)
Definition credit (delta : Z) (u : User.t) : User.t :=
  User.set_storageUsed (User.storageUsed u + delta) u.

(** No file (clip) with this id is stored. *)
Definition file_absent (id : ObjectId) (s : Store) : Prop :=
  forall f, f ∈ files s -> File._id f <> id.

Definition clip_absent (id : ObjectId) (s : Store) : Prop :=
  forall c, c ∈ clips s -> Clipboard._id c <> id.

(** A file (clip) with this id is stored, and it is not [uid]'s. *)
Definition file_foreign (id uid : ObjectId) (s : Store) : Prop :=
  (exists f, f ∈ files s /\ File._id f = id)
  /\ forall f, f ∈ files s -> File._id f = id -> File.userId f <> uid.

Definition clip_foreign (id uid : ObjectId) (s : Store) : Prop :=
  (exists c, c ∈ clips s /\ Clipboard._id c = id)
  /\ forall c, c ∈ clips s -> Clipboard._id c = id ->
               Clipboard.userId c <> uid.

(** The reply of [uploadFiles] to a batch that does not fit. *)
Definition over_quota (req : Request) (required : Z) : Outcome :=
  Json (mkResponse HTTP_STATUS.BAD_REQUEST false
          (Some ERROR_MESSAGES.STORAGE_LIMIT)
          (QuotaData (User.storageUsed (user req))
                     (User.storageLimit (user req)) required)).

(** No folder was named, or the named folder is the caller's. *)
Definition folder_ok (req : Request) (s : Store) : Prop :=
  match body_folderId req with
  | Some folderId => folder_missing folderId (User._id (user req)) s = false
  | None => True
  end.

(** Removing the records [ds] from a collection one after the other. *)
Definition remove_all (ds l : list File.t) : list File.t :=
  foldl (fun l f => remove_first (has_id (File._id f)) l) l ds.

(** [$inc] by [- delta]. *)
Definition debit (delta : Z) (u : User.t) : User.t := credit (- delta) u.

(** The keys of a JavaScript [Map]. *)
Definition Map_keys (m : list (ObjectId * Z)) : list ObjectId := fst <$> m.



(** ** Example data *)

(** [path.extname] on the names used below. *)
Definition ex_extname (name : string) : string := ".txt".

Definition ex_file (id owner : ObjectId) (name : string) (size : Z)
    (expires : Date) : File.t :=
  File.mk id owner name name ("uploads/" +:+ name) size "text/plain" ".txt"
          None expires.

Definition ex_upload (name : string) (size : Z) : Upload.t :=
  Upload.mk name name ("uploads/" +:+ name) size "text/plain".

Definition ex_clip (id owner : ObjectId) (expires : Date) : Clipboard.t :=
  Clipboard.mk id owner "Untitled" "hello" expires.

(** An account at 900 of 1000 bytes, and a second, empty one. *)
Definition ex_alice : User.t := User.mk 1 900 1000.
Definition ex_bob : User.t := User.mk 2 0 1000.

Definition ex_accounts : Store :=
  mkStore {[ 1%nat := ex_alice; 2%nat := ex_bob ]} [] [] [] ∅ 3.

Definition ex_request (u : User.t) (id : ObjectId) (fs : list Upload.t)
  : Request :=
  mkRequest u id None [] fs None.

(** Four stored files, two per account; the payload of the first is
    missing from the disk. *)
Definition ex_a : File.t := ex_file 0 1 "a.txt" 100 5.
Definition ex_b : File.t := ex_file 1 1 "b.txt" 50 3.
Definition ex_c : File.t := ex_file 2 2 "c.txt" 30 10.
Definition ex_d : File.t := ex_file 3 2 "d.txt" 70 20.

Definition ex_library : Store :=
  mkStore {[ 1%nat := User.mk 1 150 1000; 2%nat := User.mk 2 100 1000 ]}
          [ex_a; ex_b; ex_c; ex_d] [] [ex_clip 0 2 10]
          {[ "uploads/b.txt" := true; "uploads/c.txt" := true;
             "uploads/d.txt" := true ]}%string 4.

(** A ledger that has drifted below the bytes on record: 50 bytes reported
    for a 100-byte file. *)
Definition ex_drifted : Store :=
  mkStore {[ 1%nat := User.mk 1 50 1000 ]} [ex_a] [] []
          {[ "uploads/a.txt" := true ]}%string 1.

(** ** More of the server *)

(** A JSON reply whose [data] is of type [D]. *)
Record Reply (D : Type) := mkReply {
  reply_status : Z;
  reply_success : bool;
  reply_message : option string;
  reply_data : D
}.
#[global] Arguments mkReply {D} _ _ _ _.
#[global] Arguments reply_status {D} _.
#[global] Arguments reply_success {D} _.
#[global] Arguments reply_message {D} _.
#[global] Arguments reply_data {D} _.

(** *** [controllers/adminController.js] *)

Definition set_storageLimit (v : Z) (u : User.t) : User.t :=
  User.mk (User._id u) (User.storageUsed u) v.

(** [updateStorageLimit]; [storageLimit] is the number in the request body,
    [None] when the body has none.  The reply carries the account's id, new
    limit and usage. *)
Definition updateStorageLimit (id : ObjectId) (storageLimit : option Z)
    (s : Store) : Store * Reply (option (ObjectId * Z * Z)) :=
  match storageLimit with
  | Some limit =>
    if (limit =? 0) || (limit <? 0) then
      (s, mkReply HTTP_STATUS.BAD_REQUEST false
            (Some "Please provide a valid storage limit"%string) None)
    else
      match users s !! id with
      | None =>
        (s, mkReply HTTP_STATUS.NOT_FOUND false
              (Some ERROR_MESSAGES.USER_NOT_FOUND) None)
      | Some u =>
        let u' := set_storageLimit limit u in
        (set_users (<[id := u']> (users s)) s,
         mkReply HTTP_STATUS.OK true (Some "Storage limit updated"%string)
           (Some (User._id u', User.storageLimit u', User.storageUsed u')))
      end
  | None =>
    (s, mkReply HTTP_STATUS.BAD_REQUEST false
          (Some "Please provide a valid storage limit"%string) None)
  end.

(** *** Virtuals of [models/File.js] and [models/Clipboard.js] *)

(** The [expiresIn] virtual, the same code in both models, before it is
    put into words. *)
Inductive TimeLeft :=
| Expired
| DaysHours (days hours : Z)
| HoursOnly (hours : Z).

Definition time_left (now expiresAt : Date) : TimeLeft :=
  let diff := expiresAt - now in
  if diff <=? 0 then Expired
  else
    let days := diff / (1000 * 60 * 60 * 24) in
    let hours := (diff mod (1000 * 60 * 60 * 24)) / (1000 * 60 * 60) in
    if 0 <? days then DaysHours days hours else HoursOnly hours.

Definition time_left_text (t : TimeLeft) : string :=
  match t with
  | Expired => "Expired"
  | DaysHours days hours => pretty days +:+ "d " +:+ pretty hours +:+ "h"
  | HoursOnly hours => pretty hours +:+ "h"
  end.

(** [fileSchema.virtual('expiresIn')] at time [now]. *)
Definition expiresIn (now : Date) (this : File.t) : string :=
  time_left_text (time_left now (File.expiresAt this)).

(** [clipboardSchema.virtual('expiresIn')] at time [now]. *)
Definition Clipboard_expiresIn (now : Date) (this : Clipboard.t) : string :=
  time_left_text (time_left now (Clipboard.expiresAt this)).

(** [String.prototype.startsWith] and [String.prototype.includes]. *)
Definition startsWith (s p : string) : bool := String.prefix p s.

Definition includes (s sub : string) : bool :=
  match String.index 0 sub s with
  | Some _ => true
  | None => false
  end.

(** [fileSchema.virtual('fileType')] *)
Definition fileType (this : File.t) : string :=
  let mimeType := File.mimeType this in
  if startsWith mimeType "image/" then "image"
  else if startsWith mimeType "video/" then "video"
  else if startsWith mimeType "audio/" then "audio"
  else if String.eqb mimeType "application/pdf" then "pdf"
  else if includes mimeType "word" || includes mimeType "document"
  then "document"
  else if includes mimeType "excel" || includes mimeType "spreadsheet"
  then "spreadsheet"
  else if includes mimeType "powerpoint" || includes mimeType "presentation"
  then "presentation"
  else if includes mimeType "zip" || includes mimeType "rar"
          || includes mimeType "7z"
  then "archive"
  else if startsWith mimeType "text/" then "text"
  else "other".

(** [clipboardSchema.virtual('preview')] *)
Definition preview (this : Clipboard.t) : string :=
  let maxLength := 100%nat in
  if (String.length (Clipboard.content this) <=? maxLength)%nat
  then Clipboard.content this
  else String.substring 0 maxLength (Clipboard.content this) +:+ "...".

(** *** More of [controllers/clipboardController.js] *)

Definition CLIP_DELETED : string := "Clipboard item deleted".

(** The filter [{ _id: id, userId: owner }] on clips. *)
Definition clip_owned_by (id owner : ObjectId) (c : Clipboard.t) : bool :=
  clip_has_id id c && Nat.eqb (Clipboard.userId c) owner.

(** [deleteClip]; the clipboard schema has no delete hook. *)
Definition deleteClip (req : Request) (s : Store) : Store * Outcome :=
  match find_first (clip_owned_by (params_id req) (User._id (user req)))
                   (clips s) with
  | None => (s, not_found ERROR_MESSAGES.CLIP_NOT_FOUND)
  | Some clip =>
    (set_clips (remove_first (clip_has_id (Clipboard._id clip)) (clips s)) s,
     Json (mkResponse HTTP_STATUS.OK true (Some CLIP_DELETED) NoData))
  end.

(** [deleteMultipleClips]; [clipIds] is [req.body.clipIds].  The reply
    carries [deletedCount]. *)
Definition deleteMultipleClips (req : Request) (clipIds : list ObjectId)
    (s : Store) : Store * Reply (option nat) :=
  match clipIds with
  | [] =>
    (s, mkReply HTTP_STATUS.BAD_REQUEST false
          (Some "Please provide an array of clip IDs"%string) None)
  | _ =>
    let matches (c : Clipboard.t) :=
      Clipboard._id c ∈ clipIds /\ Clipboard.userId c = User._id (user req) in
    let deletedCount := length (filter matches (clips s)) in
    (set_clips (filter (fun c => ~ matches c) (clips s)) s,
     mkReply HTTP_STATUS.OK true
       (Some (pretty deletedCount +:+ " clip(s) deleted"))
       (Some deletedCount))
  end.

(** *** More of [services/schedulerService.js] *)

(** [cleanupExpiredClipboards]:
    [Clipboard.deleteMany({ expiresAt: { $lt: new Date() } })]; the store
    and [deletedCount]. *)
Definition cleanupExpiredClipboards (now : Date) (s : Store) : Store * nat :=
  (set_clips (filter (fun c => ~ Clipboard.expiresAt c < now) (clips s)) s,
   length (filter (fun c => Clipboard.expiresAt c < now) (clips s))).

(** The upload directory as [fs.readdir] and [fs.stat] show it: entries
    that are user directories, with what they hold, and entries that are
    not directories.  What a user directory holds has a name and a size,
    and either can be unlinked or makes [fs.unlink] throw. *)
Record DiskEntry := mkDiskEntry {
  entry_name : string;
  entry_size : Z;
  entry_unlinkable : bool
}.

Inductive DirEntry :=
| UserDir (name : string) (entries : list DiskEntry)
| NotADir (name : string).

(** [File.findOne({ fileName })] finds a record. *)
Definition has_record (fileName : string) (s : Store) : bool :=
  existsb (fun d => String.eqb (File.fileName d) fileName) (files s).

(** The inner loop of [cleanupOrphanedFiles] over one user directory: what
    is left in it, [deletedCount] and [freedSpace]. *)
Definition sweep_user_dir (s : Store)
    (acc : list DiskEntry * nat * Z) (e : DiskEntry)
  : list DiskEntry * nat * Z :=
  let '(kept, deletedCount, freedSpace) := acc in
  if has_record (entry_name e) s then (kept ++ [e], deletedCount, freedSpace)
  else if entry_unlinkable e
  then (kept, S deletedCount, freedSpace + entry_size e)
  else (kept ++ [e], deletedCount, freedSpace).

(** [cleanupOrphanedFiles]; [None] for the directory is a [readdir] that
    throws, answered with [{ error }] ([None]).  Otherwise the directory
    after the run, [deletedCount] and [freedSpace]. *)
Definition cleanupOrphanedFiles (uploadDir : option (list DirEntry))
    (s : Store) : option (list DirEntry * nat * Z) :=
  match uploadDir with
  | None => None
  | Some userDirs =>
    Some
      (foldl
         (fun '(dirs, deletedCount, freedSpace) userDir =>
            match userDir with
            | NotADir name => (dirs ++ [NotADir name], deletedCount, freedSpace)
            | UserDir name entries =>
              let '(kept, deletedCount, freedSpace) :=
                foldl (sweep_user_dir s) ([], deletedCount, freedSpace)
                      entries in
              (dirs ++ [UserDir name kept], deletedCount, freedSpace)
            end)
         ([], 0%nat, 0) userDirs)
  end.

(** *** More of [models/User.js] *)

(** [userSchema.virtual('storageRemaining')] *)
Definition storageRemaining (this : User.t) : Z :=
  User.storageLimit this - User.storageUsed this.

(** *** More of [controllers/adminController.js] *)

Definition set_folders (ds : list Folder.t) (s : Store) : Store :=
  mkStore (users s) (files s) ds (clips s) (disk s) (next_oid s).

(** [HTTP_STATUS.FORBIDDEN] and [SUCCESS_MESSAGES.USER_DELETED] *)
Definition FORBIDDEN : Z := 403.

Definition USER_DELETED : string :=
  "User and all their data have been deleted".

(** [deleteUser]; [isAdmin] gives the [isAdmin] field of the account
    documents, which [User.t] does not carry.  The reply carries
    [deletedFiles]. *)
Definition deleteUser (isAdmin : ObjectId -> bool) (id : ObjectId)
    (s : Store) : Store * Reply (option nat) :=
  match users s !! id with
  | None =>
    (s, mkReply HTTP_STATUS.NOT_FOUND false
          (Some ERROR_MESSAGES.USER_NOT_FOUND) None)
  | Some user =>
    if isAdmin id then
      (s, mkReply FORBIDDEN false
            (Some "Cannot delete an admin user"%string) None)
    else
      let files_ :=
        filter (fun f => File.userId f = User._id user) (files s) in
      let s := foldl (fun s file => doc_deleteOne file s) s files_ in
      let s :=
        set_folders
          (filter (fun d => Folder.userId d <> User._id user) (folders s))
          s in
      let s :=
        set_clips
          (filter (fun c => Clipboard.userId c <> User._id user) (clips s))
          s in
      let s := set_users (delete (User._id user) (users s)) s in
      (s, mkReply HTTP_STATUS.OK true (Some USER_DELETED)
            (Some (length files_)))
  end.

(** ** Vocabulary of the further properties *)

(** The ledger reports exactly the bytes on record. *)
Definition exact_ledger (s : Store) : Prop :=
  map_Forall (fun k u => User.storageUsed u = owned_bytes k (files s))
             (users s).

(** The [storageUsed] field of the reply to an upload. *)
Definition reply_storageUsed (o : Outcome) : option Z :=
  match o with
  | Json r =>
    match data r with
    | UploadData _ _ _ storageUsed _ => Some storageUsed
    | DeleteData _ storageUsed => Some storageUsed
    | DeleteManyData _ _ storageUsed => Some storageUsed
    | _ => None
    end
  | Next _ => None
  end.

(** All entries of the user directories of an upload directory. *)
Definition dir_entries (dirs : list DirEntry) : list DiskEntry :=
  mjoin ((fun d => match d with
                   | UserDir _ entries => entries
                   | NotADir _ => []
                   end) <$> dirs).

(** An entry no record names. *)
Definition orphan (s : Store) (e : DiskEntry) : Prop :=
  has_record (entry_name e) s = false.

(** What [cleanupOrphanedFiles] deletes: an orphan that can be unlinked. *)
Definition deletable (s : Store) (e : DiskEntry) : Prop :=
  orphan s e /\ entry_unlinkable e = true.

#[global] Instance deletable_dec s e : Decision (deletable s e).
Proof. unfold deletable, orphan. apply _. Defined.

(** A directory entry without what [cleanupOrphanedFiles] deletes. *)
Definition clean_dir (s : Store) (d : DirEntry) : DirEntry :=
  match d with
  | UserDir name entries =>
    UserDir name (filter (fun e => ~ deletable s e) entries)
  | NotADir name => NotADir name
  end.

(** Example: a directory with a stored payload, two orphans (one of which
    cannot be unlinked) and a stray file. *)
Definition ex_upload_dir : list DirEntry :=
  [UserDir "1" [mkDiskEntry "a.txt" 100 true; mkDiskEntry "old.bin" 40 true;
                mkDiskEntry "tmp" 0 false];
   NotADir ".gitkeep";
   UserDir "2" [mkDiskEntry "c.txt" 30 true; mkDiskEntry "lost.txt" 7 true]].

(** Example: account 2 owns folder 7. *)
Definition ex_shared : Store :=
  mkStore {[ 1%nat := ex_alice; 2%nat := ex_bob ]} [] [Folder.mk 7 2] [] ∅ 8.

(** Example: the files of [ex_library] where the payload of [ex_a] can be
    unlinked and that of [ex_b] cannot. *)
Definition ex_locked : Store :=
  mkStore (users ex_library) (files ex_library) [] []
          {[ "uploads/a.txt" := true; "uploads/b.txt" := false;
             "uploads/c.txt" := true ]}%string 4.

(** Example: a spreadsheet. *)
Definition ex_sheet : File.t :=
  File.mk 9 1 "report.xlsx" "report.xlsx" "uploads/report.xlsx" 10
    "application/vnd.openxmlformats-officedocument.spreadsheetml.sheet"
    ".xlsx" None 0.

(** * Properties *)

(** ** Sums and collection helpers *)

Lemma sumZ_cons {A} (g : A -> Z) x l : sumZ g (x :: l) = g x + sumZ g l.
Proof. reflexivity. Qed.

Lemma sumZ_app {A} (g : A -> Z) l1 l2 :
  sumZ g (l1 ++ l2) = sumZ g l1 + sumZ g l2.
Proof.
  induction l1 as [|x l1 IH]; simpl; lia.
Qed.

Lemma sumZ_fmap {A B} (g : B -> Z) (h : A -> B) l :
  sumZ g (h <$> l) = sumZ (g ∘ h) l.
Proof. induction l as [|x l IH]; simpl; [done|]. f_equal. exact IH. Qed.

Lemma sumZ_nonneg {A} (g : A -> Z) l :
  Forall (fun x => 0 <= g x) l -> 0 <= sumZ g l.
Proof.
  induction 1 as [|x l Hx _ IH]; simpl; lia.
Qed.

Lemma foldl_add_sumZ {A} (g : A -> Z) l a :
  foldl (fun acc x => acc + g x) a l = a + sumZ g l.
Proof.
  revert a. induction l as [|x l IH]; intros a; simpl; [lia|].
  rewrite IH. lia.
Qed.

Lemma total_size_sumZ fs : total_size fs = sumZ Upload.size fs.
Proof. unfold total_size. by rewrite foldl_add_sumZ. Qed.

Lemma find_first_Some {A} (p : A -> bool) l x :
  find_first p l = Some x -> x ∈ l /\ p x = true.
Proof.
  induction l as [|y l IH]; simpl; [done|].
  destruct (p y) eqn:Hy.
  - intros [= ->]. split; [left | done].
  - intros H. destruct (IH H) as [? ?]. split; [by right | done].
Qed.

Lemma find_first_None {A} (p : A -> bool) l :
  find_first p l = None <-> forall x, x ∈ l -> p x = false.
Proof.
  induction l as [|y l IH]; simpl.
  - split; [intros _ x Hx; by apply elem_of_nil in Hx | done].
  - destruct (p y) eqn:Hy.
    + split; [done|]. intros H. specialize (H y (list_elem_of_here _ _)).
      congruence.
    + rewrite IH. split.
      * intros H x [->|Hx]%elem_of_cons; auto.
      * intros H x Hx. apply H. by right.
Qed.

Lemma remove_first_none {A} (p : A -> bool) l :
  (forall x, x ∈ l -> p x = false) -> remove_first p l = l.
Proof.
  induction l as [|y l IH]; simpl; [done|]. intros H.
  rewrite (H y) by left. f_equal. apply IH. intros x Hx. apply H. by right.
Qed.

(** ** The user collection under [$inc] *)

Lemma users_inc_storageUsed id delta s k :
  users (inc_storageUsed id delta s) !! k =
  if decide (id = k) then credit delta <$> users s !! k else users s !! k.
Proof.
  unfold inc_storageUsed. simpl. rewrite lookup_alter.
  by destruct (decide (id = k)) as [->|].
Qed.

Lemma credit_credit a b u : credit a (credit b u) = credit (b + a) u.
Proof. unfold credit. destruct u; simpl. unfold User.set_storageUsed; simpl. f_equal. lia. Qed.

Lemma credit_0 u : credit 0 u = u.
Proof. unfold credit, User.set_storageUsed. destruct u; simpl. f_equal. lia. Qed.

(** ** The due entries *)

Lemma elem_of_getExpiredFiles now s f :
  f ∈ getExpiredFiles now s <-> f ∈ files s /\ File.expiresAt f < now.
Proof. unfold getExpiredFiles. rewrite list_elem_of_filter. tauto. Qed.

Lemma StronglySorted_filter_fmap {A} (g : A -> Z) (P : A -> Prop)
    `{!forall x, Decision (P x)} l :
  StronglySorted Z.le (g <$> l) -> StronglySorted Z.le (g <$> filter P l).
Proof.
  induction l as [|x l IH]; simpl; [done|].
  intros Hs. apply StronglySorted_inv in Hs as [Hl Hx].
  rewrite filter_cons. destruct (decide (P x)); [|by apply IH].
  rewrite fmap_cons. constructor; [by apply IH|].
  rewrite Forall_forall in Hx |- *. intros y Hy. apply Hx.
  apply list_elem_of_fmap in Hy as (z & -> & Hz).
  apply list_elem_of_fmap_2. apply list_elem_of_filter in Hz. tauto.
Qed.

(** On any store the expired-files query yields exactly the stored entries
    whose [expiresAt] is strictly before [asOf].  No sort is requested: the
    entries come in the order of the collection, so they are in ascending
    order of expiry when the collection is. *)
Lemma getExpiredFiles_strict_store_order (asOf : Z) (s : Store) :
  (forall f, f ∈ getExpiredFiles asOf s <->
             f ∈ files s /\ File.expiresAt f < asOf)
  /\ (forall f, File.expiresAt f = asOf -> f ∉ getExpiredFiles asOf s)
  /\ getExpiredFiles asOf s `sublist_of` files s
  /\ (StronglySorted Z.le (File.expiresAt <$> files s) ->
      StronglySorted Z.le (File.expiresAt <$> getExpiredFiles asOf s)).
Proof.
  split; [intros f; apply elem_of_getExpiredFiles|].
  split.
  { intros f Hf [_ Hlt]%elem_of_getExpiredFiles. lia. }
  split; [apply sublist_filter|].
  apply StronglySorted_filter_fmap.
Qed.

(** ** C9: reads of absent and of foreign content *)

Lemma getFile_not_found req s :
  (forall f, f ∈ files s -> File._id f = params_id req ->
             File.userId f <> User._id (user req)) ->
  getFile req s = not_found ERROR_MESSAGES.FILE_NOT_FOUND.
Proof.
  intros H. unfold getFile.
  replace (find_first _ (files s)) with (@None File.t); [done|].
  symmetry. apply find_first_None. intros f Hf.
  unfold owned_by, has_id.
  destruct (Nat.eqb_spec (File._id f) (params_id req)) as [Hid|]; [|done].
  destruct (Nat.eqb_spec (File.userId f) (User._id (user req))); [|done].
  by destruct (H f Hf Hid).
Qed.

Lemma getClip_not_found req s :
  (forall c, c ∈ clips s -> Clipboard._id c = params_id req ->
             Clipboard.userId c <> User._id (user req)) ->
  getClip req s = not_found ERROR_MESSAGES.CLIP_NOT_FOUND.
Proof.
  intros H. unfold getClip.
  replace (find_first _ (clips s)) with (@None Clipboard.t); [done|].
  symmetry. apply find_first_None. intros c Hc. unfold clip_has_id.
  destruct (Nat.eqb_spec (Clipboard._id c) (params_id req)) as [Hid|];
    [|done].
  destruct (Nat.eqb_spec (Clipboard.userId c) (User._id (user req)));
    [|done].
  by destruct (H c Hc Hid).
Qed.

(** C9: [getFile] and [getClip] answer 404 with the one not-found message
    both when no entry has the requested id and when the entry belongs to
    another account; the two replies are equal, so the caller cannot tell
    the cases apart. *)
Theorem C9_not_found_hides_ownership (req : Request) (s_absent s_foreign : Store) :
  (file_absent (params_id req) s_absent ->
   file_foreign (params_id req) (User._id (user req)) s_foreign ->
   getFile req s_absent = not_found ERROR_MESSAGES.FILE_NOT_FOUND
   /\ getFile req s_foreign = getFile req s_absent)
  /\ (clip_absent (params_id req) s_absent ->
      clip_foreign (params_id req) (User._id (user req)) s_foreign ->
      getClip req s_absent = not_found ERROR_MESSAGES.CLIP_NOT_FOUND
      /\ getClip req s_foreign = getClip req s_absent).
Proof.
  split.
  - intros Ha [_ Hf].
    rewrite (getFile_not_found req s_absent), (getFile_not_found req s_foreign);
      [done | exact Hf |].
    intros f Hin Hid. by destruct (Ha f Hin).
  - intros Ha [_ Hf].
    rewrite (getClip_not_found req s_absent), (getClip_not_found req s_foreign);
      [done | exact Hf |].
    intros c Hin Hid. by destruct (Ha c Hin).
Qed.

(** ** C10: extending the expiry *)

Lemma find_first_update_first {A} (p : A -> bool) (g : A -> A) l x :
  (forall y, p (g y) = p y) ->
  find_first p l = Some x ->
  find_first p (update_first p g l) = Some (g x).
Proof.
  intros Hp. induction l as [|y l IH]; simpl; [done|].
  destruct (p y) eqn:Hy; simpl.
  - intros [= ->]. by rewrite Hp, Hy.
  - intros H. rewrite Hy. by apply IH.
Qed.

(** C10: [extendExpiry(days)] on a file or a clip sets [expiresAt] to the
    time of the call plus [days] days, [days] being the configured expiry
    (7 unless the environment overrides it) when omitted; the previous
    [expiresAt] plays no part, the stored entry gets the same value, and an
    entry that had more than [days] days left ends up expiring earlier. *)
Theorem C10_extendExpiry_resets_from_now
    (days : option Z) (now : Z) (f : File.t) (c : Clipboard.t) (s : Store) :
  let d := default EXPIRY_DAYS days in
  let f' := fst (extendExpiry days now f s) in
  let c' := fst (Clipboard_extendExpiry days now c s) in
  File.expiresAt f' = now + d * DAY_MS
  /\ Clipboard.expiresAt c' = now + d * DAY_MS
  /\ (FILE_EXPIRY_DAYS = None -> default EXPIRY_DAYS None = 7)
  /\ (forall old, fst (extendExpiry days now (File.set_expiresAt old f) s) = f')
  /\ (forall old,
        fst (Clipboard_extendExpiry days now (Clipboard.set_expiresAt old c) s)
        = c')
  /\ (find_first (has_id (File._id f)) (files s) = Some f ->
      find_first (has_id (File._id f))
                 (files (snd (extendExpiry days now f s))) = Some f')
  /\ (find_first (clip_has_id (Clipboard._id c)) (clips s) = Some c ->
      find_first (clip_has_id (Clipboard._id c))
                 (clips (snd (Clipboard_extendExpiry days now c s))) = Some c')
  /\ (d * DAY_MS < File.expiresAt f - now -> File.expiresAt f' < File.expiresAt f)
  /\ (d * DAY_MS < Clipboard.expiresAt c - now ->
      Clipboard.expiresAt c' < Clipboard.expiresAt c).
Proof.
  intros d f' c'. subst d f' c'. unfold DAY_MS. simpl.
  repeat split; try lia.
  - intros H. unfold EXPIRY_DAYS. by rewrite H.
  - intros H. by apply find_first_update_first.
  - intros H. by apply find_first_update_first.
Qed.

(** ** [File.create] and the loop of [uploadFiles] *)

Lemma File_create_inl mk_doc s s1 doc :
  File_create mk_doc s = (s1, inl doc) ->
  doc = mk_doc (next_oid s)
  /\ s1 = inc_storageUsed (File.userId doc) (File.fileSize doc)
            (set_next_oid (S (next_oid s))
               (set_files (files s ++ [doc]) s)).
Proof.
  unfold File_create, post_save.
  destruct (negb (fileSchema_validate _)); [done|].
  destruct (existsb _ _); [done|].
  intros [= <- <-]. done.
Qed.

Lemma File_create_inr mk_doc s s1 e :
  File_create mk_doc s = (s1, inr e) -> s1 = s.
Proof.
  unfold File_create.
  destruct (negb (fileSchema_validate _)); [by intros [= <- _]|].
  destruct (existsb _ _); [by intros [= <- _]|]. done.
Qed.

(** What the loop leaves behind, whether it ran to the end or stopped at a
    rejected document: the records [created] so far, appended to the
    collection under fresh ids, and their bytes credited to the owner. *)
Lemma create_records_spec owner folder now fs up s s1 res :
  create_records owner folder now fs up s = (s1, res) ->
  exists created,
    files s1 = files s ++ created
    /\ (forall k, users s1 !! k =
          if decide (owner = k)
          then credit (sumZ File.fileSize created) <$> users s !! k
          else users s !! k)
    /\ disk s1 = disk s /\ folders s1 = folders s /\ clips s1 = clips s
    /\ next_oid s1 = (next_oid s + length created)%nat
    /\ File._id <$> created = seq (next_oid s) (length created)
    /\ Forall (fun f => File.userId f = owner) created
    /\ (exists rest,
          Upload.size <$> fs = (File.fileSize <$> created) ++ rest)
    /\ (forall up', res = inl up' ->
          up' = up ++ created
          /\ File.fileSize <$> created = Upload.size <$> fs).
Proof.
  revert up s. induction fs as [|file fs IH]; intros up s;
    cbn [create_records].
  - intros [= <- <-]. exists []. rewrite app_nil_r. simpl.
    split_and!; try done.
    + intros k. destruct (decide (owner = k)); [|done].
      destruct (users s !! k) as [u|]; simpl; [|done]. by rewrite credit_0.
    + by exists [].
    + intros up' [= <-]. by rewrite app_nil_r.
  - destruct (File_create _ s) as [s0 [doc|e]] eqn:Hc.
    + apply File_create_inl in Hc as [Hdoc ->]. intros Hrec.
      apply IH in Hrec
        as (created & Hf & Hu & Hd & Hfo & Hcl & Hn & Hids & Ho & [rest Hp] & Hup).
      unfold inc_storageUsed, set_users, set_next_oid, set_files in *.
      cbn [users files folders clips disk next_oid] in *.
      exists (doc :: created).
      assert (File.userId doc = owner) as Hown by (by subst doc).
      assert (File.fileSize doc = Upload.size file) as Hsz by (by subst doc).
      assert (File._id doc = next_oid s) as Hid by (by subst doc).
      split_and!; try done.
      * by rewrite Hf, <- app_assoc.
      * intros k. rewrite Hu, lookup_alter, Hown.
        destruct (decide (owner = k)) as [->|]; [|done].
        destruct (users s !! k) as [u|]; simpl; [|done].
        f_equal. apply credit_credit.
      * rewrite Hn. simpl. lia.
      * rewrite fmap_cons, Hid, Hids. done.
      * by constructor.
      * exists rest. by rewrite !fmap_cons, Hsz, Hp.
      * intros up' Hres. destruct (Hup up' Hres) as [-> Hsizes].
        split; [by rewrite <- app_assoc|]. by rewrite !fmap_cons, Hsz, Hsizes.
    + apply File_create_inr in Hc as ->. intros [= <- <-]. exists [].
      rewrite app_nil_r. simpl. split_and!; try done.
      * intros k. destruct (decide (owner = k)); [|done].
        destruct (users s !! k) as [u|]; simpl; [|done]. by rewrite credit_0.
      * by exists (Upload.size file :: (Upload.size <$> fs)).
Qed.

Lemma unlink_all_db fs s :
  users (unlink_all fs s) = users s /\ files (unlink_all fs s) = files s
  /\ folders (unlink_all fs s) = folders s
  /\ clips (unlink_all fs s) = clips s
  /\ next_oid (unlink_all fs s) = next_oid s.
Proof.
  unfold unlink_all. revert s. induction fs as [|file fs IH]; intros s;
    simpl; [done|].
  destruct (IH (unlink_quiet (Upload.path file) s)) as (-> & -> & -> & -> & ->).
  done.
Qed.

Lemma users_updateStorage this bytes s k :
  let v := Z.max 0 (User.storageUsed this + bytes) in
  users (snd (updateStorage this bytes s)) !! k =
  if decide (User._id this = k)
  then (if v =? User.storageUsed this then users s !! k
        else User.set_storageUsed v <$> users s !! k)
  else users s !! k.
Proof.
  unfold updateStorage, save_storageUsed. simpl.
  destruct (_ =? _); simpl.
  - by destruct (decide _).
  - rewrite lookup_alter. by destruct (decide _) as [->|].
Qed.

Lemma updateStorage_db this bytes s :
  files (snd (updateStorage this bytes s)) = files s
  /\ next_oid (snd (updateStorage this bytes s)) = next_oid s.
Proof.
  unfold updateStorage, save_storageUsed. simpl. by destruct (_ =? _).
Qed.

(** ** The upload directory *)

Lemma disk_unlink_quiet q s p :
  disk (unlink_quiet q s) !! p =
  if decide (q = p)
  then match disk s !! p with Some true => None | o => o end
  else disk s !! p.
Proof.
  unfold unlink_quiet, fs_unlink. cbn [disk set_disk].
  destruct (decide (q = p)) as [->|Hne].
  - destruct (disk s !! p) as [[]|] eqn:Hp; cbn [fst]; try done.
    apply lookup_delete_eq.
  - destruct (disk s !! q) as [[]|] eqn:Hq; cbn [fst]; try done.
    by apply lookup_delete_ne.
Qed.

Lemma disk_unlink_all fs s p :
  disk (unlink_all fs s) !! p =
  if decide (p ∈ Upload.path <$> fs)
  then match disk s !! p with Some true => None | o => o end
  else disk s !! p.
Proof.
  unfold unlink_all. revert s.
  induction fs as [|file fs IH]; intros s; cbn [foldl].
  - rewrite fmap_nil. destruct (decide _) as [Hin|]; [|done].
    by apply elem_of_nil in Hin.
  - rewrite IH, fmap_cons, disk_unlink_quiet.
    destruct (decide (Upload.path file = p)) as [->|Hne].
    + rewrite (decide_True (P := _ ∈ _ :: _)) by left.
      destruct (decide _); by destruct (disk s !! p) as [[]|].
    + destruct (decide (p ∈ Upload.path <$> fs)) as [Hin|Hnin].
      * by rewrite (decide_True (P := _ ∈ _ :: _)) by (by right).
      * rewrite (decide_False (P := _ ∈ _ :: _)); [done|].
        rewrite not_elem_of_cons. done.
Qed.

Lemma disk_uploadMultiple fs s p :
  disk (uploadMultiple fs s) !! p =
  if decide (p ∈ Upload.path <$> fs) then Some true else disk s !! p.
Proof.
  unfold uploadMultiple. cbn [disk set_disk].
  generalize (disk s) as d.
  induction fs as [|file fs IH]; intros d; cbn [foldl].
  - rewrite fmap_nil. destruct (decide _) as [Hin|]; [|done].
    by apply elem_of_nil in Hin.
  - rewrite IH, fmap_cons.
    destruct (decide (p ∈ Upload.path <$> fs)) as [Hin|Hnin].
    + by rewrite (decide_True (P := _ ∈ _ :: _)) by (by right).
    + destruct (decide (Upload.path file = p)) as [->|Hne].
      * rewrite (decide_True (P := _ ∈ _ :: _)) by left.
        apply lookup_insert_eq.
      * rewrite (decide_False (P := _ ∈ _ :: _)).
        -- by apply lookup_insert_ne.
        -- rewrite not_elem_of_cons. done.
Qed.

Lemma uploadMultiple_db fs s :
  users (uploadMultiple fs s) = users s /\ files (uploadMultiple fs s) = files s
  /\ folders (uploadMultiple fs s) = folders s
  /\ clips (uploadMultiple fs s) = clips s
  /\ next_oid (uploadMultiple fs s) = next_oid s.
Proof. done. Qed.

(** ** C6: admission control *)

Lemma hasStorageSpace_spec u bytes :
  hasStorageSpace u bytes = true <->
  User.storageUsed u + bytes <= User.storageLimit u.
Proof. unfold hasStorageSpace. apply Z.leb_le. Qed.

Lemma uploadFiles_denied req now s fs :
  uploaded_batch req = Some fs -> folder_ok req s ->
  hasStorageSpace (user req) (total_size fs) = false ->
  uploadFiles req now s = (unlink_all fs s, over_quota req (total_size fs)).
Proof.
  intros Hb Hf Hs. unfold uploadFiles, folder_ok in *. rewrite Hb.
  destruct (body_folderId req); [rewrite Hf|]; by rewrite Hs.
Qed.

(** A batch that fits goes on to the creation of the records. *)
Lemma uploadFiles_accepted req now s fs :
  uploaded_batch req = Some fs -> folder_ok req s ->
  hasStorageSpace (user req) (total_size fs) = true ->
  uploadFiles req now s =
  match create_records (User._id (user req)) (body_folderId req) now fs [] s
  with
  | (s1, inr e) => (unlink_all fs s1, Next e)
  | (s1, inl uploadedFiles) =>
    let '(user', s2) := updateStorage (user req) (total_size fs) s1 in
    (s2,
     Json (mkResponse HTTP_STATUS.CREATED true
             (Some SUCCESS_MESSAGES.FILE_UPLOADED)
             (UploadData uploadedFiles (length uploadedFiles) (total_size fs)
                (User.storageUsed user' + total_size fs)
                (User.storageLimit user'))))
  end.
Proof.
  intros Hb Hf Hs. unfold uploadFiles, folder_ok in *. rewrite Hb.
  destruct (body_folderId req); [rewrite Hf|]; by rewrite Hs.
Qed.

(** C6: [hasStorageSpace] accepts exactly when used + bytes <= limit (and
    so does the [checkStorageSpace] middleware, on the content length), and
    [uploadFiles] answers a batch with the over-quota reply (400, storage
    limit message, used, limit and required bytes) exactly when the batch
    does not fit.  A denied upload changes no collection, unlinks the
    payloads multer wrote, and so leaves the store as it was before the
    payloads arrived. *)
Theorem C6_admission_control (req : Request) (now : Z) (s : Store)
    (fs : list Upload.t) :
  uploaded_batch req = Some fs ->
  folder_ok req s ->
  let u := user req in
  let fits := User.storageUsed u + total_size fs <= User.storageLimit u in
  (forall bytes, hasStorageSpace u bytes = true <->
                 User.storageUsed u + bytes <= User.storageLimit u)
  /\ (forall contentLength,
        checkStorageSpace contentLength req = None <->
        User.storageUsed u + default 0 contentLength <= User.storageLimit u)
  /\ (snd (uploadFiles req now s) = over_quota req (total_size fs)
      <-> ~ fits)
  /\ (~ fits ->
      let s' := fst (uploadFiles req now s) in
      users s' = users s /\ files s' = files s
      /\ (forall file, file ∈ fs ->
            disk s !! Upload.path file = Some true ->
            disk s' !! Upload.path file = None))
  /\ (~ fits ->
      (forall file, file ∈ fs -> disk s !! Upload.path file = None) ->
      fst (uploadFiles req now (uploadMultiple fs s)) = s).
Proof.
  intros Hb Hf u fits. subst u fits.
  split; [intros bytes; apply hasStorageSpace_spec|].
  split.
  { intros cl. unfold checkStorageSpace.
    rewrite <- hasStorageSpace_spec.
    by destruct (hasStorageSpace (user req) (default 0 cl)). }
  split; [|split].
  - split.
    + intros Hout Hfits. apply hasStorageSpace_spec in Hfits.
      rewrite (uploadFiles_accepted _ _ _ _ Hb Hf Hfits) in Hout.
      destruct (create_records _ _ _ _ _ _) as [s1 [up|e]]; [|done].
      unfold updateStorage in Hout. cbn in Hout. discriminate Hout.
    + intros Hn.
      rewrite (uploadFiles_denied _ _ _ _ Hb Hf); [done|].
      apply not_true_is_false. by rewrite hasStorageSpace_spec.
  - intros Hn. rewrite (uploadFiles_denied _ _ _ _ Hb Hf);
      [|apply not_true_is_false; by rewrite hasStorageSpace_spec].
    cbn [fst]. destruct (unlink_all_db fs s) as (-> & -> & _).
    split_and!; try done.
    intros file Hin Hd. rewrite disk_unlink_all, Hd.
    rewrite decide_True; [done|]. by apply list_elem_of_fmap_2.
  - intros Hn Hfresh.
    rewrite (uploadFiles_denied _ _ _ _ Hb); [| exact Hf |
      apply not_true_is_false; by rewrite hasStorageSpace_spec].
    cbn [fst].
    destruct (unlink_all_db fs (uploadMultiple fs s)) as (Hu & Hfi & Hfo & Hc & Hn').
    assert (disk (unlink_all fs (uploadMultiple fs s)) = disk s) as Hd.
    { apply map_eq. intros p. rewrite disk_unlink_all, disk_uploadMultiple.
      destruct (decide (p ∈ Upload.path <$> fs)) as [Hin|]; [|done].
      apply list_elem_of_fmap in Hin as (file & -> & Hin).
      by rewrite Hfresh. }
    destruct (unlink_all fs (uploadMultiple fs s)) as [? ? ? ? ? ?].
    destruct s. cbn in *. by subst.
Qed.

(** ** What an upload leaves in the store *)

Lemma sumZ_prefix_le (l1 l2 rest : list Z) :
  l2 = l1 ++ rest -> Forall (fun x => 0 <= x) l2 ->
  Forall (fun x => 0 <= x) l1 /\ sumZ id l1 <= sumZ id l2.
Proof.
  intros -> [H1 H2]%Forall_app. split; [done|].
  rewrite sumZ_app. pose proof (sumZ_nonneg id rest H2). lia.
Qed.

Lemma sumZ_id_fmap {A} (g : A -> Z) l : sumZ id (g <$> l) = sumZ g l.
Proof. by rewrite sumZ_fmap. Qed.

(** The effect of [uploadFiles] on the database when [req.user] is the
    account as the store holds it: the records [created] are appended, and
    the owner's ledger grows by exactly their bytes, whatever the outcome. *)
Lemma uploadFiles_spec req now s s' out :
  users s !! User._id (user req) = Some (user req) ->
  0 <= User.storageUsed (user req) ->
  (forall fs, uploaded_batch req = Some fs ->
              Forall (fun file => 0 <= Upload.size file) fs) ->
  uploadFiles req now s = (s', out) ->
  exists created,
    files s' = files s ++ created
    /\ (forall k, users s' !! k =
          if decide (User._id (user req) = k)
          then credit (sumZ File.fileSize created) <$> users s !! k
          else users s !! k)
    /\ next_oid s' = (next_oid s + length created)%nat
    /\ File._id <$> created = seq (next_oid s) (length created)
    /\ Forall (fun f => File.userId f = User._id (user req)) created
    /\ Forall (fun f => 0 <= File.fileSize f) created
    /\ (created = [] \/
        User.storageUsed (user req) + sumZ File.fileSize created
        <= User.storageLimit (user req))
    /\ (forall r, out = Json r -> status r = HTTP_STATUS.CREATED ->
          exists fs, uploaded_batch req = Some fs
                     /\ sumZ File.fileSize created = total_size fs).
Proof.
  intros Hu Hused Hsizes Hup.
  assert (forall s0 o, (s', out) = (s0, o) ->
            users s0 = users s -> files s0 = files s ->
            next_oid s0 = next_oid s ->
            (forall r, o = Json r -> status r <> HTTP_STATUS.CREATED) ->
            exists created, files s' = files s ++ created
    /\ (forall k, users s' !! k =
          if decide (User._id (user req) = k)
          then credit (sumZ File.fileSize created) <$> users s !! k
          else users s !! k)
    /\ next_oid s' = (next_oid s + length created)%nat
    /\ File._id <$> created = seq (next_oid s) (length created)
    /\ Forall (fun f => File.userId f = User._id (user req)) created
    /\ Forall (fun f => 0 <= File.fileSize f) created
    /\ (created = [] \/
        User.storageUsed (user req) + sumZ File.fileSize created
        <= User.storageLimit (user req))
    /\ (forall r, out = Json r -> status r = HTTP_STATUS.CREATED ->
          exists fs, uploaded_batch req = Some fs
                     /\ sumZ File.fileSize created = total_size fs))
    as Hnothing.
  { intros s0 o [= -> ->] Hus Hfs Hn Hst. exists [].
    rewrite app_nil_r, Hus, Hfs, Hn. cbn [length sumZ].
    split_and!; try done; try lia; try by left.
    - intros k. destruct (decide _); [|done].
      destruct (users s !! k); cbn; [|done]. by rewrite credit_0.
    - intros r Hr Hc. by destruct (Hst r Hr). }
  unfold uploadFiles in Hup.
  destruct (uploaded_batch req) as [fs|] eqn:Hb; cycle 1.
  { eapply Hnothing; [symmetry; exact Hup|done..|].
    by intros r [= <-]. }
  specialize (Hsizes fs eq_refl).
  destruct (match body_folderId req with
            | Some folderId => folder_missing folderId (User._id (user req)) s
            | None => false
            end).
  { destruct (unlink_all_db fs s) as (? & ? & _ & _ & ?).
    eapply Hnothing; [symmetry; exact Hup|done..|]. by intros r [= <-]. }
  destruct (hasStorageSpace (user req) (total_size fs)) eqn:Hspace;
    cbn [negb] in Hup; cycle 1.
  { destruct (unlink_all_db fs s) as (? & ? & _ & _ & ?).
    eapply Hnothing; [symmetry; exact Hup|done..|]. by intros r [= <-]. }
  clear Hnothing. apply hasStorageSpace_spec in Hspace.
  destruct (create_records _ _ _ _ _ _) as [s1 res] eqn:Hrec.
  apply create_records_spec in Hrec
    as (created & Hf & Hus & _ & _ & _ & Hn & Hids & Hown & [rest Hp] & Hall).
  exists created.
  assert (Forall (fun x => 0 <= x) (Upload.size <$> fs)) as Hsz'.
  { rewrite Forall_fmap. exact Hsizes. }
  destruct (sumZ_prefix_le _ _ _ Hp Hsz') as [Hc1 Hc2].
  rewrite !sumZ_id_fmap, <- total_size_sumZ in Hc2.
  rewrite Forall_fmap in Hc1.
  pose proof (sumZ_nonneg _ _ Hc1) as Hc0.
  destruct res as [up|e].
  - destruct (Hall up eq_refl) as [_ Heq].
    assert (sumZ File.fileSize created = total_size fs) as Hsum.
    { rewrite total_size_sumZ, <- (sumZ_id_fmap File.fileSize),
        <- (sumZ_id_fmap Upload.size). by rewrite Heq. }
    pose proof (users_updateStorage (user req) (total_size fs) s1) as Hus'.
    pose proof (updateStorage_db (user req) (total_size fs) s1) as [Hf' Hn'].
    destruct (updateStorage (user req) (total_size fs) s1) as [user' s2].
    cbn [snd] in *. injection Hup as <- <-.
    rewrite Hf', Hn'. split_and!; try done; try (right; lia).
    + intros k. rewrite Hus', Hus.
      destruct (decide (User._id (user req) = k)) as [<-|]; [|done].
      rewrite Z.max_r by lia. clear Hus'.
      destruct (_ =? _); [done|].
      rewrite Hu. cbn. f_equal. unfold credit, User.set_storageUsed. cbn.
      f_equal. lia.
    + intros r _ _. by exists fs.
  - injection Hup as <- <-.
    destruct (unlink_all_db fs s1) as (-> & -> & _ & _ & ->).
    split_and!; try done; try (right; lia).
Qed.

(** ** An upload by the account as stored *)

(** When [req.user] is the account as stored and its usage is not
    negative, a successful upload (201) of a batch of total size S leaves
    the stored usage at u + S: the post-save hooks raise it by each file's
    size and [updateStorage] then writes the same total.  The new records
    hold S bytes in all and no other account changes. *)
Lemma upload_counted_once_from_stored_account (req : Request) (now : Z) (s s' : Store)
    (r : Response) (fs : list Upload.t) :
  uploaded_batch req = Some fs ->
  users s !! User._id (user req) = Some (user req) ->
  0 <= User.storageUsed (user req) ->
  Forall (fun file => 0 <= Upload.size file) fs ->
  uploadFiles req now s = (s', Json r) ->
  status r = HTTP_STATUS.CREATED ->
  users s' !! User._id (user req) = Some (credit (total_size fs) (user req))
  /\ (forall k, k <> User._id (user req) -> users s' !! k = users s !! k)
  /\ exists created,
       files s' = files s ++ created
       /\ sumZ File.fileSize created = total_size fs.
Proof.
  intros Hb Hu Hused Hsizes Hup Hst.
  apply uploadFiles_spec in Hup
    as (created & Hf & Hus & _ & _ & _ & _ & _ & Hok); try done.
  - destruct (Hok r eq_refl Hst) as (fs' & Hb' & Hsum).
    rewrite Hb in Hb'. injection Hb' as <-.
    split_and!.
    + rewrite Hus, decide_True, Hu, Hsum by done. done.
    + intros k Hk. rewrite Hus, decide_False; done.
    + by exists created.
  - intros fs' Hb'. rewrite Hb in Hb'. by injection Hb' as <-.
Qed.

(** ** Removing records *)

Lemma has_id_true id d : has_id id d = true <-> File._id d = id.
Proof. unfold has_id. apply Nat.eqb_eq. Qed.

Lemma has_id_false id d : has_id id d = false <-> File._id d <> id.
Proof. unfold has_id. apply Nat.eqb_neq. Qed.

Lemma unique_id_inj (l : list File.t) x y :
  NoDup (File._id <$> l) -> x ∈ l -> y ∈ l -> File._id x = File._id y ->
  x = y.
Proof.
  induction l as [|z l IH]; [by intros _ ?%elem_of_nil|].
  rewrite fmap_cons, NoDup_cons.
  intros [Hz Hl] [->|Hx]%elem_of_cons [->|Hy]%elem_of_cons Heq; try done.
  - destruct Hz. rewrite Heq. by apply list_elem_of_fmap_2.
  - destruct Hz. rewrite <- Heq. by apply list_elem_of_fmap_2.
  - by apply IH.
Qed.

(** Under unique ids, [deleteOne({ _id })] drops all and only the record
    with that id. *)
Lemma remove_first_unique (l : list File.t) id :
  NoDup (File._id <$> l) ->
  remove_first (has_id id) l = filter (fun g => File._id g <> id) l.
Proof.
  induction l as [|x l IH]; [done|].
  rewrite fmap_cons, NoDup_cons. intros [Hx Hl]. cbn [remove_first].
  rewrite filter_cons. destruct (has_id id x) eqn:Hid.
  - apply has_id_true in Hid. rewrite decide_False by (by intros []).
    rewrite <- IH by done. symmetry. apply remove_first_none.
    intros y Hy. apply has_id_false. intros Heq. apply Hx.
    rewrite Hid, <- Heq. by apply list_elem_of_fmap_2.
  - apply has_id_false in Hid. rewrite decide_True by done.
    by rewrite IH.
Qed.

Lemma remove_first_sublist {A} (p : A -> bool) l :
  remove_first p l `sublist_of` l.
Proof.
  induction l as [|x l IH]; cbn; [done|].
  destruct (p x); [by apply sublist_cons | by apply sublist_skip].
Qed.

Lemma Forall_sublist {A} (P : A -> Prop) (l1 l2 : list A) :
  l1 `sublist_of` l2 -> Forall P l2 -> Forall P l1.
Proof.
  intros Hs. rewrite !Forall_forall. intros H x Hx. apply H.
  by eapply elem_of_sublist.
Qed.

Lemma sublist_unique (l1 l2 : list File.t) :
  l1 `sublist_of` l2 -> NoDup (File._id <$> l2) -> NoDup (File._id <$> l1).
Proof.
  intros Hs Hn. apply (sublist_NoDup _ _ Hn). by apply fmap_sublist.
Qed.

(** The store after [file.deleteOne()]. *)
Lemma doc_deleteOne_spec this s :
  files (doc_deleteOne this s) = remove_first (has_id (File._id this)) (files s)
  /\ (forall k, users (doc_deleteOne this s) !! k =
        if decide (File.userId this = k)
        then credit (- File.fileSize this) <$> users s !! k
        else users s !! k)
  /\ disk (doc_deleteOne this s) = fst (fs_unlink (File.filePath this) (disk s))
  /\ folders (doc_deleteOne this s) = folders s
  /\ clips (doc_deleteOne this s) = clips s
  /\ next_oid (doc_deleteOne this s) = next_oid s.
Proof.
  unfold doc_deleteOne, File_deleteOne, pre_deleteOne.
  split_and!; try done.
  intros k. cbn [users set_files]. by rewrite users_inc_storageUsed.
Qed.


(** ** C7: deleting twice *)

Lemma deleteFile_found req s f :
  find_first (owned_by (params_id req) (User._id (user req))) (files s)
  = Some f ->
  deleteFile req s =
  (doc_deleteOne f s,
   Json (mkResponse HTTP_STATUS.OK true (Some SUCCESS_MESSAGES.FILE_DELETED)
           (DeleteData (File.fileSize f)
              (User.storageUsed (user req) - File.fileSize f)))).
Proof. unfold deleteFile. by intros ->. Qed.

Lemma deleteFile_missing req s :
  find_first (owned_by (params_id req) (User._id (user req))) (files s)
  = None ->
  deleteFile req s = (s, not_found ERROR_MESSAGES.FILE_NOT_FOUND).
Proof. unfold deleteFile. by intros ->. Qed.

Lemma owned_by_true id owner d :
  owned_by id owner d = true <-> File._id d = id /\ File.userId d = owner.
Proof.
  unfold owned_by. rewrite andb_true_iff, has_id_true, Nat.eqb_eq. done.
Qed.

(** C7: when [deleteFile] succeeds on a store with unique ids, the owner is
    debited the size of the removed file once, and any further [deleteFile]
    of the same id answers 404 "File not found" and leaves the store, the
    ledger included, as the first call left it. *)
Theorem C7_delete_twice (req : Request) (s s1 : Store) (r1 : Response) :
  unique_ids s ->
  deleteFile req s = (s1, Json r1) ->
  status r1 = HTTP_STATUS.OK ->
  exists f,
    f ∈ files s /\ File._id f = params_id req
    /\ File.userId f = User._id (user req)
    /\ (forall g, g ∈ files s1 <-> g ∈ files s /\ g <> f)
    /\ (forall k, users s1 !! k =
          if decide (File.userId f = k)
          then credit (- File.fileSize f) <$> users s !! k
          else users s !! k)
    /\ (forall req2, params_id req2 = params_id req ->
          deleteFile req2 s1 =
          (s1, not_found ERROR_MESSAGES.FILE_NOT_FOUND)).
Proof.
  intros Huniq Hdel Hst.
  destruct (find_first (owned_by (params_id req) (User._id (user req)))
              (files s)) as [f|] eqn:Hfind.
  2: { rewrite (deleteFile_missing _ _ Hfind) in Hdel.
       injection Hdel as <- <-. discriminate Hst. }
  rewrite (deleteFile_found _ _ _ Hfind) in Hdel. injection Hdel as <- _.
  apply find_first_Some in Hfind as [Hin [Hid Hown]%owned_by_true].
  destruct (doc_deleteOne_spec f s) as (Hf & Hu & _).
  rewrite remove_first_unique in Hf by done.
  exists f. split_and!; try done.
  - intros g. rewrite Hf, list_elem_of_filter. split.
    + intros [Hne Hg]. split; [done|]. by intros ->.
    + intros [Hg Hne]. split; [|done]. intros Heq. apply Hne.
      by apply (unique_id_inj (files s)).
  - intros req2 Hreq2. apply deleteFile_missing. apply find_first_None.
    intros g Hg. rewrite Hf in Hg. apply list_elem_of_filter in Hg as [Hne _].
    apply not_true_is_false. rewrite owned_by_true. intros [Heq _].
    apply Hne. by rewrite Heq, Hreq2.
Qed.

(** ** Removing many records *)

Lemma owned_bytes_cons k x l :
  owned_bytes k (x :: l) =
  (if decide (File.userId x = k) then File.fileSize x else 0)
  + owned_bytes k l.
Proof.
  unfold owned_bytes, owned. rewrite filter_cons.
  destruct (decide (File.userId x = k)); cbn [sumZ]; lia.
Qed.

Lemma owned_bytes_app k l1 l2 :
  owned_bytes k (l1 ++ l2) = owned_bytes k l1 + owned_bytes k l2.
Proof. unfold owned_bytes, owned. by rewrite filter_app, sumZ_app. Qed.

Lemma owned_bytes_nonneg k l :
  Forall (fun f => 0 <= File.fileSize f) l -> 0 <= owned_bytes k l.
Proof.
  intros H. apply sumZ_nonneg. unfold owned.
  rewrite Forall_forall in H |- *. intros f [_ Hf]%list_elem_of_filter. auto.
Qed.

Lemma owned_bytes_all k l :
  Forall (fun f => File.userId f = k) l ->
  owned_bytes k l = sumZ File.fileSize l.
Proof.
  induction 1 as [|x l Hx _ IH]; [done|].
  rewrite owned_bytes_cons, decide_True, IH by done. done.
Qed.

Lemma owned_bytes_none k l :
  Forall (fun f => File.userId f <> k) l -> owned_bytes k l = 0.
Proof.
  induction 1 as [|x l Hx _ IH]; [done|].
  rewrite owned_bytes_cons, decide_False, IH by done. done.
Qed.

Lemma owned_bytes_remove_one k f l :
  NoDup (File._id <$> l) -> f ∈ l ->
  owned_bytes k (remove_first (has_id (File._id f)) l) =
  owned_bytes k l
  - (if decide (File.userId f = k) then File.fileSize f else 0).
Proof.
  induction l as [|x l IH]; [by intros _ ?%elem_of_nil|].
  rewrite fmap_cons, NoDup_cons. intros [Hx Hl] Hin. cbn [remove_first].
  rewrite owned_bytes_cons. apply elem_of_cons in Hin as [->|Hin].
  - replace (has_id (File._id x) x) with true
      by (symmetry; by apply has_id_true). lia.
  - replace (has_id (File._id f) x) with false.
    + rewrite owned_bytes_cons, IH by done. lia.
    + symmetry. apply has_id_false. intros Heq. apply Hx. rewrite Heq.
      by apply list_elem_of_fmap_2.
Qed.

Lemma remove_all_cons d ds l :
  remove_all (d :: ds) l =
  remove_all ds (remove_first (has_id (File._id d)) l).
Proof. reflexivity. Qed.

Lemma remove_all_sublist ds l : remove_all ds l `sublist_of` l.
Proof.
  revert l. induction ds as [|d ds IH]; intros l; [done|].
  rewrite remove_all_cons. etrans; [apply IH|apply remove_first_sublist].
Qed.

Lemma owned_bytes_remove_all k ds l :
  NoDup (File._id <$> l) -> NoDup (File._id <$> ds) ->
  (forall d, d ∈ ds -> d ∈ l) ->
  owned_bytes k (remove_all ds l) = owned_bytes k l - owned_bytes k ds.
Proof.
  revert l. induction ds as [|d ds IH]; intros l Hl Hds Hsub.
  - change (remove_all [] l) with l.
    change (owned_bytes k []) with 0. lia.
  - rewrite remove_all_cons. rewrite fmap_cons, NoDup_cons in Hds.
    destruct Hds as [Hd Hds].
    rewrite IH, owned_bytes_remove_one, owned_bytes_cons; try done.
    + lia.
    + apply Hsub. left.
    + eapply sublist_unique; [apply remove_first_sublist|done].
    + intros e He. rewrite remove_first_unique by done.
      apply list_elem_of_filter. split; [|apply Hsub; by right].
      intros Heq. apply Hd. rewrite <- Heq. by apply list_elem_of_fmap_2.
Qed.

Lemma filter_ext_in {A} (P Q : A -> Prop) `{!forall x, Decision (P x)}
    `{!forall x, Decision (Q x)} (l : list A) :
  (forall x, x ∈ l -> (P x <-> Q x)) -> filter P l = filter Q l.
Proof.
  induction l as [|x l IH]; intros Hext; [done|].
  rewrite !filter_cons.
  destruct (decide (P x)) as [HP|HP], (decide (Q x)) as [HQ|HQ].
  - f_equal. apply IH. intros y Hy. apply Hext. by right.
  - destruct HQ. apply Hext; [left|done].
  - destruct HP. apply Hext; [left|done].
  - apply IH. intros y Hy. apply Hext. by right.
Qed.

Lemma remove_all_unique ds l :
  NoDup (File._id <$> l) ->
  remove_all ds l = filter (fun g => File._id g ∉ File._id <$> ds) l.
Proof.
  revert l. induction ds as [|d ds IH]; intros l Hl.
  - cbn. symmetry. induction l as [|x l IHl]; [done|].
    rewrite filter_cons, decide_True by apply not_elem_of_nil.
    f_equal. apply IHl. rewrite fmap_cons, NoDup_cons in Hl. tauto.
  - rewrite remove_all_cons.
    rewrite IH by (eapply sublist_unique; [apply remove_first_sublist|done]).
    rewrite remove_first_unique by done.
    rewrite list_filter_filter. apply filter_ext_in. intros g _.
    rewrite fmap_cons, not_elem_of_cons. tauto.
Qed.

(** Removing the matches of a query, under unique ids, leaves the rest. *)
Lemma remove_all_filter (P : File.t -> Prop) `{!forall x, Decision (P x)} l :
  NoDup (File._id <$> l) ->
  remove_all (filter P l) l = filter (fun g => ~ P g) l.
Proof.
  intros Hl. rewrite remove_all_unique by done.
  apply filter_ext_in. intros g Hg. split.
  - intros Hn HP. apply Hn. apply list_elem_of_fmap_2.
    by apply list_elem_of_filter.
  - intros HnP [e [Heq [HPe He]%list_elem_of_filter]]%list_elem_of_fmap.
    apply HnP. by rewrite (unique_id_inj l g e).
Qed.

(** ** The sweeper's [Map] *)

Lemma Map_get_set k v m k' :
  Map_get k' (Map_set k v m) = if decide (k = k') then Some v else Map_get k' m.
Proof.
  induction m as [|[k0 v0] m IH]; cbn [Map_set Map_get].
  - destruct (Nat.eqb_spec k k'), (decide (k = k')); done.
  - destruct (Nat.eqb_spec k0 k) as [->|Hne]; cbn [Map_get].
    + destruct (Nat.eqb_spec k k'), (decide (k = k')); done.
    + rewrite IH. destruct (Nat.eqb_spec k0 k'), (decide (k = k')); try done.
      congruence.
Qed.

Lemma Map_get_None k m : k ∉ Map_keys m -> Map_get k m = None.
Proof.
  unfold Map_keys. induction m as [|[k0 v0] m IH]; [done|].
  rewrite fmap_cons, not_elem_of_cons. cbn. intros [Hne Hk].
  destruct (Nat.eqb_spec k0 k); [congruence|]. by apply IH.
Qed.

Lemma Map_keys_set k v m :
  Map_keys (Map_set k v m) =
  if decide (k ∈ Map_keys m) then Map_keys m else Map_keys m ++ [k].
Proof.
  unfold Map_keys. induction m as [|[k0 v0] m IH]; cbn [Map_set].
  - rewrite decide_False; [done|]. apply not_elem_of_nil.
  - destruct (Nat.eqb_spec k0 k) as [->|Hne].
    + rewrite !fmap_cons. cbn [fst]. rewrite decide_True; [done|left].
    + rewrite !fmap_cons, IH. cbn [fst].
      destruct (decide (k ∈ fst <$> m)) as [Hin|Hnin].
      * rewrite decide_True; [done|by right].
      * rewrite decide_False; [done|]. rewrite not_elem_of_cons. done.
Qed.

Lemma Map_keys_set_NoDup k v m :
  NoDup (Map_keys m) -> NoDup (Map_keys (Map_set k v m)).
Proof.
  intros Hm. rewrite Map_keys_set. destruct (decide _) as [|Hnin]; [done|].
  apply NoDup_app. split_and!; [done| |apply NoDup_singleton].
  intros x Hx ->%list_elem_of_singleton. done.
Qed.

(** The loop that applies the collected updates. *)
Lemma apply_updates_spec m s :
  NoDup (Map_keys m) ->
  let s' := foldl (fun s '(userId, spaceFreed) =>
                     inc_storageUsed userId (- spaceFreed) s) s m in
  (forall k, users s' !! k =
             debit (default 0 (Map_get k m)) <$> users s !! k)
  /\ files s' = files s /\ folders s' = folders s /\ clips s' = clips s
  /\ disk s' = disk s /\ next_oid s' = next_oid s.
Proof.
  unfold Map_keys. revert s.
  induction m as [|[k0 v0] m IH]; intros s Hm; cbn [foldl].
  - split_and!; try done. intros k. cbn.
    destruct (users s !! k); cbn; [|done]. unfold debit. by rewrite credit_0.
  - rewrite fmap_cons, NoDup_cons in Hm. destruct Hm as [Hk0 Hm].
    destruct (IH (inc_storageUsed k0 (- v0) s) Hm) as (Hu & -> & -> & -> & -> & ->).
    split_and!; try done. intros k. rewrite Hu, users_inc_storageUsed.
    cbn [Map_get]. destruct (Nat.eqb_spec k0 k) as [->|Hne].
    + rewrite decide_True by done. rewrite (Map_get_None k m) by done.
      destruct (users s !! k); cbn; [|done]. unfold debit.
      by rewrite credit_credit, Z.add_0_r.
    + by rewrite decide_False.
Qed.

(** ** The sweeper's loop over the expired files *)

Lemma sweep_loop_spec (us : gmap nat User.t) E s m n fr :
  (forall k u, us !! k = Some u -> User._id u = k) ->
  NoDup (Map_keys m) ->
  exists s' m',
    foldl sweep_one (s, m, n, fr)
          ((fun f => (f, us !! File.userId f)) <$> E)
    = (s', m', (n + length E)%nat, fr + sumZ File.fileSize E)
    /\ users s' = users s /\ files s' = remove_all E (files s)
    /\ folders s' = folders s /\ clips s' = clips s
    /\ next_oid s' = next_oid s
    /\ NoDup (Map_keys m')
    /\ (forall k, default 0 (Map_get k m') =
          default 0 (Map_get k m)
          + sumZ File.fileSize
              (filter (fun f => File.userId f = k /\ is_Some (us !! k)) E)).
Proof.
  intros Hkeyed. revert s m n fr.
  induction E as [|f E IH]; intros s m n fr Hm.
  - exists s, m. cbn. split_and!; try done;
      [f_equal; [f_equal; lia | lia] | intros; lia].
  - rewrite fmap_cons. cbn [foldl].
    set (m1 := match us !! File.userId f with
               | Some u =>
                 Map_set (User._id u)
                   (default 0 (Map_get (User._id u) m) + File.fileSize f) m
               | None => m
               end).
    set (s1 := File_deleteOne (File._id f) (unlink_quiet (File.filePath f) s)).
    assert (sweep_one (s, m, n, fr) (f, us !! File.userId f)
            = (s1, m1, S n, fr + File.fileSize f)) as -> by reflexivity.
    assert (NoDup (Map_keys m1)) as Hm1.
    { subst m1. destruct (us !! File.userId f); [|done].
      by apply Map_keys_set_NoDup. }
    destruct (IH s1 m1 (S n) (fr + File.fileSize f) Hm1)
      as (s' & m' & Heq & Hu & Hf & Hfo & Hc & Hn & Hm' & Hget).
    exists s', m'. split_and!; try done.
    + rewrite Heq. cbn [length sumZ]. f_equal; [f_equal; lia | lia].
    + intros k. rewrite Hget, filter_cons. subst m1.
      destruct (us !! File.userId f) as [u|] eqn:Hown.
      * rewrite (Hkeyed _ _ Hown), Map_get_set.
        destruct (decide (File.userId f = k)) as [<-|Hne].
        -- rewrite decide_True by (split; [done|by rewrite Hown]).
           simpl. lia.
        -- rewrite decide_False by tauto. lia.
      * rewrite decide_False; [lia|]. intros [<- [u Hu']]. congruence.
Qed.

(** The store and the report after one sweep. *)
Lemma cleanupExpiredFiles_spec now s :
  keyed s ->
  let E := getExpiredFiles now s in
  exists s',
    cleanupExpiredFiles now s
    = (s', mkCleanupResult (length E) (sumZ File.fileSize E) None)
    /\ files s' = remove_all E (files s)
    /\ (forall k, users s' !! k = debit (owned_bytes k E) <$> users s !! k)
    /\ folders s' = folders s /\ clips s' = clips s
    /\ next_oid s' = next_oid s.
Proof.
  intros Hkeyed E. unfold cleanupExpiredFiles. fold (getExpiredFiles now s).
  fold E.
  destruct (sweep_loop_spec (users s) E s [] 0%nat 0 Hkeyed)
    as (s1 & m & Heq & Hu & Hf & Hfo & Hc & Hn & Hm & Hget);
    [apply NoDup_nil_2|].
  rewrite Heq. cbn [Nat.add].
  destruct (apply_updates_spec m s1 Hm) as (Hu2 & Hf2 & Hfo2 & Hc2 & _ & Hn2).
  eexists. split; [f_equal; f_equal; lia|].
  rewrite Hf2, Hfo2, Hc2, Hn2. split_and!; try done.
  intros k. rewrite Hu2, Hu, Hget. cbn [Map_get default].
  destruct (users s !! k) as [u|] eqn:Hk; [|done]. cbn. f_equal.
  unfold owned_bytes, owned. f_equal. rewrite Z.add_0_l. f_equal.
  apply filter_ext_in. intros f _. split; [tauto|]. intros ->. split; [done|].
  by eexists.
Qed.

(** ** Loops of [file.deleteOne()] *)

Lemma delete_docs_spec ds s fr :
  exists s',
    foldl (fun '(s, freed) file =>
             (doc_deleteOne file s, freed + File.fileSize file))
          (s, fr) ds
    = (s', fr + sumZ File.fileSize ds)
    /\ files s' = remove_all ds (files s)
    /\ (forall k, users s' !! k = debit (owned_bytes k ds) <$> users s !! k)
    /\ folders s' = folders s /\ clips s' = clips s
    /\ next_oid s' = next_oid s.
Proof.
  revert s fr. induction ds as [|d ds IH]; intros s fr.
  - exists s. cbn. split_and!; try done; [f_equal; lia|].
    intros k. destruct (users s !! k); cbn; [|done].
    unfold debit. by rewrite credit_0.
  - cbn [foldl].
    destruct (IH (doc_deleteOne d s) (fr + File.fileSize d))
      as (s' & Heq & Hf & Hu & Hfo & Hc & Hn).
    destruct (doc_deleteOne_spec d s) as (Hf1 & Hu1 & _ & Hfo1 & Hc1 & Hn1).
    exists s'. split_and!.
    + rewrite Heq. cbn [sumZ]. f_equal. lia.
    + by rewrite Hf, Hf1.
    + intros k. rewrite Hu, Hu1, owned_bytes_cons.
      destruct (decide (File.userId d = k)).
      * destruct (users s !! k); cbn; [|done]. unfold debit.
        rewrite credit_credit. do 2 f_equal. lia.
      * by rewrite Z.add_0_l.
    + by rewrite Hfo. + by rewrite Hc. + by rewrite Hn.
Qed.

(** The static sweep of the file model does to the database what the
    scheduled sweep does. *)
Lemma File_cleanupExpiredFiles_spec now s :
  let E := getExpiredFiles now s in
  exists s',
    File_cleanupExpiredFiles now s = (s', (length E, sumZ File.fileSize E))
    /\ files s' = remove_all E (files s)
    /\ (forall k, users s' !! k = debit (owned_bytes k E) <$> users s !! k)
    /\ next_oid s' = next_oid s.
Proof.
  intros E. unfold File_cleanupExpiredFiles. fold E.
  destruct (delete_docs_spec E s 0) as (s' & Heq & Hf & Hu & _ & _ & Hn).
  exists s'. rewrite Heq. by rewrite Z.add_0_l.
Qed.

(** ** C5: one run of the sweeper *)

(** C5: on a store with unique ids, one sweep at time [now] removes
    exactly the entries whose expiry is before [now] and keeps all others,
    those expiring after [now] in particular; it reports their number and
    the sum of their sizes, and no error; each account's usage goes down by
    the total size of its removed entries, so an account none of whose
    entries expired keeps its usage.  The static sweep of the file model
    leaves the same records and the same ledger. *)
Theorem C5_sweeper_run (now : Z) (s s' : Store) (r : CleanupResult) :
  unique_ids s -> keyed s ->
  cleanupExpiredFiles now s = (s', r) ->
  let past := filter (fun f => File.expiresAt f < now) (files s) in
  let future := filter (fun f => now < File.expiresAt f) (files s) in
  files s' = filter (fun f => ~ File.expiresAt f < now) (files s)
  /\ (forall f, f ∈ past -> f ∉ files s')
  /\ (forall f, f ∈ future -> f ∈ files s')
  /\ length (files s) = (length past + length (files s'))%nat
  /\ deletedCount r = length past
  /\ freedSpace r = sumZ File.fileSize past
  /\ errors r = None
  /\ (forall k, users s' !! k = debit (owned_bytes k past) <$> users s !! k)
  /\ (forall k, owned k past = [] -> users s' !! k = users s !! k)
  /\ (exists s2,
        File_cleanupExpiredFiles now s = (s2, (deletedCount r, freedSpace r))
        /\ files s2 = files s' /\ users s2 = users s').
Proof.
  intros Huniq Hkeyed Hrun past future.
  destruct (cleanupExpiredFiles_spec now s Hkeyed)
    as (s0 & Heq & Hf & Hu & _ & _ & _).
  rewrite Heq in Hrun. injection Hrun as -> <-.
  unfold getExpiredFiles in *. fold past in Hf, Hu |- *.
  assert (files s' = filter (fun f => ~ File.expiresAt f < now) (files s))
    as Hfiles.
  { rewrite Hf. subst past. by apply remove_all_filter. }
  cbn [deletedCount freedSpace errors]. split_and!; try done.
  - intros f [Hlt _]%list_elem_of_filter. rewrite Hfiles.
    intros [Hn _]%list_elem_of_filter. done.
  - intros f [Hlt Hin]%list_elem_of_filter. rewrite Hfiles.
    apply list_elem_of_filter. split; [lia|done].
  - rewrite Hfiles. subst past.
    rewrite <- length_app.
    apply Permutation_length. symmetry. apply filter_app_complement.
  - intros k Hnone. rewrite Hu. unfold owned_bytes. rewrite Hnone. cbn.
    destruct (users s !! k); cbn; [|done]. unfold debit. by rewrite credit_0.
  - destruct (File_cleanupExpiredFiles_spec now s)
      as (s2 & Heq2 & Hf2 & Hu2 & _).
    unfold getExpiredFiles in *. fold past in Heq2, Hf2, Hu2.
    exists s2. split_and!; [done| by rewrite Hf2, Hf |].
    apply map_eq. intros k. by rewrite Hu2, Hu.
Qed.

(** ** C8: deleting an entry whose payload is gone *)




(** ** The ledger within its bounds, request after request *)

Lemma consistent_bounds s k u :
  consistent s -> users s !! k = Some u ->
  0 <= User.storageUsed u <= User.storageLimit u.
Proof.
  intros Hc Hk. destruct (cons_ledger s Hc k u Hk) as [Hlo Hhi].
  pose proof (owned_bytes_nonneg k (files s) (cons_sizes s Hc)). lia.
Qed.

(** A store without files is consistent as soon as every account is within
    its bounds; so is the store of newly created accounts. *)
Lemma consistent_no_files s :
  files s = [] -> keyed s ->
  (forall k u, users s !! k = Some u ->
               (k < next_oid s)%nat
               /\ 0 <= User.storageUsed u <= User.storageLimit u) ->
  consistent s.
Proof.
  intros Hf Hk Hb. split; unfold unique_ids; rewrite ?Hf; try done.
  - intros k u Hu. by destruct (Hb k u Hu).
  - apply NoDup_nil_2.
  - intros k u Hu. change (owned_bytes k []) with 0.
    destruct (Hb k u Hu) as [_ ?]. lia.
Qed.

Lemma consistent_empty : consistent (mkStore ∅ [] [] [] ∅ 0).
Proof. by apply consistent_no_files. Qed.

(** A new account starts within its bounds and owns nothing. *)
Lemma consistent_User_create s : consistent s -> consistent (User_create s).
Proof.
  intros [Hacc Hown Hfr Hun Hsz Hk Hl]. unfold User_create.
  split; unfold keyed, unique_ids, map_Forall;
    cbn [users files next_oid set_users set_next_oid].
  - intros k u. destruct (decide (next_oid s = k)) as [<-|Hne].
    + intros _. lia.
    + rewrite lookup_insert_ne by done. intros Hu.
      specialize (Hacc k u Hu). cbn beta in Hacc. lia.
  - eapply Forall_impl; [exact Hown|]. cbn. intros; lia.
  - eapply Forall_impl; [exact Hfr|]. cbn. intros; lia.
  - exact Hun.
  - exact Hsz.
  - intros k u. destruct (decide (next_oid s = k)) as [<-|Hne].
    + rewrite lookup_insert_eq. by intros [= <-].
    + rewrite lookup_insert_ne by done. apply Hk.
  - intros k u. destruct (decide (next_oid s = k)) as [<-|Hne].
    + rewrite lookup_insert_eq. intros [= <-].
      rewrite owned_bytes_none; [cbn; lia|].
      eapply Forall_impl; [exact Hown|]. cbn. intros; lia.
    + rewrite lookup_insert_ne by done. apply Hl.
Qed.

(** Appending records created for [uid] under fresh ids, and crediting
    their bytes, keeps the store consistent while the limit allows it. *)
Lemma consistent_created s s' uid created :
  consistent s ->
  files s' = files s ++ created ->
  (forall k, users s' !! k =
     if decide (uid = k)
     then credit (sumZ File.fileSize created) <$> users s !! k
     else users s !! k) ->
  next_oid s' = (next_oid s + length created)%nat ->
  File._id <$> created = seq (next_oid s) (length created) ->
  Forall (fun f => File.userId f = uid) created ->
  Forall (fun f => 0 <= File.fileSize f) created ->
  is_Some (users s !! uid) ->
  (forall u, users s !! uid = Some u ->
     created = [] \/
     User.storageUsed u + sumZ File.fileSize created <= User.storageLimit u) ->
  consistent s'.
Proof.
  intros [Hacc Hows Hfr Hun Hsz Hk Hl] Hf Hu Hn Hids Hown Hsz' [u1 Hu1] Hfit.
  assert (forall f, f ∈ created ->
            (next_oid s <= File._id f < next_oid s + length created)%nat)
    as Hrange.
  { intros f Hin. apply (list_elem_of_fmap_2 File._id) in Hin.
    rewrite Hids in Hin. apply elem_of_seq in Hin. lia. }
  split.
  - intros k u. rewrite Hu, Hn.
    intros Hk'. assert (is_Some (users s !! k)) as [u0 Hu0].
    { destruct (decide (uid = k)); [|by eexists].
      destruct (users s !! k); [by eexists|done]. }
    specialize (Hacc k u0 Hu0). cbn beta in Hacc. lia.
  - rewrite Hf, Hn. apply Forall_app. split.
    + eapply Forall_impl; [exact Hows|]. cbn. intros; lia.
    + eapply Forall_impl; [exact Hown|]. cbn. intros f ->.
      specialize (Hacc uid u1 Hu1). cbn beta in Hacc. lia.
  - rewrite Hf, Hn. apply Forall_app. split.
    + eapply Forall_impl; [exact Hfr|]. cbn. intros; lia.
    + apply Forall_forall. intros f Hin. specialize (Hrange f Hin). lia.
  - unfold unique_ids in *. rewrite Hf, fmap_app. apply NoDup_app.
    split_and!; [done| |rewrite Hids; apply NoDup_seq].
    intros id [f [-> Hin]]%list_elem_of_fmap Hin'.
    rewrite Forall_forall in Hfr. specialize (Hfr f Hin).
    rewrite Hids in Hin'. apply elem_of_seq in Hin'. cbn in Hfr. lia.
  - rewrite Hf. by apply Forall_app.
  - intros k u. rewrite Hu. destruct (decide (uid = k)); [|by apply Hk].
    destruct (users s !! k) as [u0|] eqn:Hu0; [|done].
    intros [= <-]. cbn. by apply Hk.
  - intros k u. rewrite Hu, Hf, owned_bytes_app.
    destruct (decide (uid = k)) as [<-|Hne].
    + destruct (users s !! uid) as [u0|] eqn:Hu0; [|done]. intros [= <-].
      rewrite (owned_bytes_all uid created) by done.
      specialize (Hl uid u0 Hu0). cbn beta in Hl. unfold credit. cbn.
      destruct (Hfit u0 eq_refl) as [->|Hle]; cbn; lia.
    + intros Hk0. specialize (Hl k u Hk0). cbn beta in Hl.
      rewrite (owned_bytes_none k created); [lia|].
      eapply Forall_impl; [exact Hown|]. cbn. congruence.
Qed.

(** Removing stored records and debiting their bytes keeps the store
    consistent. *)
Lemma consistent_removed s s' ds :
  consistent s ->
  NoDup (File._id <$> ds) -> (forall d, d ∈ ds -> d ∈ files s) ->
  files s' = remove_all ds (files s) ->
  (forall k, users s' !! k = debit (owned_bytes k ds) <$> users s !! k) ->
  next_oid s' = next_oid s ->
  consistent s'.
Proof.
  intros [Hacc Hows Hfr Hun Hsz Hk Hl] Hds Hsub Hf Hu Hn.
  pose proof (remove_all_sublist ds (files s)) as Hsl.
  assert (Forall (fun f => 0 <= File.fileSize f) ds) as Hdsz.
  { rewrite Forall_forall in Hsz |- *. auto. }
  split.
  - intros k u. rewrite Hu, Hn.
    destruct (users s !! k) as [u0|] eqn:Hu0; [|done]. intros _.
    by apply (Hacc k u0).
  - rewrite Hf, Hn. by eapply Forall_sublist.
  - rewrite Hf, Hn. by eapply Forall_sublist.
  - unfold unique_ids. rewrite Hf. by eapply sublist_unique.
  - rewrite Hf. by eapply Forall_sublist.
  - intros k u. rewrite Hu.
    destruct (users s !! k) as [u0|] eqn:Hu0; [|done]. intros [= <-].
    cbn. by apply Hk.
  - intros k u. rewrite Hu, Hf.
    destruct (users s !! k) as [u0|] eqn:Hu0; [|done]. intros [= <-].
    rewrite owned_bytes_remove_all by done.
    specialize (Hl k u0 Hu0). cbn beta in Hl.
    pose proof (owned_bytes_nonneg k ds Hdsz).
    unfold debit, credit. cbn. lia.
Qed.

Lemma consistent_delete_docs s s' ds fr fr' :
  consistent s ->
  NoDup (File._id <$> ds) -> (forall d, d ∈ ds -> d ∈ files s) ->
  foldl (fun '(s, freed) file =>
           (doc_deleteOne file s, freed + File.fileSize file))
        (s, fr) ds = (s', fr') ->
  consistent s'.
Proof.
  intros Hc Hds Hsub Hfold.
  destruct (delete_docs_spec ds s fr) as (s0 & Heq & Hf & Hu & _ & _ & Hn).
  rewrite Heq in Hfold. injection Hfold as <- _.
  by eapply consistent_removed.
Qed.

Lemma consistent_doc_deleteOne s f :
  consistent s -> f ∈ files s -> consistent (doc_deleteOne f s).
Proof.
  intros Hc Hin.
  apply (consistent_delete_docs s _ [f] 0 (0 + File.fileSize f)); try done.
  - rewrite fmap_cons, fmap_nil. apply NoDup_singleton.
  - by intros d ->%list_elem_of_singleton.
Qed.

Lemma consistent_uploadFiles s u now folderId fs :
  consistent s -> users s !! User._id u = Some u ->
  Forall (fun file => 0 <= Upload.size file) fs ->
  consistent
    (fst (uploadFiles (mkRequest u 0 folderId [] fs None) now
            (uploadMultiple fs s))).
Proof.
  intros Hc Hu Hsz.
  destruct (uploadFiles _ now (uploadMultiple fs s)) as [s' out] eqn:Hup.
  apply uploadFiles_spec in Hup
    as (created & Hf & Hus & Hn & Hids & Hown & Hcsz & Hfit & _).
  - cbn [fst]. eapply (consistent_created s s'); try done.
    cbn [user] in *. intros u0 Hu0. rewrite Hu in Hu0.
    by injection Hu0 as <-.
  - exact Hu.
  - cbn [user]. by destruct (consistent_bounds s _ u Hc Hu).
  - intros fs'. unfold uploaded_batch. cbn [req_files req_file].
    destruct fs; [done|]. by intros [= <-].
Qed.

Lemma consistent_step s e :
  consistent s -> op_sizes_ok e -> consistent (step s e).
Proof.
  intros Hc Hok.
  destruct e as [now [|uid cl folderId fs|uid fileId|uid ids|]];
    cbn [step]; unfold protect.
  - by apply consistent_User_create.
  - destruct (users s !! uid) as [u|] eqn:Hu; [|done].
    destruct (checkStorageSpace _ _); [done|].
    apply consistent_uploadFiles; try done.
    by rewrite (cons_keyed s Hc uid u Hu).
  - destruct (users s !! uid) as [u|] eqn:Hu; [|done].
    unfold deleteFile.
    destruct (find_first _ (files s)) as [f|] eqn:Hfind; [|done].
    apply find_first_Some in Hfind as [Hin _].
    by apply consistent_doc_deleteOne.
  - destruct (users s !! uid) as [u|] eqn:Hu; [|done].
    unfold deleteMultipleFiles. cbn [body_fileIds user].
    destruct ids as [|i ids]; [done|].
    set (found := filter _ (files s)).
    destruct found as [|d ds] eqn:Hfound; [done|]. rewrite <- Hfound.
    destruct (foldl _ (s, 0) found) as [s' freed] eqn:Hfold. cbn [fst].
    eapply (consistent_delete_docs s s' found); [done| | |exact Hfold].
    + eapply sublist_unique; [apply sublist_filter|apply (cons_unique s Hc)].
    + by intros g [_ Hg]%list_elem_of_filter.
  - destruct (cleanupExpiredFiles_spec now s (cons_keyed s Hc))
      as (s' & Heq & Hf & Hu & _ & _ & Hn).
    rewrite Heq. cbn [fst].
    apply (consistent_removed s s' (getExpiredFiles now s)); try done.
    + eapply sublist_unique; [apply sublist_filter|apply (cons_unique s Hc)].
    + by intros g [Hg _]%elem_of_getExpiredFiles.
Qed.

Lemma consistent_run trace s :
  consistent s -> Forall op_sizes_ok trace -> consistent (run trace s).
Proof.
  unfold run. revert s. induction trace as [|e trace IH]; intros s Hc Hok;
    [done|].
  apply Forall_cons in Hok as [He Hok]. cbn [foldl].
  apply IH; [|done]. by apply consistent_step.
Qed.

(** X26: start from a store whose ledger is consistent (no account reports
    fewer bytes than its records hold or more than its limit; the empty
    store is one).  After any sequence of signups, uploads, single and
    multiple deletes and sweeper runs, each served to its end before the
    next begins, every account has 0 <= storageUsed <= storageLimit. *)
Theorem sequential_quota_within_bounds (s0 : Store) (trace : list (Z * Op)) :
  consistent s0 ->
  Forall op_sizes_ok trace ->
  forall k u, users (run trace s0) !! k = Some u ->
    0 <= User.storageUsed u <= User.storageLimit u.
Proof.
  intros Hc Hok k u Hu. eapply consistent_bounds; [|exact Hu].
  by apply consistent_run.
Qed.

(** * Further properties *)

(** ** The ledger is exact *)

Lemma exact_created s s' uid created :
  exact_ledger s ->
  files s' = files s ++ created ->
  (forall k, users s' !! k =
     if decide (uid = k)
     then credit (sumZ File.fileSize created) <$> users s !! k
     else users s !! k) ->
  Forall (fun f => File.userId f = uid) created ->
  exact_ledger s'.
Proof.
  intros Hex Hf Hu Hown k u. rewrite Hu, Hf, owned_bytes_app.
  destruct (decide (uid = k)) as [<-|Hne].
  - destruct (users s !! uid) as [u0|] eqn:Hu0; [|done]. intros [= <-].
    rewrite (owned_bytes_all uid created) by done.
    specialize (Hex uid u0 Hu0). cbn beta in Hex. unfold credit. cbn. lia.
  - intros Hk. specialize (Hex k u Hk). cbn beta in Hex.
    rewrite (owned_bytes_none k created); [lia|].
    eapply Forall_impl; [exact Hown|]. cbn. congruence.
Qed.

Lemma exact_removed s s' ds :
  unique_ids s -> exact_ledger s ->
  NoDup (File._id <$> ds) -> (forall d, d ∈ ds -> d ∈ files s) ->
  files s' = remove_all ds (files s) ->
  (forall k, users s' !! k = debit (owned_bytes k ds) <$> users s !! k) ->
  exact_ledger s'.
Proof.
  intros Hun Hex Hds Hsub Hf Hu k u. rewrite Hu, Hf.
  destruct (users s !! k) as [u0|] eqn:Hu0; [|done]. intros [= <-].
  rewrite owned_bytes_remove_all by done.
  specialize (Hex k u0 Hu0). cbn beta in Hex. unfold debit, credit. cbn. lia.
Qed.

Lemma exact_step s e :
  consistent s -> exact_ledger s -> op_sizes_ok e -> exact_ledger (step s e).
Proof.
  intros Hc Hex Hok.
  destruct e as [now [|uid cl folderId fs|uid fileId|uid ids|]];
    cbn [step]; unfold protect.
  - unfold User_create. intros k u.
    cbn [users files set_users set_next_oid].
    destruct (decide (next_oid s = k)) as [<-|Hne].
    + rewrite lookup_insert_eq. intros [= <-].
      rewrite owned_bytes_none; [done|].
      eapply Forall_impl; [exact (cons_owners s Hc)|]. cbn. intros; lia.
    + rewrite lookup_insert_ne by done. apply Hex.
  - destruct (users s !! uid) as [u|] eqn:Hu; [|done].
    destruct (checkStorageSpace _ _); [done|].
    rewrite <- (cons_keyed s Hc uid u Hu) in Hu.
    destruct (uploadFiles _ now (uploadMultiple fs s)) as [s' out] eqn:Hup.
    apply uploadFiles_spec in Hup
      as (created & Hf & Hus & _ & _ & Hown & _); try done.
    + cbn [fst]. by eapply (exact_created s s').
    + cbn [user]. by destruct (consistent_bounds s _ u Hc Hu).
    + intros fs'. unfold uploaded_batch. cbn [req_files req_file].
      destruct fs; [done|]. by intros [= <-].
  - destruct (users s !! uid) as [u|] eqn:Hu; [|done].
    unfold deleteFile.
    destruct (find_first _ (files s)) as [f|] eqn:Hfind; [|done].
    apply find_first_Some in Hfind as [Hin _]. cbn [fst].
    destruct (delete_docs_spec [f] s 0) as (s0 & Heq & Hf & Hus & _).
    cbn [foldl] in Heq. injection Heq as <- _.
    apply (exact_removed s _ [f]); try done.
    + apply (cons_unique s Hc).
    + rewrite fmap_cons, fmap_nil. apply NoDup_singleton.
    + by intros d ->%list_elem_of_singleton.
  - destruct (users s !! uid) as [u|] eqn:Hu; [|done].
    unfold deleteMultipleFiles. cbn [body_fileIds user].
    destruct ids as [|i ids]; [done|].
    set (found := filter _ (files s)).
    destruct found as [|d ds] eqn:Hfound; [done|]. rewrite <- Hfound.
    destruct (delete_docs_spec found s 0) as (s0 & Heq & Hf & Hus & _).
    rewrite Heq. cbn [fst].
    apply (exact_removed s _ found); try done.
    + apply (cons_unique s Hc).
    + eapply sublist_unique; [apply sublist_filter|apply (cons_unique s Hc)].
    + by intros g [_ Hg]%list_elem_of_filter.
  - destruct (cleanupExpiredFiles_spec now s (cons_keyed s Hc))
      as (s' & Heq & Hf & Hu & _).
    rewrite Heq. cbn [fst].
    apply (exact_removed s s' (getExpiredFiles now s)); try done.
    + apply (cons_unique s Hc).
    + eapply sublist_unique; [apply sublist_filter|apply (cons_unique s Hc)].
    + by intros g [Hg _]%elem_of_getExpiredFiles.
Qed.

Lemma exact_run trace s :
  consistent s -> exact_ledger s -> Forall op_sizes_ok trace ->
  exact_ledger (run trace s).
Proof.
  unfold run. revert s.
  induction trace as [|e trace IH]; intros s Hc Hex Hok; [done|].
  apply Forall_cons in Hok as [He Hok]. cbn [foldl].
  apply IH; [by apply consistent_step|by apply exact_step|done].
Qed.

(** X1: When requests are served one after another from a consistent store
    whose ledger is exact, the ledger stays exact: every account's
    [storageUsed] is the total size of the files on record for it. *)
Theorem ledger_stays_exact (s0 : Store) (trace : list (Z * Op)) :
  consistent s0 ->
  exact_ledger s0 ->
  Forall op_sizes_ok trace ->
  forall k u, users (run trace s0) !! k = Some u ->
    User.storageUsed u = sumZ File.fileSize (owned k (files (run trace s0))).
Proof.
  intros Hc Hex Hok k u Hu.
  exact (exact_run trace s0 Hc Hex Hok k u Hu).
Qed.

(** ** More on uploads *)

(** The only way to a 201. *)
Lemma uploadFiles_created req now s s' r fs :
  uploaded_batch req = Some fs ->
  uploadFiles req now s = (s', Json r) ->
  status r = HTTP_STATUS.CREATED ->
  exists s1 up,
    create_records (User._id (user req)) (body_folderId req) now fs [] s
    = (s1, inl up)
    /\ hasStorageSpace (user req) (total_size fs) = true
    /\ s' = snd (updateStorage (user req) (total_size fs) s1)
    /\ data r =
       UploadData up (length up) (total_size fs)
         (Z.max 0 (User.storageUsed (user req) + total_size fs)
          + total_size fs)
         (User.storageLimit (user req)).
Proof.
  intros Hb Hup Hst. unfold uploadFiles in Hup. rewrite Hb in Hup.
  destruct (match body_folderId req with
            | Some folderId => folder_missing folderId (User._id (user req)) s
            | None => false
            end).
  { injection Hup as _ <-. discriminate Hst. }
  destruct (hasStorageSpace (user req) (total_size fs)) eqn:Hspace;
    cbn [negb] in Hup; [|injection Hup as _ <-; discriminate Hst].
  destruct (create_records _ _ _ _ _ _) as [s1 [up|e]]; [|done].
  exists s1, up. cbn in Hup. injection Hup as <- <-. done.
Qed.

(** The records the loop creates are the documents of the first files of
    the batch, in order. *)
Lemma create_records_docs owner folder now fs up s s1 res :
  create_records owner folder now fs up s = (s1, res) ->
  exists created,
    files s1 = files s ++ created
    /\ Forall2 (fun f file => f = new_file (File._id f) owner folder now file)
               created (take (length created) fs)
    /\ (length created <= length fs)%nat
    /\ (forall e, res = inr e -> (length created < length fs)%nat)
    /\ (forall up', res = inl up' -> length created = length fs).
Proof.
  revert up s. induction fs as [|file fs IH]; intros up s;
    cbn [create_records].
  - intros [= <- <-]. exists []. rewrite app_nil_r. by split_and!.
  - destruct (File_create _ s) as [s0 [doc|e]] eqn:Hc.
    + apply File_create_inl in Hc as [Hdoc ->]. intros Hrec.
      apply IH in Hrec as (created & Hf & H2 & Hle & Hlt & Heq).
      unfold inc_storageUsed, set_users, set_next_oid, set_files in Hf.
      cbn [files] in Hf.
      exists (doc :: created). cbn [length take]. split_and!.
      * by rewrite Hf, <- app_assoc.
      * constructor; [|done]. by subst doc.
      * lia.
      * intros e He. specialize (Hlt e He). lia.
      * intros up' Hup'. by rewrite (Heq up' Hup').
    + apply File_create_inr in Hc as ->. intros [= <- <-]. exists [].
      rewrite app_nil_r. cbn [length take]. split_and!; try done; try lia.
Qed.

Lemma new_file_fields id owner folder now file :
  File.userId (new_file id owner folder now file) = owner
  /\ File.filePath (new_file id owner folder now file) = Upload.path file
  /\ File.fileSize (new_file id owner folder now file) = Upload.size file
  /\ File.folderId (new_file id owner folder now file) = folder
  /\ File.expiresAt (new_file id owner folder now file)
     = now + EXPIRY_DAYS * DAY_MS.
Proof. unfold new_file, DAY_MS. cbn. split_and!; try done. lia. Qed.

(** X2: [uploadFiles] writes the ledger from [req.user], not from the stored
    account: after a 201, whenever max(0, req.user.storageUsed + S) differs
    from req.user.storageUsed, that value is what is stored, whatever the
    account held before; bytes credited since [req.user] was read are
    overwritten.  When the two are equal nothing is saved and only the
    hooks' increments remain. *)
Theorem upload_saves_from_request_user (req : Request) (now : Z)
    (s s' : Store) (r : Response) (fs : list Upload.t) (stored : User.t) :
  uploaded_batch req = Some fs ->
  users s !! User._id (user req) = Some stored ->
  uploadFiles req now s = (s', Json r) ->
  status r = HTTP_STATUS.CREATED ->
  let v := Z.max 0 (User.storageUsed (user req) + total_size fs) in
  users s' !! User._id (user req) =
  Some (if v =? User.storageUsed (user req)
        then credit (total_size fs) stored
        else User.set_storageUsed v stored).
Proof.
  intros Hb Hu Hup Hst v.
  destruct (uploadFiles_created _ _ _ _ _ _ Hb Hup Hst)
    as (s1 & up & Hrec & _ & -> & _).
  apply create_records_spec in Hrec
    as (created & _ & Hus & _ & _ & _ & _ & _ & _ & _ & Hall).
  destruct (Hall up eq_refl) as [_ Hsizes].
  assert (sumZ File.fileSize created = total_size fs) as Hsum.
  { rewrite total_size_sumZ, <- (sumZ_id_fmap File.fileSize),
      <- (sumZ_id_fmap Upload.size). by rewrite Hsizes. }
  rewrite users_updateStorage, decide_True, Hus, decide_True, Hu, Hsum by done.
  fold v. by destruct (v =? User.storageUsed (user req)).
Qed.

(** X3: The 201 reply of [uploadFiles] reports [req.user.storageUsed +
    totalSize] after [updateStorage] has already added the batch to
    [req.user]: for a request whose [req.user] is the stored account, the
    reported [storageUsed] exceeds the stored one by the size of the
    batch. *)
Theorem upload_reply_overstates (req : Request) (now : Z) (s s' : Store)
    (out : Outcome) (r : Response) (fs : list Upload.t) :
  uploaded_batch req = Some fs ->
  users s !! User._id (user req) = Some (user req) ->
  0 <= User.storageUsed (user req) ->
  Forall (fun file => 0 <= Upload.size file) fs ->
  uploadFiles req now s = (s', out) ->
  out = Json r -> status r = HTTP_STATUS.CREATED ->
  exists u',
    users s' !! User._id (user req) = Some u'
    /\ User.storageUsed u' = User.storageUsed (user req) + total_size fs
    /\ reply_storageUsed out = Some (User.storageUsed u' + total_size fs).
Proof.
  intros Hb Hu Hused Hsz Hup -> Hst.
  destruct (uploadFiles_created _ _ _ _ _ _ Hb Hup Hst)
    as (_ & up & _ & _ & _ & Hdata).
  pose proof (upload_sizes := sumZ_nonneg Upload.size fs Hsz).
  rewrite <- total_size_sumZ in upload_sizes.
  apply uploadFiles_spec in Hup
    as (created & _ & Hus & _ & _ & _ & _ & _ & Hok); try done.
  - destruct (Hok r eq_refl Hst) as (fs' & Hb' & Hsum).
    rewrite Hb in Hb'. injection Hb' as <-.
    exists (credit (total_size fs) (user req)). split_and!.
    + rewrite Hus, decide_True, Hu, Hsum by done. done.
    + done.
    + unfold reply_storageUsed. rewrite Hdata. cbn.
      rewrite Z.max_r by lia. done.
  - intros fs' Hb'. rewrite Hb in Hb'. by injection Hb' as <-.
Qed.

(** X4: When a [File.create] of the batch throws, [uploadFiles] unlinks every
    payload of the batch and passes the error on, but the records created
    before the failure stay in the collection and stay charged to the
    owner: they are fewer than the batch, and none of them has a payload
    that could still be unlinked. *)
Theorem upload_failure_leaves_records (req : Request) (now : Z)
    (s s' : Store) (e : MongooseError) (fs : list Upload.t) :
  uploaded_batch req = Some fs ->
  uploadFiles req now s = (s', Next e) ->
  exists created,
    files s' = files s ++ created
    /\ (length created < length fs)%nat
    /\ Forall (fun f => File.userId f = User._id (user req)) created
    /\ (forall k, users s' !! k =
          if decide (User._id (user req) = k)
          then credit (sumZ File.fileSize created) <$> users s !! k
          else users s !! k)
    /\ (forall f, f ∈ created -> disk s' !! File.filePath f <> Some true)
    /\ (forall file, file ∈ fs -> disk s' !! Upload.path file <> Some true).
Proof.
  intros Hb Hup. unfold uploadFiles in Hup. rewrite Hb in Hup.
  destruct (match body_folderId req with
            | Some folderId => folder_missing folderId (User._id (user req)) s
            | None => false
            end); [done|].
  destruct (hasStorageSpace (user req) (total_size fs)); cbn [negb] in Hup;
    [|done].
  destruct (create_records _ _ _ _ _ _) as [s1 [up|e']] eqn:Hrec; [done|].
  injection Hup as <- <-.
  pose proof Hrec as Hrec'.
  apply create_records_spec in Hrec
    as (created & Hf & Hus & _ & _ & _ & _ & _ & Hown & _).
  apply create_records_docs in Hrec'
    as (created' & Hf' & Hdocs & _ & Hlt & _).
  rewrite Hf in Hf'. apply app_inv_head in Hf' as <-.
  destruct (unlink_all_db fs s1) as (Hu' & Hfi' & _).
  assert (forall file, file ∈ fs ->
            disk (unlink_all fs s1) !! Upload.path file <> Some true)
    as Hgone.
  { intros file Hin. rewrite disk_unlink_all, decide_True
      by (by apply list_elem_of_fmap_2).
    by destruct (disk s1 !! Upload.path file) as [[]|]. }
  exists created. rewrite Hu', Hfi'. split_and!; try done.
  - by apply (Hlt e').
  - intros f Hin.
    apply list_elem_of_lookup in Hin as [i Hi].
    destruct (Forall2_lookup_l _ _ _ _ _ Hdocs Hi) as (file & Hfile & ->).
    destruct (new_file_fields (File._id f) (User._id (user req))
                (body_folderId req) now file) as (_ & -> & _).
    apply Hgone. apply lookup_take_Some in Hfile as [Hfile _].
    by eapply list_elem_of_lookup_2.
Qed.

Lemma uploaded_batch_nonempty req fs : uploaded_batch req = Some fs -> fs <> [].
Proof.
  unfold uploaded_batch. destruct (req_files req) as [|f l].
  - destruct (req_file req); [|done]. by intros [= <-].
  - by intros [= <-].
Qed.

Lemma folder_missing_foreign folderId owner s :
  (forall d, d ∈ folders s -> Folder._id d = folderId ->
             Folder.userId d <> owner) ->
  folder_missing folderId owner s = true.
Proof.
  intros H. unfold folder_missing. apply negb_true_iff.
  apply not_true_is_false. intros [d [Hd Hm]]%existsb_exists.
  apply andb_true_iff in Hm as [Hid Ho].
  apply Nat.eqb_eq in Hid, Ho. apply (H d); [by apply list_elem_of_In|done..].
Qed.

(** X5: An upload that names a folder the caller does not own, or no folder at
    all of that id, is answered 404 "Folder not found" before the quota is
    looked at: no record is created, no account changes, and the payloads
    multer wrote are unlinked. *)
Theorem upload_into_foreign_folder (req : Request) (now : Z) (s : Store)
    (fs : list Upload.t) (folderId : ObjectId) :
  uploaded_batch req = Some fs ->
  body_folderId req = Some folderId ->
  (forall d, d ∈ folders s -> Folder._id d = folderId ->
             Folder.userId d <> User._id (user req)) ->
  let s' := fst (uploadFiles req now s) in
  snd (uploadFiles req now s) = not_found ERROR_MESSAGES.FOLDER_NOT_FOUND
  /\ users s' = users s /\ files s' = files s
  /\ (forall file, file ∈ fs -> disk s' !! Upload.path file <> Some true).
Proof.
  intros Hb Hfo Hforeign s'. subst s'. unfold uploadFiles.
  rewrite Hb, Hfo, (folder_missing_foreign _ _ _ Hforeign). cbn [fst snd].
  destruct (unlink_all_db fs s) as (-> & -> & _). split_and!; try done.
  intros file Hin. rewrite disk_unlink_all, decide_True
    by (by apply list_elem_of_fmap_2).
  by destruct (disk s !! Upload.path file) as [[]|].
Qed.

(** X6: The quota check of the [checkStorageSpace] middleware covers the one of
    the controller: a request the middleware lets through, whose
    Content-Length is at least the total size of its files, is never
    answered with the over-quota reply by [uploadFiles]. *)
Theorem middleware_check_covers_controller (req : Request) (now : Z)
    (s : Store) (fs : list Upload.t) (contentLength : option Z) :
  uploaded_batch req = Some fs ->
  folder_ok req s ->
  checkStorageSpace contentLength req = None ->
  total_size fs <= default 0 contentLength ->
  hasStorageSpace (user req) (total_size fs) = true
  /\ snd (uploadFiles req now s) <> over_quota req (total_size fs).
Proof.
  intros Hb Hf Hmw Hle. unfold checkStorageSpace in Hmw.
  destruct (hasStorageSpace (user req) (default 0 contentLength)) eqn:Hcl;
    [|done].
  apply hasStorageSpace_spec in Hcl.
  assert (hasStorageSpace (user req) (total_size fs) = true) as Hfit
    by (apply hasStorageSpace_spec; lia).
  split; [done|]. rewrite (uploadFiles_accepted _ _ _ _ Hb Hf Hfit).
  destruct (create_records _ _ _ _ _ _) as [s1 [up|e]]; [|done].
  unfold updateStorage. cbn. discriminate.
Qed.

Lemma filter_all {A} (P : A -> Prop) `{!forall x, Decision (P x)} (l : list A) :
  Forall P l -> filter P l = l.
Proof.
  induction 1 as [|x l Hx _ IH]; [done|].
  by rewrite filter_cons, decide_True, IH.
Qed.

Lemma filter_none {A} (P : A -> Prop) `{!forall x, Decision (P x)}
    (l : list A) :
  Forall (fun x => ~ P x) l -> filter P l = [].
Proof.
  induction 1 as [|x l Hx _ IH]; [done|].
  by rewrite filter_cons, decide_False.
Qed.

(** What a successful upload by the stored account leaves, in one place. *)
Lemma uploadFiles_success req now s s' r fs :
  consistent s ->
  uploaded_batch req = Some fs ->
  users s !! User._id (user req) = Some (user req) ->
  Forall (fun file => 0 <= Upload.size file) fs ->
  uploadFiles req now s = (s', Json r) ->
  status r = HTTP_STATUS.CREATED ->
  exists created,
    files s' = files s ++ created
    /\ length created = length fs
    /\ consistent s'
    /\ (forall k, users s' !! k =
          if decide (User._id (user req) = k)
          then credit (sumZ File.fileSize created) <$> users s !! k
          else users s !! k)
    /\ File._id <$> created = seq (next_oid s) (length created)
    /\ Forall (fun f => File.userId f = User._id (user req)) created
    /\ Forall (fun f => File.expiresAt f = now + EXPIRY_DAYS * DAY_MS
                        /\ File.folderId f = body_folderId req) created
    /\ data r =
       UploadData created (length created) (total_size fs)
         (Z.max 0 (User.storageUsed (user req) + total_size fs)
          + total_size fs)
         (User.storageLimit (user req)).
Proof.
  intros Hc Hb Hu Hsz Hup Hst.
  destruct (uploadFiles_created _ _ _ _ _ _ Hb Hup Hst)
    as (s1 & up & Hrec & _ & Hs' & Hdata).
  pose proof Hrec as Hrec2.
  apply create_records_docs in Hrec
    as (created & Hf1 & Hdocs & _ & _ & Hlen).
  apply create_records_spec in Hrec2
    as (created2 & Hf2 & _ & _ & _ & _ & _ & _ & _ & _ & Hall).
  rewrite Hf1 in Hf2. apply app_inv_head in Hf2 as <-.
  destruct (Hall up eq_refl) as [Hupeq _]. cbn [app] in Hupeq. subst up.
  specialize (Hlen created eq_refl).
  assert (files s' = files s ++ created) as Hfiles.
  { rewrite Hs'. by destruct (updateStorage_db (user req) (total_size fs) s1)
      as [-> _]. }
  pose proof (consistent_bounds s _ _ Hc Hu) as [Hused _].
  apply uploadFiles_spec in Hup
    as (created' & Hf' & Hus & Hn & Hids & Hown & Hcsz & Hfit & _);
    try done.
  2: { intros fs' Hb'. rewrite Hb in Hb'. by injection Hb' as <-. }
  rewrite Hfiles in Hf'. apply app_inv_head in Hf' as <-.
  exists created. split_and!; try done.
  - eapply (consistent_created s s'); try done.
    intros u0 Hu0. rewrite Hu in Hu0. by injection Hu0 as <-.
  - rewrite Hlen in Hdocs. rewrite firstn_all in Hdocs.
    clear -Hdocs. induction Hdocs as [|f file l1 l2 Hf _ IH]; [done|].
    constructor; [|done]. rewrite Hf.
    by destruct (new_file_fields (File._id f) (User._id (user req))
                   (body_folderId req) now file) as (_ & _ & _ & -> & ->).
Qed.

(** [deleteMultipleFiles] when ids are given and some of them are the
    caller's files. *)
Lemma deleteMultipleFiles_found req s :
  let found := filter (fun d => File._id d ∈ body_fileIds req
                                /\ File.userId d = User._id (user req))
                      (files s) in
  body_fileIds req <> [] -> found <> [] ->
  exists s',
    deleteMultipleFiles req s =
    (s', Json (mkResponse HTTP_STATUS.OK true
                 (Some (pretty (length found) +:+ " file(s) deleted"))
                 (DeleteManyData (length found) (sumZ File.fileSize found)
                    (User.storageUsed (user req)
                     - sumZ File.fileSize found))))
    /\ files s' = remove_all found (files s)
    /\ (forall k, users s' !! k =
          debit (owned_bytes k found) <$> users s !! k)
    /\ folders s' = folders s /\ clips s' = clips s
    /\ next_oid s' = next_oid s.
Proof.
  intros found Hids Hfound. unfold deleteMultipleFiles.
  destruct (body_fileIds req) as [|i ids] eqn:Hb; [done|]. fold found.
  destruct found as [|d ds] eqn:Hf; [done|]. rewrite <- Hf.
  destruct (delete_docs_spec found s 0)
    as (s' & Heq & Hfi & Hu & Hfo & Hcl & Hn).
  exists s'. rewrite Heq, Z.add_0_l. done.
Qed.

(** X7: Upload then delete: after a successful upload by the stored account,
    [deleteMultipleFiles] on the ids of the new records, by their owner,
    brings the file collection and every account's ledger back to what
    they were before the upload. *)
Theorem upload_then_delete_restores (req : Request) (now : Z) (s s1 : Store)
    (r : Response) (fs : list Upload.t) :
  consistent s ->
  uploaded_batch req = Some fs ->
  users s !! User._id (user req) = Some (user req) ->
  Forall (fun file => 0 <= Upload.size file) fs ->
  uploadFiles req now s = (s1, Json r) ->
  status r = HTTP_STATUS.CREATED ->
  exists created,
    files s1 = files s ++ created /\ length created = length fs
    /\ forall u2, User._id u2 = User._id (user req) ->
       let s2 := fst (deleteMultipleFiles
                        (mkRequest u2 0 None (File._id <$> created) [] None)
                        s1) in
       files s2 = files s /\ users s2 = users s.
Proof.
  intros Hc Hb Hu Hsz Hup Hst.
  destruct (uploadFiles_success _ _ _ _ _ _ Hc Hb Hu Hsz Hup Hst)
    as (created & Hf & Hlen & Hc1 & Hus & Hids & Hown & _).
  exists created. split_and!; try done. intros u2 Hu2 s2. subst s2.
  assert (created <> []) as Hne.
  { intros ->. apply (uploaded_batch_nonempty _ _ Hb).
    by destruct fs. }
  assert (filter (fun d => File._id d ∈ File._id <$> created
                           /\ File.userId d = User._id u2) (files s1)
          = created) as Hfound.
  { rewrite Hf, filter_app, filter_none, filter_all; [done| |].
    - rewrite Forall_forall in Hown |- *. intros f Hin. split.
      + by apply list_elem_of_fmap_2.
      + rewrite Hu2. by apply Hown.
    - pose proof (cons_fresh s Hc) as Hfr.
      rewrite Forall_forall in Hfr |- *. intros f Hin [Hid _].
      specialize (Hfr f Hin). cbn beta in Hfr.
      rewrite Hids in Hid. apply elem_of_seq in Hid. lia. }
  destruct (deleteMultipleFiles_found
              (mkRequest u2 0 None (File._id <$> created) [] None) s1)
    as (s2 & Heq & Hf2 & Hu2' & _); cbn [body_fileIds user].
  { by destruct created. }
  { by rewrite Hfound. }
  cbn [body_fileIds user] in Heq, Hf2, Hu2'. rewrite Hfound in Hf2, Hu2'.
  rewrite Heq. cbn [fst]. split.
  - rewrite Hf2, remove_all_unique by apply (cons_unique s1 Hc1).
    rewrite Hf, filter_app, filter_all, filter_none, app_nil_r; [done| |].
    + rewrite Forall_forall. intros f Hin Hn. apply Hn.
      by apply list_elem_of_fmap_2.
    + pose proof (cons_fresh s Hc) as Hfr.
      rewrite Forall_forall in Hfr |- *. intros f Hin Hid.
      specialize (Hfr f Hin). cbn beta in Hfr.
      rewrite Hids in Hid. apply elem_of_seq in Hid. lia.
  - apply map_eq. intros k. rewrite Hu2', Hus.
    destruct (decide (User._id (user req) = k)) as [<-|Hk].
    + rewrite (owned_bytes_all _ created) by done.
      destruct (users s !! User._id (user req)); cbn; [|done].
      unfold debit. rewrite credit_credit, Z.add_opp_diag_r. by rewrite credit_0.
    + rewrite (owned_bytes_none k created).
      * destruct (users s !! k); cbn; [|done]. unfold debit.
        by rewrite credit_0.
      * eapply Forall_impl; [exact Hown|]. cbn. congruence.
Qed.


(** ** More on deletes *)

(** X9: [deleteMultipleFiles] with a list of ids removes, of the listed files,
    exactly those of the caller, whoever owns the others; it debits the
    caller by the bytes it reports as freed and changes no other account.
    With [req.user] the stored account, the [storageUsed] it reports is the
    stored one.  When none of the listed ids is a file of the caller it
    answers 404 and changes nothing. *)
Theorem deleteMultipleFiles_only_own (req : Request) (s : Store) :
  unique_ids s ->
  body_fileIds req <> [] ->
  let uid := User._id (user req) in
  let mine := filter (fun d => File._id d ∈ body_fileIds req
                               /\ File.userId d = uid) (files s) in
  let s' := fst (deleteMultipleFiles req s) in
  (mine = [] ->
   deleteMultipleFiles req s =
   (s, Json (mkResponse HTTP_STATUS.NOT_FOUND false
               (Some "No files found"%string) NoData)))
  /\ (mine <> [] ->
      (forall f, f ∈ files s' <->
                 f ∈ files s /\ ~ (File._id f ∈ body_fileIds req
                                   /\ File.userId f = uid))
      /\ (exists r, snd (deleteMultipleFiles req s) = Json r
            /\ status r = HTTP_STATUS.OK
            /\ data r = DeleteManyData (length mine)
                          (sumZ File.fileSize mine)
                          (User.storageUsed (user req)
                           - sumZ File.fileSize mine))
      /\ users s' !! uid = debit (sumZ File.fileSize mine) <$> users s !! uid
      /\ (forall k, k <> uid -> users s' !! k = users s !! k)
      /\ (users s !! uid = Some (user req) ->
          exists u', users s' !! uid = Some u'
            /\ reply_storageUsed (snd (deleteMultipleFiles req s))
               = Some (User.storageUsed u'))).
Proof.
  intros Hun Hids uid mine s'. subst s'. split.
  - intros Hnone. unfold deleteMultipleFiles.
    destruct (body_fileIds req) as [|i ids] eqn:Hb; [done|].
    fold uid. fold mine. by rewrite Hnone.
  - intros Hsome.
    destruct (deleteMultipleFiles_found req s Hids Hsome)
      as (s' & Heq & Hf & Hu & _).
    fold uid in Heq, Hf, Hu. fold mine in Heq, Hf, Hu.
    rewrite Heq. cbn [fst snd].
    assert (Forall (fun f => File.userId f = uid) mine) as Hown.
    { apply Forall_forall. by intros f [[_ ?] _]%list_elem_of_filter. }
    assert (users s' !! uid
            = debit (sumZ File.fileSize mine) <$> users s !! uid) as Huid.
    { by rewrite Hu, (owned_bytes_all uid mine). }
    split_and!.
    + intros f. rewrite Hf. unfold mine.
      rewrite remove_all_filter by done. rewrite list_elem_of_filter. tauto.
    + eexists. split; [reflexivity|]. done.
    + done.
    + intros k Hk. rewrite Hu, (owned_bytes_none k mine).
      * destruct (users s !! k); cbn; [|done]. unfold debit.
        by rewrite credit_0.
      * eapply Forall_impl; [exact Hown|]. cbn. congruence.
    + intros Hfresh. rewrite Huid, Hfresh. eexists. split; [reflexivity|].
      cbn. f_equal.
Qed.

Lemma deleteClip_missing req s :
  find_first (clip_owned_by (params_id req) (User._id (user req))) (clips s)
  = None ->
  deleteClip req s = (s, not_found ERROR_MESSAGES.CLIP_NOT_FOUND).
Proof. unfold deleteClip. by intros ->. Qed.

(** X10: Deletes enforce ownership as reads do: [deleteFile] and [deleteClip]
    on an entry of another account answer the same 404 as for an id that
    does not exist, and leave the whole store as it was. *)
Theorem delete_of_foreign_entry_is_not_found (req : Request) (s : Store) :
  (file_foreign (params_id req) (User._id (user req)) s
   \/ file_absent (params_id req) s ->
   deleteFile req s = (s, not_found ERROR_MESSAGES.FILE_NOT_FOUND))
  /\ (clip_foreign (params_id req) (User._id (user req)) s
      \/ clip_absent (params_id req) s ->
      deleteClip req s = (s, not_found ERROR_MESSAGES.CLIP_NOT_FOUND)).
Proof.
  split.
  - intros H. apply deleteFile_missing. apply find_first_None.
    intros f Hin. apply not_true_is_false. rewrite owned_by_true.
    intros [Hid Hown]. destruct H as [[_ H]|H]; by apply (H f).
  - intros H. apply deleteClip_missing. apply find_first_None.
    intros c Hin. apply not_true_is_false. unfold clip_owned_by, clip_has_id.
    rewrite andb_true_iff, !Nat.eqb_eq.
    intros [Hid Hown]. destruct H as [[_ H]|H]; by apply (H c).
Qed.

(** ** More on the sweeper *)

Lemma owned_bytes_filter_split k (P : File.t -> Prop)
    `{!forall x, Decision (P x)} l :
  owned_bytes k l
  = owned_bytes k (filter P l) + owned_bytes k (filter (fun x => ~ P x) l).
Proof.
  induction l as [|x l IH]; [done|].
  rewrite !filter_cons, owned_bytes_cons, IH.
  destruct (decide (P x)) as [HP|HP], (decide (~ P x)) as [HN|HN];
    try contradiction; rewrite ?owned_bytes_cons; lia.
Qed.

Lemma sumZ_filter_split {A} (g : A -> Z) (P : A -> Prop)
    `{!forall x, Decision (P x)} l :
  sumZ g l = sumZ g (filter P l) + sumZ g (filter (fun x => ~ P x) l).
Proof.
  induction l as [|x l IH]; [done|].
  rewrite !filter_cons. cbn [sumZ]. rewrite IH.
  destruct (decide (P x)) as [HP|HP], (decide (~ P x)) as [HN|HN];
    try contradiction; cbn [sumZ]; lia.
Qed.

Lemma length_filter_split {A} (P : A -> Prop)
    `{!forall x, Decision (P x)} (l : list A) :
  length l = (length (filter P l) + length (filter (fun x => ~ P x) l))%nat.
Proof.
  rewrite <- length_app. apply Permutation_length. symmetry.
  apply filter_app_complement.
Qed.

(** The sweep preserves what it needs of the store. *)
Lemma cleanupExpiredFiles_wf now s :
  unique_ids s -> keyed s ->
  unique_ids (fst (cleanupExpiredFiles now s))
  /\ keyed (fst (cleanupExpiredFiles now s)).
Proof.
  intros Hun Hk.
  destruct (cleanupExpiredFiles_spec now s Hk) as (s' & Heq & Hf & Hu & _).
  rewrite Heq. cbn [fst]. split.
  - unfold unique_ids. rewrite Hf.
    eapply sublist_unique; [apply remove_all_sublist|done].
  - intros k u. rewrite Hu.
    destruct (users s !! k) as [u0|] eqn:Hu0; [|done]. intros [= <-].
    cbn. by apply Hk.
Qed.

(** X11: Sweeps compose and repeat safely: sweeping at [t1] and then at a later
    [t2] leaves the records and the ledger that one sweep at [t2] leaves,
    and the two reports add up to the one report.  In particular a second
    sweep at the same time finds nothing to do. *)
Theorem sweeps_compose (t1 t2 : Z) (s : Store) :
  unique_ids s -> keyed s -> t1 <= t2 ->
  let '(s1, r1) := cleanupExpiredFiles t1 s in
  let '(s2, r2) := cleanupExpiredFiles t2 s1 in
  let '(s', r') := cleanupExpiredFiles t2 s in
  files s2 = files s' /\ users s2 = users s'
  /\ (deletedCount r1 + deletedCount r2)%nat = deletedCount r'
  /\ freedSpace r1 + freedSpace r2 = freedSpace r'
  /\ (t1 = t2 -> deletedCount r2 = 0%nat /\ freedSpace r2 = 0
                 /\ files s2 = files s1 /\ users s2 = users s1).
Proof.
  intros Hun Hk Hle.
  destruct (cleanupExpiredFiles_wf t1 s Hun Hk) as [Hun1 Hk1].
  destruct (cleanupExpiredFiles_spec t1 s Hk) as (s1 & Heq1 & Hf1 & Hu1 & _).
  rewrite Heq1 in Hun1, Hk1 |- *. cbn [fst] in Hun1, Hk1.
  destruct (cleanupExpiredFiles_spec t2 s1 Hk1) as (s2 & Heq2 & Hf2 & Hu2 & _).
  destruct (cleanupExpiredFiles_spec t2 s Hk) as (s' & Heq' & Hf' & Hu' & _).
  rewrite Heq2, Heq'. cbn [deletedCount freedSpace].
  unfold getExpiredFiles in *.
  rewrite remove_all_filter in Hf1, Hf2, Hf' by done.
  set (P1 := fun f : File.t => File.expiresAt f < t1) in *.
  set (P2 := fun f : File.t => File.expiresAt f < t2) in *.
  assert (filter P2 (files s1)
          = filter (fun f => ~ P1 f) (filter P2 (files s))) as Hmid.
  { rewrite Hf1, !list_filter_filter. apply filter_ext_in. intros; tauto. }
  assert (filter P1 (files s) = filter P1 (filter P2 (files s))) as Hfirst.
  { rewrite list_filter_filter. apply filter_ext_in. intros f _.
    unfold P1, P2. split; [intros; lia|tauto]. }
  assert (files s2 = files s') as Hfiles.
  { rewrite Hf2, Hf', Hf1, list_filter_filter. apply filter_ext_in.
    intros f _. unfold P1, P2. split; [tauto|]. intros; split; [done|lia]. }
  split_and!.
  - exact Hfiles.
  - apply map_eq. intros k. rewrite Hu2, Hu1, Hu', Hmid, Hfirst.
    rewrite (owned_bytes_filter_split k P1 (filter P2 (files s))).
    destruct (users s !! k); cbn; [|done]. unfold debit.
    rewrite credit_credit. do 2 f_equal. lia.
  - rewrite Hmid, Hfirst.
    by rewrite (length_filter_split P1 (filter P2 (files s))).
  - rewrite Hmid, Hfirst.
    by rewrite (sumZ_filter_split File.fileSize P1 (filter P2 (files s))).
  - intros <-.
    assert (filter P2 (files s1) = []) as Hnil.
    { rewrite Hf1. apply filter_none. apply Forall_forall.
      intros f [Hn _]%list_elem_of_filter. done. }
    rewrite Hnil. cbn [length sumZ]. split_and!; try done.
    + rewrite Hf2. apply filter_all. rewrite Hf1. apply Forall_forall.
      intros f [Hn _]%list_elem_of_filter. done.
    + apply map_eq. intros k. rewrite Hu2, Hnil.
      change (owned_bytes k []) with 0.
      destruct (users s1 !! k); cbn; [|done]. unfold debit.
      by rewrite credit_0.
Qed.

(** ** The sweeper and the upload directory *)

Lemma disk_apply_updates (m : list (ObjectId * Z)) s :
  disk (foldl (fun s '(userId, spaceFreed) =>
                 inc_storageUsed userId (- spaceFreed) s) s m) = disk s.
Proof.
  revert s. induction m as [|[k v] m IH]; intros s; cbn [foldl]; [done|].
  by rewrite IH.
Qed.

Lemma sweep_loop_disk (us : gmap nat User.t) E s m n fr p :
  disk (fst (fst (fst (foldl sweep_one (s, m, n, fr)
                         ((fun f => (f, us !! File.userId f)) <$> E))))) !! p
  = if decide (p ∈ File.filePath <$> E)
    then match disk s !! p with Some true => None | o => o end
    else disk s !! p.
Proof.
  revert s m n fr. induction E as [|f E IH]; intros s m n fr.
  - rewrite !fmap_nil. cbn [foldl fst]. destruct (decide _) as [Hin|]; [|done].
    by apply elem_of_nil in Hin.
  - rewrite !fmap_cons. cbn [foldl].
    set (m1 := match us !! File.userId f with
               | Some u =>
                 Map_set (User._id u)
                   (default 0 (Map_get (User._id u) m) + File.fileSize f) m
               | None => m
               end).
    set (s1 := File_deleteOne (File._id f) (unlink_quiet (File.filePath f) s)).
    assert (sweep_one (s, m, n, fr) (f, us !! File.userId f)
            = (s1, m1, S n, fr + File.fileSize f)) as -> by reflexivity.
    rewrite IH.
    change (disk s1) with (disk (unlink_quiet (File.filePath f) s)).
    rewrite disk_unlink_quiet.
    destruct (decide (File.filePath f = p)) as [->|Hne].
    + rewrite (decide_True (P := _ ∈ _ :: _)) by left.
      destruct (decide _); by destruct (disk s !! p) as [[]|].
    + destruct (decide (p ∈ File.filePath <$> E)) as [Hin|Hnin].
      * by rewrite (decide_True (P := _ ∈ _ :: _)) by (by right).
      * rewrite (decide_False (P := _ ∈ _ :: _)); [done|].
        rewrite not_elem_of_cons. done.
Qed.

Lemma disk_cleanupExpiredFiles now s p :
  disk (fst (cleanupExpiredFiles now s)) !! p
  = if decide (p ∈ File.filePath <$> getExpiredFiles now s)
    then match disk s !! p with Some true => None | o => o end
    else disk s !! p.
Proof.
  rewrite <- (sweep_loop_disk (users s) (getExpiredFiles now s) s [] 0%nat 0).
  unfold cleanupExpiredFiles. fold (getExpiredFiles now s).
  destruct (foldl sweep_one _ _) as [[[s1 m] n] fr]. cbn [fst].
  by rewrite disk_apply_updates.
Qed.

(** X12: What a sweep does to the upload directory: it unlinks the payloads of
    the expired files and touches no other path.  A payload that cannot be
    unlinked stays on disk, while its record is removed and counted all the
    same: from then on nothing in the database names it. *)
Theorem sweep_payloads (now : Date) (s : Store) :
  unique_ids s -> keyed s ->
  let E := getExpiredFiles now s in
  let s' := fst (cleanupExpiredFiles now s) in
  (forall p, p ∉ File.filePath <$> E -> disk s' !! p = disk s !! p)
  /\ (forall f, f ∈ E -> disk s !! File.filePath f = Some true ->
                disk s' !! File.filePath f = None)
  /\ (forall f, f ∈ E -> disk s !! File.filePath f = Some false ->
                disk s' !! File.filePath f = Some false
                /\ (f ∉ files s')
                /\ deletedCount (snd (cleanupExpiredFiles now s)) = length E
                /\ errors (snd (cleanupExpiredFiles now s)) = None).
Proof.
  intros Hun Hk E s'. subst s'. split_and!.
  - intros p Hp. rewrite disk_cleanupExpiredFiles. fold E.
    by rewrite decide_False.
  - intros f Hf Hd. rewrite disk_cleanupExpiredFiles. fold E.
    rewrite decide_True by (by apply list_elem_of_fmap_2). by rewrite Hd.
  - intros f Hf Hd. rewrite disk_cleanupExpiredFiles. fold E.
    rewrite decide_True by (by apply list_elem_of_fmap_2). rewrite Hd.
    destruct (cleanupExpiredFiles_spec now s Hk) as (s' & Heq & Hfi & _).
    fold E in Heq, Hfi. rewrite Heq. cbn [fst snd deletedCount errors].
    split_and!; try done.
    rewrite Hfi. unfold E, getExpiredFiles.
    rewrite remove_all_filter by done.
    intros [Hn _]%list_elem_of_filter. apply Hn.
    by apply list_elem_of_filter in Hf as [? _].
Qed.

(** ** Extending an entry *)

Lemma update_first_ids id e (l : list File.t) :
  File._id <$> update_first (has_id id) (File.set_expiresAt e) l
  = File._id <$> l.
Proof.
  induction l as [|x l IH]; [done|]. cbn [update_first].
  destruct (has_id id x); rewrite !fmap_cons; [done|]. by rewrite IH.
Qed.

Lemma update_first_elem e (l : list File.t) f :
  NoDup (File._id <$> l) -> f ∈ l ->
  forall g, g ∈ update_first (has_id (File._id f)) (File.set_expiresAt e) l
            <-> g = File.set_expiresAt e f
                \/ (g ∈ l /\ File._id g <> File._id f).
Proof.
  induction l as [|x l IH]; [by intros _ ?%elem_of_nil|].
  rewrite fmap_cons, NoDup_cons. intros [Hx Hl] Hin g. cbn [update_first].
  destruct (has_id (File._id f) x) eqn:Hid.
  - apply has_id_true in Hid.
    assert (x = f) as ->.
    { apply elem_of_cons in Hin as [->|Hin]; [done|].
      exfalso. apply Hx. rewrite Hid. by apply list_elem_of_fmap_2. }
    rewrite !elem_of_cons. split.
    + intros [->|Hg]; [by left|]. right. split; [by right|].
      intros Heq. apply Hx. rewrite <- Heq. by apply list_elem_of_fmap_2.
    + intros [->|[[->|Hg] Hne]]; [by left|done|by right].
  - apply has_id_false in Hid.
    apply elem_of_cons in Hin as [->|Hin]; [done|].
    rewrite !elem_of_cons, (IH Hl Hin g). split.
    + intros [->|[->|[Hg Hne]]]; [right|by left|right]; split; auto.
    + intros [->|[[->|Hg] Hne]]; [right; by left|by left|right; right; done].
Qed.

(** X13: [extendExpiry] composed with the sweeper: extending a stored file
    changes that file's expiry and nothing else (no account is charged for
    the save), and the extended file survives every sweep up to and
    including the new expiry, whatever its old expiry was; a sweep after
    it removes the file. *)
Theorem extended_file_outlives_sweeps (days : option Z) (now t : Date)
    (f : File.t) (s : Store) :
  unique_ids s -> keyed s -> f ∈ files s ->
  let expiry := now + default EXPIRY_DAYS days * DAY_MS in
  let f' := fst (extendExpiry days now f s) in
  let s1 := snd (extendExpiry days now f s) in
  f' = File.set_expiresAt expiry f
  /\ users s1 = users s
  /\ (forall g, g ∈ files s1 <->
                g = f' \/ (g ∈ files s /\ File._id g <> File._id f))
  /\ (t <= expiry -> f' ∈ files (fst (cleanupExpiredFiles t s1)))
  /\ (expiry < t -> f' ∉ files (fst (cleanupExpiredFiles t s1))).
Proof.
  intros Hun Hk Hin expiry f' s1.
  assert (f' = File.set_expiresAt expiry f) as Hf'.
  { subst f' expiry. unfold extendExpiry, DAY_MS. cbn [fst]. f_equal. lia. }
  assert (files s1
          = update_first (has_id (File._id f)) (File.set_expiresAt expiry)
              (files s)) as Hfiles.
  { subst s1 expiry. unfold extendExpiry, post_save, DAY_MS.
    cbn [snd files set_files File.expiresAt File.set_expiresAt].
    do 2 f_equal. lia. }
  assert (users s1 = users s) as Husers by reflexivity.
  assert (forall g, g ∈ files s1 <->
                    g = f' \/ (g ∈ files s /\ File._id g <> File._id f))
    as Hmem.
  { intros g. rewrite Hfiles, Hf'. by apply update_first_elem. }
  assert (unique_ids s1) as Hun1.
  { unfold unique_ids. rewrite Hfiles, update_first_ids. exact Hun. }
  assert (keyed s1) as Hk1 by (unfold keyed; by rewrite Husers).
  destruct (cleanupExpiredFiles_spec t s1 Hk1) as (s2 & Heq & Hf2 & _).
  rewrite Heq. cbn [fst]. unfold getExpiredFiles in Hf2.
  rewrite remove_all_filter in Hf2 by done. rewrite Hf2.
  assert (File.expiresAt f' = expiry) as Hexp by (by rewrite Hf').
  split_and!; try done.
  - intros Ht. apply list_elem_of_filter. split; [lia|].
    apply Hmem. by left.
  - intros Ht [Hn _]%list_elem_of_filter. lia.
Qed.

(** ** Bulk deletes, repeated *)

Lemma pretty_nat_0 : pretty 0%nat = "0"%string.
Proof. reflexivity. Qed.

Lemma deleteMultipleClips_spec req clipIds s :
  clipIds <> [] ->
  deleteMultipleClips req clipIds s =
  (set_clips
     (filter (fun c => ~ (Clipboard._id c ∈ clipIds
                          /\ Clipboard.userId c = User._id (user req)))
             (clips s)) s,
   mkReply HTTP_STATUS.OK true
     (Some (pretty (length
                      (filter (fun c => Clipboard._id c ∈ clipIds
                                 /\ Clipboard.userId c = User._id (user req))
                              (clips s)))
            +:+ " clip(s) deleted"))
     (Some (length
              (filter (fun c => Clipboard._id c ∈ clipIds
                         /\ Clipboard.userId c = User._id (user req))
                      (clips s))))).
Proof. intros Hne. by destruct clipIds. Qed.

(** X14: The two bulk deletes answer a repeated request differently.  After
    [deleteMultipleFiles] the same request finds none of the caller's
    files and is answered 404; after [deleteMultipleClips] the same request
    is answered 200 with a count of 0.  Neither changes the store again. *)
Theorem bulk_delete_twice (req : Request) (clipIds : list ObjectId)
    (s : Store) :
  unique_ids s -> body_fileIds req <> [] -> clipIds <> [] ->
  let s1 := fst (deleteMultipleFiles req s) in
  let s2 := fst (deleteMultipleClips req clipIds s) in
  deleteMultipleFiles req s1 =
    (s1, Json (mkResponse HTTP_STATUS.NOT_FOUND false
                 (Some "No files found"%string) NoData))
  /\ deleteMultipleClips req clipIds s2 =
     (s2, mkReply HTTP_STATUS.OK true (Some "0 clip(s) deleted"%string)
            (Some 0%nat)).
Proof.
  intros Hun Hids Hcl s1 s2. split.
  - set (mine := filter (fun d => File._id d ∈ body_fileIds req
                          /\ File.userId d = User._id (user req)) (files s)).
    assert (filter (fun d => File._id d ∈ body_fileIds req
                      /\ File.userId d = User._id (user req)) (files s1) = [])
      as Hnone.
    { destruct (decide (mine = [])) as [Hm|Hm].
      - subst s1. unfold deleteMultipleFiles.
        destruct (body_fileIds req) as [|i ids] eqn:Hb; [done|].
        fold mine. by rewrite Hm.
      - destruct (deleteMultipleFiles_found req s Hids Hm)
          as (s' & Heq & Hf & _).
        subst s1. rewrite Heq. cbn [fst]. rewrite Hf.
        fold mine. unfold mine. rewrite remove_all_filter by done.
        apply filter_none. apply Forall_forall.
        intros g [Hn _]%list_elem_of_filter. done. }
    unfold deleteMultipleFiles at 1.
    destruct (body_fileIds req) as [|i ids] eqn:Hb; [done|].
    by rewrite Hnone.
  - subst s2. rewrite !deleteMultipleClips_spec by done.
    cbn [fst clips set_clips].
    rewrite (filter_none
               (fun c => Clipboard._id c ∈ clipIds
                         /\ Clipboard.userId c = User._id (user req))
               (filter _ (clips s))).
    + cbn [length]. rewrite pretty_nat_0. f_equal. destruct s.
      unfold set_clips. cbn. f_equal. apply filter_all. apply Forall_forall.
      intros c [Hn _]%list_elem_of_filter. done.
    + apply Forall_forall. intros c [Hn _]%list_elem_of_filter. done.
Qed.

(** ** Time left *)

Lemma get_append_r (s1 s2 : string) (o : option Ascii.ascii) :
  (exists n, String.get n s2 = o) ->
  exists n, String.get n (s1 +:+ s2) = o.
Proof.
  intros [n Hn]. exists (n + String.length s1)%nat.
  by rewrite <- String.append_correct2.
Qed.

Lemma time_left_text_Expired t :
  time_left_text t = "Expired"%string <-> t = Expired.
Proof.
  split; [|by intros ->].
  assert (forall n, String.get n "Expired" <> String.get 0 "h") as Hno.
  { intros n. do 8 (destruct n as [|n]; [done|]). done. }
  assert (exists n, String.get n "h" = String.get 0 "h") as Hh
    by (by exists 0%nat).
  destruct t as [|d h|h]; [done| |]; cbn [time_left_text]; intros Heq;
    exfalso.
  - destruct (get_append_r (pretty d)
                ("d " +:+ pretty h +:+ "h") (String.get 0 "h")) as [n Hn].
    { apply (get_append_r "d "). by apply get_append_r. }
    rewrite Heq in Hn. by apply (Hno n).
  - destruct (get_append_r (pretty h) "h" _ Hh) as [n Hn].
    rewrite Heq in Hn. by apply (Hno n).
Qed.

Lemma time_left_Expired now e : time_left now e = Expired <-> e <= now.
Proof.
  unfold time_left. destruct (e - now <=? 0) eqn:Hd.
  - apply Z.leb_le in Hd. split; [lia|done].
  - apply Z.leb_gt in Hd. split; [|lia]. by destruct (0 <? _).
Qed.

Lemma time_left_bounds now e :
  match time_left now e with
  | Expired => e <= now
  | DaysHours d h =>
    1 <= d /\ 0 <= h < 24
    /\ d * DAY_MS + h * 3600000 <= e - now
    /\ e - now < d * DAY_MS + (h + 1) * 3600000
  | HoursOnly h =>
    0 <= h < 24 /\ h * 3600000 <= e - now /\ e - now < (h + 1) * 3600000
  end.
Proof.
  unfold time_left, DAY_MS. destruct (e - now <=? 0) eqn:Hd.
  - apply Z.leb_le in Hd. lia.
  - apply Z.leb_gt in Hd.
    change (1000 * 60 * 60 * 24) with 86400000.
    change (1000 * 60 * 60) with 3600000.
    change (24 * 60 * 60 * 1000) with 86400000.
    destruct (0 <? (e - now) / 86400000) eqn:Hdays.
    + apply Z.ltb_lt in Hdays.
      Z.to_euclidean_division_equations. lia.
    + apply Z.ltb_ge in Hdays.
      Z.to_euclidean_division_equations. lia.
Qed.

(** X15: The [expiresIn] label of a file and of a clip reads 'Expired' exactly
    when the expiry is not after the time of reading.  Otherwise it gives
    the whole days and whole hours left, both rounded down: hours are
    below 24, days are shown only from one day on, and with less than an
    hour left the label is '0h'. *)
Theorem expiresIn_label (now : Date) (f : File.t) (c : Clipboard.t) :
  (expiresIn now f = "Expired"%string <-> File.expiresAt f <= now)
  /\ (Clipboard_expiresIn now c = "Expired"%string
      <-> Clipboard.expiresAt c <= now)
  /\ (0 < File.expiresAt f - now < 3600000 ->
      expiresIn now f = "0h"%string)
  /\ (forall e,
        match time_left now e with
        | Expired => e <= now
        | DaysHours d h =>
          1 <= d /\ 0 <= h < 24
          /\ d * DAY_MS + h * 3600000 <= e - now
          /\ e - now < d * DAY_MS + (h + 1) * 3600000
        | HoursOnly h =>
          0 <= h < 24 /\ h * 3600000 <= e - now
          /\ e - now < (h + 1) * 3600000
        end).
Proof.
  split_and!.
  - unfold expiresIn. by rewrite time_left_text_Expired, time_left_Expired.
  - unfold Clipboard_expiresIn.
    by rewrite time_left_text_Expired, time_left_Expired.
  - intros Hlt. unfold expiresIn.
    pose proof (time_left_bounds now (File.expiresAt f)) as Hb.
    destruct (time_left now (File.expiresAt f)) as [|d h|h].
    + lia.
    + unfold DAY_MS in Hb. lia.
    + assert (h = 0) as -> by lia. reflexivity.
  - apply time_left_bounds.
Qed.

(** X16: The label and the sweeper disagree at one instant: the sweeper takes
    the files that expired strictly before the sweep, the label says
    'Expired' from the expiry itself on.  So every file the sweep takes
    reads 'Expired', and a file that reads 'Expired' is taken unless it
    expires at the very time of the sweep, in which case it stays. *)
Theorem expired_label_and_sweep (now : Date) (f : File.t) (s : Store) :
  unique_ids s -> keyed s -> f ∈ files s ->
  (f ∈ getExpiredFiles now s -> expiresIn now f = "Expired"%string)
  /\ (expiresIn now f = "Expired"%string ->
      f ∈ getExpiredFiles now s \/ File.expiresAt f = now)
  /\ (File.expiresAt f = now ->
      expiresIn now f = "Expired"%string
      /\ f ∈ files (fst (cleanupExpiredFiles now s))).
Proof.
  intros Hun Hk Hin.
  assert (expiresIn now f = "Expired"%string <-> File.expiresAt f <= now)
    as Hlabel.
  { unfold expiresIn. by rewrite time_left_text_Expired, time_left_Expired. }
  unfold getExpiredFiles. rewrite list_elem_of_filter, Hlabel.
  split_and!.
  - intros [Hlt _]. lia.
  - intros Hle. destruct (decide (File.expiresAt f = now)); [by right|].
    left. split; [lia|done].
  - intros Heq. split; [lia|].
    destruct (cleanupExpiredFiles_spec now s Hk) as (s' & Hs' & Hf & _).
    rewrite Hs'. cbn [fst]. rewrite Hf. unfold getExpiredFiles.
    rewrite remove_all_filter by done. apply list_elem_of_filter.
    split; [lia|done].
Qed.

(** ** Previews *)

Lemma length_append (s1 s2 : string) :
  String.length (s1 +:+ s2) = (String.length s1 + String.length s2)%nat.
Proof. induction s1 as [|a s1 IH]; simpl; [done|]. by f_equal. Qed.

Lemma length_substring_0 (m : nat) (s : string) :
  String.length (String.substring 0 m s) = Nat.min m (String.length s).
Proof.
  revert s. induction m as [|m IH]; intros [|a s]; simpl; try done.
  by f_equal.
Qed.

Lemma substring_0_prefix (m : nat) (s : string) :
  String.prefix (String.substring 0 m s) s = true.
Proof.
  revert s. induction m as [|m IH]; intros [|a s]; cbn; try done.
  rewrite IH. by destruct (Ascii.ascii_dec a a).
Qed.

(** X17: The [preview] of a clip is never longer than 103 characters.  It is
    the content itself when that has at most 100 characters; otherwise it
    is the first 100 characters of the content followed by three dots. *)
Theorem preview_is_short (c : Clipboard.t) :
  (String.length (preview c) <= 103)%nat
  /\ ((String.length (Clipboard.content c) <= 100)%nat ->
      preview c = Clipboard.content c)
  /\ ((100 < String.length (Clipboard.content c))%nat ->
      String.length (preview c) = 103%nat
      /\ exists head,
           preview c = head +:+ "..."
           /\ String.length head = 100%nat
           /\ String.prefix head (Clipboard.content c) = true).
Proof.
  unfold preview.
  destruct (String.length (Clipboard.content c) <=? 100)%nat eqn:Hlen.
  - apply Nat.leb_le in Hlen. split_and!; [lia|done|lia].
  - apply Nat.leb_gt in Hlen.
    assert (String.length (String.substring 0 100 (Clipboard.content c))
            = 100%nat) as Hsub.
    { rewrite length_substring_0. lia. }
    split_and!.
    + rewrite length_append, Hsub. cbn. lia.
    + lia.
    + intros _. split.
      * rewrite length_append, Hsub. reflexivity.
      * eexists. split; [reflexivity|]. split; [done|].
        apply substring_0_prefix.
Qed.

(** ** Clips and the sweeper *)

Lemma update_first_found {A} (p : A -> bool) (g : A -> A) l x :
  find_first p l = Some x -> g x ∈ update_first p g l.
Proof.
  induction l as [|y l IH]; simpl; [done|].
  destruct (p y) eqn:Hy.
  - intros [= ->]. by left.
  - intros H. right. by apply IH.
Qed.

(** X18: [cleanupExpiredClipboards] removes exactly the clips that expired
    strictly before the sweep and reports how many they were; it leaves
    accounts, files and the upload directory alone, and a second sweep at
    the same time removes nothing. *)
Theorem clip_sweep (now : Date) (s : Store) :
  let s' := fst (cleanupExpiredClipboards now s) in
  let n := snd (cleanupExpiredClipboards now s) in
  users s' = users s /\ files s' = files s /\ folders s' = folders s
  /\ disk s' = disk s
  /\ (forall c, c ∈ clips s' <->
                c ∈ clips s /\ now <= Clipboard.expiresAt c)
  /\ length (clips s) = (length (clips s') + n)%nat
  /\ cleanupExpiredClipboards now s' = (s', 0%nat).
Proof.
  intros s' n. subst s' n. unfold cleanupExpiredClipboards.
  cbn [fst snd users files folders disk clips set_clips].
  split_and!; try done.
  - intros c. rewrite list_elem_of_filter. split; intros [? ?]; split;
      try done; lia.
  - rewrite (length_filter_split
               (fun c => Clipboard.expiresAt c < now) (clips s)). lia.
  - f_equal.
    + destruct s. unfold set_clips. cbn. f_equal.
      apply filter_all. apply Forall_forall.
      intros c [Hn _]%list_elem_of_filter. done.
    + rewrite (filter_none (fun c => Clipboard.expiresAt c < now)); [done|].
      apply Forall_forall. intros c [Hn _]%list_elem_of_filter. done.
Qed.

(** X19: A clip whose expiry was extended survives every clip sweep up to and
    including the new expiry, and is removed by any later one. *)
Theorem extended_clip_outlives_sweeps (days : option Z) (now t : Date)
    (c : Clipboard.t) (s : Store) :
  find_first (clip_has_id (Clipboard._id c)) (clips s) = Some c ->
  let expiry := now + default EXPIRY_DAYS days * DAY_MS in
  let c' := fst (Clipboard_extendExpiry days now c s) in
  let s1 := snd (Clipboard_extendExpiry days now c s) in
  Clipboard.expiresAt c' = expiry
  /\ c' ∈ clips s1
  /\ (t <= expiry -> c' ∈ clips (fst (cleanupExpiredClipboards t s1)))
  /\ (expiry < t -> c' ∉ clips (fst (cleanupExpiredClipboards t s1))).
Proof.
  intros Hfound expiry c' s1.
  assert (Clipboard.expiresAt c' = expiry) as Hexp.
  { subst c' expiry. unfold Clipboard_extendExpiry, DAY_MS. cbn. lia. }
  assert (c' ∈ clips s1) as Hin.
  { subst c' s1. unfold Clipboard_extendExpiry.
    cbn [fst snd clips set_clips].
    by apply (update_first_found _
                (Clipboard.set_expiresAt
                   (now + default EXPIRY_DAYS days * 24 * 60 * 60 * 1000))). }
  unfold cleanupExpiredClipboards. cbn [fst clips set_clips].
  split_and!; try done.
  - intros Ht. apply list_elem_of_filter. split; [lia|done].
  - intros Ht [Hn _]%list_elem_of_filter. lia.
Qed.

(** ** Storage limits *)

(** X20: [updateStorageLimit] answers 200 exactly for a positive limit and an
    existing account; otherwise it changes nothing.  On success it sets
    that account's limit and touches neither its usage, nor any other
    account, nor the files.  The new limit is not compared with the usage:
    a limit below it is accepted, after which the account has no room for
    any upload and its remaining storage is negative. *)
Theorem storage_limit_update (id : ObjectId) (storageLimit : option Z)
    (s : Store) :
  let s' := fst (updateStorageLimit id storageLimit s) in
  let r := snd (updateStorageLimit id storageLimit s) in
  (reply_status r = HTTP_STATUS.OK <->
   exists limit u, storageLimit = Some limit /\ 0 < limit
                   /\ users s !! id = Some u)
  /\ (reply_status r <> HTTP_STATUS.OK -> s' = s)
  /\ files s' = files s
  /\ (forall k, k <> id -> users s' !! k = users s !! k)
  /\ (forall limit u,
        storageLimit = Some limit -> 0 < limit -> users s !! id = Some u ->
        users s' !! id = Some (set_storageLimit limit u)
        /\ reply_data r = Some (User._id u, limit, User.storageUsed u)
        /\ (limit < User.storageUsed u ->
            storageRemaining (set_storageLimit limit u) < 0
            /\ forall bytes, 0 <= bytes ->
                 hasStorageSpace (set_storageLimit limit u) bytes = false)).
Proof.
  intros s' r. subst s' r. unfold updateStorageLimit.
  destruct storageLimit as [limit|].
  - destruct ((limit =? 0) || (limit <? 0)) eqn:Hbad.
    + apply orb_true_iff in Hbad as Hbad'.
      rewrite Z.eqb_eq, Z.ltb_lt in Hbad'.
      cbn [fst snd reply_status reply_data]. split_and!; try done.
      * split; [done|]. intros (l & u & [= <-] & Hpos & _). lia.
      * intros l u [= <-] Hpos. lia.
    + apply orb_false_iff in Hbad as [Hz Hneg].
      apply Z.eqb_neq in Hz. apply Z.ltb_ge in Hneg.
      destruct (users s !! id) as [u|] eqn:Hu.
      * cbn [fst snd reply_status reply_data users files set_users].
        split_and!; try done.
        -- split; [|done]. intros _. exists limit, u.
           split_and!; [done|lia|done].
        -- intros k Hk. by rewrite lookup_insert_ne.
        -- intros l u0 [= <-] Hpos [= <-]. rewrite lookup_insert_eq.
           split_and!; try done. intros Hlow.
           unfold storageRemaining, hasStorageSpace, set_storageLimit.
           cbn. split; [lia|]. intros bytes Hb. apply Z.leb_gt. lia.
      * cbn [fst snd reply_status reply_data]. split_and!; try done.
        split; [done|]. by intros (l & u & _ & _ & ?).
  - cbn [fst snd reply_status reply_data]. split_and!; try done.
    split; [done|]. by intros (l & u & ? & _).
Qed.

(** X21: After an administrator lowers an account's limit below its usage,
    every upload of that account, of whatever size, is answered 400
    'Storage limit exceeded' and leaves the database as it was, until
    enough is deleted. *)
Theorem lowered_limit_blocks_uploads (id : ObjectId) (limit : Z)
    (u : User.t) (req : Request) (now : Date) (s : Store)
    (fs : list Upload.t) :
  users s !! id = Some u -> 0 < limit < User.storageUsed u ->
  let s1 := fst (updateStorageLimit id (Some limit) s) in
  protect id s1 = Some (user req) ->
  uploaded_batch req = Some fs -> folder_ok req s1 ->
  Forall (fun file => 0 <= Upload.size file) fs ->
  exists r s2,
    uploadFiles req now s1 = (s2, Json r)
    /\ status r = HTTP_STATUS.BAD_REQUEST
    /\ message r = Some ERROR_MESSAGES.STORAGE_LIMIT
    /\ users s2 = users s1 /\ files s2 = files s1.
Proof.
  intros Hu Hlim s1 Hreq Hb Hfo Hsz.
  assert (user req = set_storageLimit limit u) as Huser.
  { subst s1. unfold protect, updateStorageLimit in Hreq.
    replace ((limit =? 0) || (limit <? 0)) with false in Hreq.
    - rewrite Hu in Hreq. cbn [fst users set_users] in Hreq.
      rewrite lookup_insert_eq in Hreq. by injection Hreq as <-.
    - symmetry. apply orb_false_iff. split; [apply Z.eqb_neq|apply Z.ltb_ge];
        lia. }
  assert (0 <= total_size fs) as Htot.
  { rewrite total_size_sumZ. apply sumZ_nonneg. exact Hsz. }
  assert (hasStorageSpace (user req) (total_size fs) = false) as Hno.
  { rewrite Huser. unfold hasStorageSpace, set_storageLimit. cbn.
    apply Z.leb_gt. lia. }
  rewrite (uploadFiles_denied req now s1 fs Hb Hfo Hno).
  eexists _, _. split; [reflexivity|]. split_and!; try done.
  - apply unlink_all_db.
  - apply unlink_all_db.
Qed.

(** X22: [updateStorage] never leaves a negative usage: a debit beyond the
    usage gives zero.  From an account as stored and with a usage that is
    not negative, crediting and then debiting the same number of bytes
    gives the account and the stored accounts back. *)
Theorem updateStorage_round_trip (u : User.t) (bytes : Z) (s : Store) :
  users s !! User._id u = Some u -> 0 <= User.storageUsed u -> 0 <= bytes ->
  let u1 := fst (updateStorage u bytes s) in
  let s1 := snd (updateStorage u bytes s) in
  let u2 := fst (updateStorage u1 (- bytes) s1) in
  let s2 := snd (updateStorage u1 (- bytes) s1) in
  User.storageUsed u1 = User.storageUsed u + bytes
  /\ users s1 !! User._id u = Some u1
  /\ u2 = u /\ users s2 = users s
  /\ (forall b, 0 <= User.storageUsed (fst (updateStorage u b s)))
  /\ (forall b, User.storageUsed u + b <= 0 ->
        User.storageUsed (fst (updateStorage u b s)) = 0).
Proof.
  intros Hu Hused Hb u1 s1 u2 s2.
  assert (User.storageUsed u1 = User.storageUsed u + bytes) as H1.
  { subst u1. unfold updateStorage. cbn. lia. }
  assert (User._id u1 = User._id u) as Hid by reflexivity.
  assert (users s1 !! User._id u = Some u1) as Hs1.
  { subst s1. rewrite users_updateStorage. cbn zeta.
    rewrite decide_True by done. rewrite Hu.
    destruct (_ =? _) eqn:Heq.
    - apply Z.eqb_eq in Heq. f_equal. subst u1. unfold updateStorage.
      cbn [fst]. rewrite Heq. by destruct u.
    - reflexivity. }
  assert (u2 = u) as H2.
  { subst u2. unfold updateStorage. cbn [fst]. rewrite H1.
    replace (Z.max 0 (User.storageUsed u + bytes + - bytes))
      with (User.storageUsed u) by lia.
    subst u1. unfold updateStorage. cbn. by destruct u. }
  split_and!; try done.
  - apply map_eq. intros k. subst s2. rewrite users_updateStorage. cbn zeta.
    rewrite Hid.
    destruct (decide (User._id u = k)) as [<-|Hne].
    + rewrite Hs1, Hu. rewrite H1.
      replace (Z.max 0 (User.storageUsed u + bytes + - bytes))
        with (User.storageUsed u) by lia.
      destruct (_ =? _) eqn:Heq.
      * apply Z.eqb_eq in Heq. f_equal. rewrite <- H2. subst u2.
        unfold updateStorage. cbn [fst]. rewrite H1.
        replace (Z.max 0 (User.storageUsed u + bytes + - bytes))
          with (User.storageUsed u + bytes) by lia.
        rewrite <- H1. by destruct u1.
      * cbn. f_equal. subst u1. unfold updateStorage. cbn. by destruct u.
    + subst s1. rewrite users_updateStorage. cbn zeta.
      by rewrite decide_False by done.
  - intros b. unfold updateStorage. cbn. lia.
  - intros b Hle. unfold updateStorage. cbn. lia.
Qed.

(** ** Orphaned payloads *)

Lemma sweep_user_dir_spec s entries kept n fr :
  foldl (sweep_user_dir s) (kept, n, fr) entries
  = (kept ++ filter (fun e => ~ deletable s e) entries,
     (n + length (filter (deletable s) entries))%nat,
     fr + sumZ entry_size (filter (deletable s) entries)).
Proof.
  revert kept n fr. induction entries as [|e es IH]; intros kept n fr.
  - cbn. rewrite app_nil_r. f_equal; [f_equal; lia|lia].
  - cbn [foldl]. rewrite !filter_cons. unfold sweep_user_dir at 2.
    destruct (decide (deletable s e)) as [Hd|Hd].
    + rewrite decide_False by (intros Hn; apply Hn, Hd).
      destruct Hd as [Ho Hun]. unfold orphan in Ho. rewrite Ho, Hun, IH.
      cbn [length sumZ]. f_equal; [f_equal; lia|lia].
    + rewrite decide_True by done.
      assert ((if has_record (entry_name e) s
               then (kept ++ [e], n, fr)
               else if entry_unlinkable e
                    then (kept, S n, fr + entry_size e)
                    else (kept ++ [e], n, fr)) = (kept ++ [e], n, fr)) as ->.
      { destruct (has_record (entry_name e) s) eqn:Hr; [done|].
        destruct (entry_unlinkable e) eqn:Hun; [|done].
        exfalso. apply Hd. by split. }
      rewrite IH. by rewrite <- app_assoc.
Qed.

Lemma dir_entries_cons d dirs :
  dir_entries (d :: dirs)
  = match d with UserDir _ entries => entries | NotADir _ => [] end
    ++ dir_entries dirs.
Proof. reflexivity. Qed.

Lemma orphans_loop_spec s dirs done_ n fr :
  foldl
    (fun '(dirs, deletedCount, freedSpace) userDir =>
       match userDir with
       | NotADir name => (dirs ++ [NotADir name], deletedCount, freedSpace)
       | UserDir name entries =>
         let '(kept, deletedCount, freedSpace) :=
           foldl (sweep_user_dir s) ([], deletedCount, freedSpace)
                 entries in
         (dirs ++ [UserDir name kept], deletedCount, freedSpace)
       end)
    (done_, n, fr) dirs
  = (done_ ++ (clean_dir s <$> dirs),
     (n + length (filter (deletable s) (dir_entries dirs)))%nat,
     fr + sumZ entry_size (filter (deletable s) (dir_entries dirs))).
Proof.
  revert done_ n fr. induction dirs as [|d dirs IH]; intros done_ n fr.
  - cbn. rewrite app_nil_r. f_equal; [f_equal; lia|lia].
  - cbn [foldl]. rewrite dir_entries_cons, fmap_cons.
    destruct d as [name entries|name].
    + rewrite sweep_user_dir_spec, IH. cbn [app clean_dir].
      rewrite filter_app, length_app, sumZ_app, <- app_assoc.
      f_equal; [f_equal; lia|lia].
    + rewrite IH. cbn [app clean_dir]. by rewrite <- app_assoc.
Qed.

Lemma dir_entries_clean s dirs :
  dir_entries (clean_dir s <$> dirs)
  = filter (fun e => ~ deletable s e) (dir_entries dirs).
Proof.
  induction dirs as [|d dirs IH]; [done|].
  rewrite fmap_cons, !dir_entries_cons, filter_app, IH.
  by destruct d.
Qed.

Lemma clean_dir_idem s (dirs : list DirEntry) :
  clean_dir s <$> (clean_dir s <$> dirs) = clean_dir s <$> dirs.
Proof.
  induction dirs as [|d dirs IH]; [done|].
  rewrite !fmap_cons, IH. f_equal. destruct d as [name entries|name]; [|done].
  cbn [clean_dir]. f_equal. apply filter_all. apply Forall_forall.
  by intros e [Hn _]%list_elem_of_filter.
Qed.

(** X23: [cleanupOrphanedFiles] deletes, from the user directories, the entries
    that no file record names and that can be unlinked, and nothing else:
    an entry whose name is the [fileName] of some record, of any account,
    is never deleted, and top-level entries that are not directories are
    left alone.  It reports the number and the bytes of what it deleted,
    and a second run deletes nothing. *)
Theorem orphan_cleanup (dirs : list DirEntry) (s : Store) :
  exists dirs' n fr,
    cleanupOrphanedFiles (Some dirs) s = Some (dirs', n, fr)
    /\ dirs' = clean_dir s <$> dirs
    /\ (forall e, e ∈ dir_entries dirs' <->
                  e ∈ dir_entries dirs
                  /\ ~ (orphan s e /\ entry_unlinkable e = true))
    /\ (forall e, e ∈ dir_entries dirs ->
                  has_record (entry_name e) s = true ->
                  e ∈ dir_entries dirs')
    /\ (forall name, NotADir name ∈ dirs -> NotADir name ∈ dirs')
    /\ n = length (filter (deletable s) (dir_entries dirs))
    /\ fr = sumZ entry_size (filter (deletable s) (dir_entries dirs))
    /\ (length (dir_entries dirs) = length (dir_entries dirs') + n)%nat
    /\ cleanupOrphanedFiles (Some dirs') s = Some (dirs', 0%nat, 0).
Proof.
  unfold cleanupOrphanedFiles. rewrite orphans_loop_spec.
  eexists _, _, _. split; [reflexivity|]. cbn [app Nat.add].
  rewrite Z.add_0_l.
  assert (forall e, e ∈ dir_entries (clean_dir s <$> dirs) <->
                    e ∈ dir_entries dirs
                    /\ ~ (orphan s e /\ entry_unlinkable e = true)) as Hmem.
  { intros e. rewrite dir_entries_clean, list_elem_of_filter.
    unfold deletable. tauto. }
  split_and!; try done.
  - intros e Hin Hrec. apply Hmem. split; [done|].
    unfold orphan. intros [Ho _]. congruence.
  - intros name Hin.
    by apply (list_elem_of_fmap_2 (clean_dir s)) in Hin.
  - rewrite dir_entries_clean.
    rewrite (length_filter_split (deletable s) (dir_entries dirs)). lia.
  - rewrite orphans_loop_spec. cbn [app Nat.add].
    rewrite clean_dir_idem, dir_entries_clean.
    rewrite (filter_none (deletable s)).
    + cbn. reflexivity.
    + apply Forall_forall. by intros e [Hn _]%list_elem_of_filter.
Qed.

(** ** File types *)

Lemma includes_at (m : nat) (s sub : string) :
  sub <> ""%string ->
  String.substring m (String.length sub) s = sub ->
  includes s sub = true.
Proof.
  intros Hne Hsub. unfold includes.
  destruct (String.index 0 sub s) eqn:Hi; [done|].
  exfalso. by apply (String.index_correct3 0 m sub s Hi Hne); [lia|].
Qed.

(** X24: Every MIME type of the Office Open XML family
    ([application/vnd.openxmlformats-officedocument.] followed by
    anything) has the word 'document' in it, which [fileType] tests before
    it looks for 'spreadsheet' or 'presentation': the [fileType] of an
    [.xlsx] or a [.pptx] file is 'document', as that of a [.docx] file. *)
Theorem fileType_of_office_files (f : File.t) (suffix : string) :
  File.mimeType f
  = ("application/vnd.openxmlformats-officedocument." +:+ suffix)%string ->
  fileType f = "document"%string.
Proof.
  intros Hmime. unfold fileType. rewrite Hmime.
  assert (includes
            ("application/vnd.openxmlformats-officedocument." +:+ suffix)
            "document" = true) as Hdoc.
  { by apply (includes_at 37). }
  rewrite Hdoc, orb_true_r. reflexivity.
Qed.

(** ** Deleting an account *)

Lemma delete_docs_plain ds s fr :
  foldl (fun s file => doc_deleteOne file s) s ds
  = fst (foldl (fun '(s, freed) file =>
                  (doc_deleteOne file s, freed + File.fileSize file))
               (s, fr) ds).
Proof.
  revert s fr. induction ds as [|d ds IH]; intros s fr; cbn [foldl]; [done|].
  apply IH.
Qed.

Lemma disk_delete_docs ds s p :
  disk (foldl (fun s file => doc_deleteOne file s) s ds) !! p
  = if decide (p ∈ File.filePath <$> ds)
    then match disk s !! p with Some true => None | o => o end
    else disk s !! p.
Proof.
  revert s. induction ds as [|f ds IH]; intros s.
  - rewrite fmap_nil. cbn [foldl]. destruct (decide _) as [Hin|]; [|done].
    by apply elem_of_nil in Hin.
  - rewrite fmap_cons. cbn [foldl]. rewrite IH.
    change (disk (doc_deleteOne f s))
      with (disk (unlink_quiet (File.filePath f) s)).
    rewrite disk_unlink_quiet.
    destruct (decide (File.filePath f = p)) as [->|Hne].
    + rewrite (decide_True (P := _ ∈ _ :: _)) by left.
      destruct (decide _); by destruct (disk s !! p) as [[]|].
    + destruct (decide (p ∈ File.filePath <$> ds)) as [Hin|Hnin].
      * by rewrite (decide_True (P := _ ∈ _ :: _)) by (by right).
      * rewrite (decide_False (P := _ ∈ _ :: _)); [done|].
        rewrite not_elem_of_cons. done.
Qed.

(** X25: [deleteUser] on an account that is not an administrator's removes the
    account with all its files, folders and clips, unlinks the payloads of
    its files, and reports how many files there were.  No other account,
    and no record of another account, is changed; the store stays
    consistent, and a ledger that was exact stays exact.  For an unknown
    id (404) and for an administrator's account (403) nothing changes. *)
Theorem deleteUser_removes_all_data (isAdmin : ObjectId -> bool)
    (id : ObjectId) (s : Store) :
  consistent s ->
  let s' := fst (deleteUser isAdmin id s) in
  let r := snd (deleteUser isAdmin id s) in
  (users s !! id = None ->
   s' = s /\ reply_status r = HTTP_STATUS.NOT_FOUND)
  /\ (is_Some (users s !! id) -> isAdmin id = true ->
      s' = s /\ reply_status r = FORBIDDEN)
  /\ (is_Some (users s !! id) -> isAdmin id = false ->
      reply_status r = HTTP_STATUS.OK
      /\ reply_data r = Some (length (owned id (files s)))
      /\ users s' = delete id (users s)
      /\ files s' = filter (fun f => File.userId f <> id) (files s)
      /\ folders s' = filter (fun d => Folder.userId d <> id) (folders s)
      /\ clips s' = filter (fun c => Clipboard.userId c <> id) (clips s)
      /\ (forall f, f ∈ files s -> File.userId f = id ->
                    disk s !! File.filePath f = Some true ->
                    disk s' !! File.filePath f = None)
      /\ consistent s'
      /\ (exact_ledger s -> exact_ledger s')).
Proof.
  intros Hc s' r. subst s' r. unfold deleteUser. split_and!.
  - by intros ->.
  - intros [u Hu] Hadm. by rewrite Hu, Hadm.
  - intros [u Hu] Hadm. rewrite Hu, Hadm.
    assert (User._id u = id) as Hid by apply (cons_keyed s Hc _ _ Hu).
    rewrite Hid. fold (owned id (files s)).
    set (mine := owned id (files s)).
    rewrite (delete_docs_plain mine s 0).
    destruct (delete_docs_spec mine s 0)
      as (s1 & Heq & Hf & Hus & Hfo & Hcl & Hn).
    rewrite Heq.
    cbn [fst snd reply_status reply_data users files folders clips disk
         set_users set_clips set_folders].
    pose proof (cons_unique s Hc) as Hun.
    assert (NoDup (File._id <$> mine)) as Hmine.
    { eapply sublist_unique; [apply sublist_filter|exact Hun]. }
    assert (forall d, d ∈ mine -> d ∈ files s) as Hsub.
    { by intros d [_ ?]%list_elem_of_filter. }
    assert (consistent s1) as Hc1 by (by eapply consistent_removed).
    assert (files s1 = filter (fun f => File.userId f <> id) (files s))
      as Hfiles.
    { rewrite Hf. unfold mine, owned. by rewrite remove_all_filter. }
    assert (forall k, k <> id -> users s1 !! k = users s !! k) as Hother.
    { intros k Hk. rewrite Hus, (owned_bytes_none k mine).
      - destruct (users s !! k); cbn; [|done]. unfold debit.
        by rewrite credit_0.
      - apply Forall_forall. intros f [Hown _]%list_elem_of_filter.
        congruence. }
    split_and!; try done.
    + apply map_eq. intros k. destruct (decide (k = id)) as [->|Hk].
      * by rewrite !lookup_delete_eq.
      * rewrite !lookup_delete_ne by done. by apply Hother.
    + by rewrite Hfo.
    + by rewrite Hcl.
    + intros f Hin Hown Hd.
      assert (s1 = foldl (fun s file => doc_deleteOne file s) s mine) as ->.
      { by rewrite (delete_docs_plain mine s 0), Heq. }
      rewrite disk_delete_docs, decide_True, Hd; [done|].
      apply list_elem_of_fmap_2. by apply list_elem_of_filter.
    + destruct Hc1 as [Hacc Hows Hfr Hun1 Hsz Hk Hl].
      split; unfold unique_ids, keyed;
        cbn [users files next_oid set_users set_clips set_folders];
        try done; by apply map_Forall_delete.
    + intros Hex.
      assert (exact_ledger s1) as Hex1 by (by eapply exact_removed).
      unfold exact_ledger.
      cbn [users files set_users set_clips set_folders].
      by apply map_Forall_delete.
Qed.

(** ** Requests that overlap *)

(** Requests served one after another are a special case. *)
Lemma overlap_step_sequential s e :
  foldl overlap_step (s, ∅) (sequential_events e) = (step s e, ∅).
Proof.
  destruct e as [now [|uid cl folderId fs|uid fileId|uid ids|]];
    cbn [sequential_events foldl overlap_step step]; try done;
    destruct (protect uid s) as [u|]; cbn [overlap_step];
    rewrite ?lookup_insert_eq, ?lookup_empty, ?delete_insert_eq,
            ?delete_empty; done.
Qed.

Lemma overlap_run_sequential trace s :
  overlap_run (concat (sequential_events <$> trace)) s = run trace s.
Proof.
  unfold overlap_run, run.
  enough (foldl overlap_step (s, ∅) (concat (sequential_events <$> trace))
          = (foldl step s trace, ∅)) as -> by done.
  revert s. induction trace as [|e trace IH]; intros s; [done|].
  rewrite fmap_cons. cbn [concat foldl].
  by rewrite foldl_app, overlap_step_sequential, IH.
Qed.

(** ** The order of the file collection *)
















End Server.

(** * The properties on concrete stores *)

(** Closed, decidable facts about the example stores, by evaluation. *)
Ltac by_evaluation :=
  unfold unique_ids, keyed;
  match goal with
  | |- ?P => apply (@bool_decide_unpack P _); vm_compute; reflexivity
  end.

Lemma ex_library_unique : unique_ids ex_library.
Proof. by_evaluation. Qed.

Lemma ex_library_keyed : keyed ex_library.
Proof. by_evaluation. Qed.

Lemma ex_accounts_consistent : consistent ex_accounts.
Proof. split; by_evaluation. Qed.

(** Uploads by both accounts, a delete and a sweep after the files have
    expired. *)
Lemma sequential_quota_within_bounds_witness :
  let trace :=
    [(0, OpUpload 1 (Some 100) None
           [ex_upload "todo.txt" 60; ex_upload "x.txt" 30]);
     (1, OpDelete 1 3);
     (2, OpSignup);
     (3, OpUpload 5 None None [ex_upload "y.txt" 500]);
     (4, OpDeleteMany 1 [3%nat; 4%nat]);
     (700000000, OpSweep)] in
  consistent ex_accounts
  /\ Forall op_sizes_ok trace
  /\ forall k u,
       users (run None id id ex_extname trace ex_accounts) !! k = Some u ->
       0 <= User.storageUsed u <= User.storageLimit u.
Proof.
  intros trace.
  assert (Forall op_sizes_ok trace) as Hok.
  { subst trace. repeat constructor; cbn; lia. }
  split; [exact ex_accounts_consistent|]. split; [exact Hok|].
  exact (sequential_quota_within_bounds None id id ex_extname ex_accounts trace
           ex_accounts_consistent Hok).
Defined.

(** Account 1, at 900 bytes, uploads 60 bytes and ends at 960. *)
Lemma upload_counted_once_from_stored_account_example :
  let req := ex_request ex_alice 0 [ex_upload "todo.txt" 60] in
  let s' := fst (uploadFiles None id id ex_extname req 0 ex_accounts) in
  users s' !! 1%nat = Some (User.mk 1 960 1000)
  /\ users s' !! 2%nat = users ex_accounts !! 2%nat.
Proof.
  intros req s'.
  destruct (upload_counted_once_from_stored_account None id id ex_extname req 0 ex_accounts s'
              (mkResponse 201 true (Some SUCCESS_MESSAGES.FILE_UPLOADED)
                 (UploadData [new_file None id id ex_extname 3 1 None 0
                                (ex_upload "todo.txt" 60)] 1 60 1020 1000))
              [ex_upload "todo.txt" 60])
    as (H1 & H2 & _).
  - reflexivity.
  - vm_compute. reflexivity.
  - cbn. lia.
  - repeat constructor. cbn. lia.
  - vm_compute. reflexivity.
  - reflexivity.
  - split; [exact H1|]. apply H2. discriminate.
Defined.



(** * Overlapping requests and the ledger *)

(** C1 (the code departs from it): an account signs up; two of its uploads,
    of 100 and of 10 bytes, are both past [protect] before either
    controller runs; then it deletes the first file.  The second upload
    saves the usage it computes from the document it loaded, 0 + 10, over
    the 110 bytes counted by the hooks; the delete debits 100 bytes
    without the clamp of [updateStorage] and leaves the account at -90
    bytes. *)
Theorem C1_overlapping_requests_break_bounds :
  let uploads :=
    [(0, EvSignup);
     (1, EvProtect 1 0); (2, EvProtect 2 0);
     (3, EvServe 1 (CallUpload (Some 100) None [ex_upload "x.txt" 100]));
     (4, EvServe 2 (CallUpload (Some 10) None [ex_upload "y.txt" 10]))] in
  let delete := [(5, EvProtect 3 0); (6, EvServe 3 (CallDelete 1))] in
  let s2 := overlap_run None id id ex_extname uploads empty_store in
  let s3 :=
    overlap_run None id id ex_extname (uploads ++ delete) empty_store in
  clock_ok (uploads ++ delete)
  /\ File.fileSize <$> files s2 = [100; 10]
  /\ users s2 !! 0%nat = Some (User.mk 0 10 524288000)
  /\ File.fileSize <$> files s3 = [10]
  /\ users s3 !! 0%nat = Some (User.mk 0 (-90) 524288000)
  /\ ~ (forall k u, users s3 !! k = Some u ->
                    0 <= User.storageUsed u <= User.storageLimit u).
Proof.
  cbv zeta. split_and!.
  - repeat constructor; cbn; lia.
  - vm_compute. reflexivity.
  - vm_compute. reflexivity.
  - vm_compute. reflexivity.
  - vm_compute. reflexivity.
  - intros H. specialize (H 0%nat (User.mk 0 (-90) 524288000)).
    destruct H as [H _]; [vm_compute; reflexivity|]. cbn in H. lia.
Qed.

(** C2 (the code departs from it): the account's second upload is past
    [protect] when its first, of 100 bytes, is served.  The stored usage
    is then u = 100; the second upload, of S = 10 bytes, is answered 201,
    and the stored usage afterwards is 10, not u + S = 110: the hooks
    had raised it to 110 and [updateStorage] saved 0 + 10, computed from
    the document [protect] had loaded. *)
Theorem C2_overlapping_upload_miscounts :
  let y := ex_upload "y.txt" 10 in
  let before :=
    [(0, EvSignup);
     (1, EvProtect 1 0); (2, EvProtect 2 0);
     (3, EvServe 1 (CallUpload (Some 100) None [ex_upload "x.txt" 100]))] in
  let s1 := overlap_run None id id ex_extname before empty_store in
  let loaded :=
    protect 0 (overlap_run None id id ex_extname
                 [(0, EvSignup); (1, EvProtect 1 0)] empty_store) in
  let req := mkRequest (User.fresh 0) 0 None [] [y] None in
  let result :=
    uploadFiles None id id ex_extname req 4 (uploadMultiple [y] s1) in
  loaded = Some (user req)
  /\ users s1 !! 0%nat = Some (User.mk 0 100 524288000)
  /\ total_size [y] = 10
  /\ (exists r, snd result = Json r /\ status r = HTTP_STATUS.CREATED)
  /\ users (fst result) !! 0%nat = Some (User.mk 0 10 524288000)
  /\ owned_bytes 0 (files (fst result)) = 110
  /\ fst result =
     overlap_run None id id ex_extname
       (before ++ [(4, EvServe 2 (CallUpload (Some 10) None [y]))])
       empty_store.
Proof.
  cbv zeta. split_and!; try (vm_compute; reflexivity).
  eexists. split; [vm_compute; reflexivity|reflexivity].
Qed.

(** The quota logic of the deletion paths, evaluated on a drifted ledger. *)

(** C4 (the code departs from it): [updateStorage] clamps at zero, but the
    deletion paths do not go through it.  On an account reporting 50 bytes
    that owns a 100-byte file, [updateStorage(-100)] yields 0, whereas
    [deleteFile], [deleteMultipleFiles] and the sweeper each leave
    [storageUsed] at -50. *)
Theorem C4_deletes_debit_without_clamp :
  let u := User.mk 1 50 1000 in
  User.storageUsed (fst (updateStorage u (-100) ex_drifted)) = 0
  /\ users (snd (updateStorage u (-100) ex_drifted)) !! 1%nat
     = Some (User.mk 1 0 1000)
  /\ users (fst (deleteFile (ex_request u 0 []) ex_drifted)) !! 1%nat
     = Some (User.mk 1 (-50) 1000)
  /\ users (fst (deleteMultipleFiles (mkRequest u 0 None [0%nat] [] None)
                   ex_drifted)) !! 1%nat
     = Some (User.mk 1 (-50) 1000)
  /\ users (fst (cleanupExpiredFiles 10 ex_drifted)) !! 1%nat
     = Some (User.mk 1 (-50) 1000)
  /\ users (fst (File_cleanupExpiredFiles 10 ex_drifted)) !! 1%nat
     = Some (User.mk 1 (-50) 1000).
Proof. cbv zeta. split_and!; vm_compute; reflexivity. Qed.

(** How a ledger drifts: two uploads of one account overlap.  Both are
    authenticated against the empty account; the first stores 100 bytes;
    the second, still holding the account as it was, stores 10 bytes and
    saves 0 + 10.  The ledger reports 10 bytes for 110 on record, and
    deleting the first file takes it to -90. *)
Lemma overlapping_uploads_drift :
  let s0 := mkStore {[ 1%nat := User.mk 1 0 1000 ]} [] [] [] ∅ 0 in
  let stale := User.mk 1 0 1000 in
  let s1 := fst (uploadFiles None id id ex_extname
                   (ex_request stale 0 [ex_upload "x.txt" 100]) 0 s0) in
  let s2 := fst (uploadFiles None id id ex_extname
                   (ex_request stale 0 [ex_upload "y.txt" 10]) 0 s1) in
  protect 1 s0 = Some stale
  /\ users s1 !! 1%nat = Some (User.mk 1 100 1000)
  /\ users s2 !! 1%nat = Some (User.mk 1 10 1000)
  /\ owned_bytes 1 (files s2) = 110
  /\ users (fst (deleteFile (ex_request (User.mk 1 10 1000) 0 []) s2)) !! 1%nat
     = Some (User.mk 1 (-90) 1000).
Proof. cbv zeta. split_and!; vm_compute; reflexivity. Qed.

(** The sweep of [ex_library] at time 10 removes [ex_a] and [ex_b]. *)
Lemma C5_sweeper_run_witness :
  let s' := fst (cleanupExpiredFiles 10 ex_library) in
  let r := snd (cleanupExpiredFiles 10 ex_library) in
  files s' = [ex_c; ex_d]
  /\ deletedCount r = 2%nat /\ freedSpace r = 150
  /\ users s' !! 1%nat = Some (User.mk 1 0 1000)
  /\ users s' !! 2%nat = Some (User.mk 2 100 1000).
Proof.
  intros s' r.
  destruct (C5_sweeper_run 10 ex_library s' r ex_library_unique
              ex_library_keyed eq_refl)
    as (Hf & _ & _ & _ & Hn & Hfr & _ & Hu & _).
  split_and!.
  - rewrite Hf. vm_compute. reflexivity.
  - rewrite Hn. vm_compute. reflexivity.
  - rewrite Hfr. vm_compute. reflexivity.
  - rewrite Hu. vm_compute. reflexivity.
  - rewrite Hu. vm_compute. reflexivity.
Defined.

(** The admission example of the specification: limit 1000, used 900, a
    150-byte file. *)
Lemma C6_admission_control_witness :
  let fs := [ex_upload "big.txt" 150] in
  let req := ex_request ex_alice 0 fs in
  let result := uploadFiles None id id ex_extname req 0
                  (uploadMultiple fs ex_accounts) in
  hasStorageSpace ex_alice 150 = false
  /\ snd result = over_quota req 150
  /\ fst result = ex_accounts
  /\ users (fst result) !! 1%nat = Some (User.mk 1 900 1000).
Proof.
  intros fs req result.
  destruct (C6_admission_control None id id ex_extname req 0
              (uploadMultiple fs ex_accounts) fs eq_refl I)
    as (_ & _ & Hq & _ & _).
  destruct (C6_admission_control None id id ex_extname req 0
              ex_accounts fs eq_refl I)
    as (_ & _ & _ & _ & Hs).
  assert (~ User.storageUsed (user req) + total_size fs
            <= User.storageLimit (user req)) as Hn by (vm_compute; tauto).
  split_and!.
  - reflexivity.
  - apply Hq. exact Hn.
  - apply Hs; [exact Hn|]. intros file Hin.
    apply list_elem_of_singleton in Hin. rewrite Hin. reflexivity.
  - unfold result. rewrite Hs; [reflexivity|exact Hn|]. intros file Hin.
    apply list_elem_of_singleton in Hin. rewrite Hin. reflexivity.
Defined.

(** Account 1 deletes [ex_a] twice. *)
Lemma C7_delete_twice_witness :
  let req := ex_request (User.mk 1 150 1000) 0 [] in
  let s1 := fst (deleteFile req ex_library) in
  users s1 !! 1%nat = Some (User.mk 1 50 1000)
  /\ deleteFile req s1 = (s1, not_found ERROR_MESSAGES.FILE_NOT_FOUND).
Proof.
  intros req s1.
  destruct (C7_delete_twice req ex_library s1
              (mkResponse 200 true (Some SUCCESS_MESSAGES.FILE_DELETED)
                 (DeleteData 100 50))
              ex_library_unique eq_refl eq_refl)
    as (f & _ & _ & _ & _ & _ & Hagain).
  split; [vm_compute; reflexivity|]. apply Hagain. reflexivity.
Defined.



Lemma ex_accounts_no_file id : file_absent id ex_accounts.
Proof. intros f Hf. by apply elem_of_nil in Hf. Qed.

Lemma ex_accounts_no_clip id : clip_absent id ex_accounts.
Proof. intros c Hc. by apply elem_of_nil in Hc. Qed.

Lemma ex_c_foreign : file_foreign 2 1 ex_library.
Proof.
  split; [exists ex_c; split; [by_evaluation|reflexivity]|].
  intros f Hin Hid. cbn in Hin.
  repeat (apply elem_of_cons in Hin as [->|Hin]); try discriminate.
  by apply elem_of_nil in Hin.
Qed.

Lemma ex_clip_foreign : clip_foreign 0 1 ex_library.
Proof.
  split; [exists (ex_clip 0 2 10); split; [by_evaluation|reflexivity]|].
  intros c Hin Hid. cbn in Hin.
  repeat (apply elem_of_cons in Hin as [->|Hin]); try discriminate.
  by apply elem_of_nil in Hin.
Qed.

(** Account 1 asks for account 2's file and clip, and for ids that do not
    exist; account 2 gets its own. *)
Lemma C9_not_found_hides_ownership_witness :
  let req_file := ex_request ex_alice 2 [] in
  let req_clip := ex_request ex_alice 0 [] in
  getFile req_file ex_library = getFile req_file ex_accounts
  /\ getFile req_file ex_library = not_found ERROR_MESSAGES.FILE_NOT_FOUND
  /\ getClip req_clip ex_library = getClip req_clip ex_accounts
  /\ getFile (ex_request ex_bob 2 []) ex_library
     = Json (mkResponse 200 true None (FileData ex_c)).
Proof.
  intros req_file req_clip.
  destruct (C9_not_found_hides_ownership req_file ex_accounts ex_library)
    as [Hfile _].
  destruct (C9_not_found_hides_ownership req_clip ex_accounts ex_library)
    as [_ Hclip].
  destruct (Hfile (ex_accounts_no_file 2) ex_c_foreign) as [Hf1 Hf2].
  destruct (Hclip (ex_accounts_no_clip 0) ex_clip_foreign) as [Hc1 Hc2].
  split_and!; [exact Hf2 | | exact Hc2 | reflexivity].
  rewrite Hf2. exact Hf1.
Defined.

(** A file with ten days left is "extended" by the default seven days at
    time 0: it now expires after seven days, three days sooner. *)
Lemma C10_extendExpiry_resets_from_now_witness :
  let f := ex_file 9 1 "long.txt" 1 (10 * DAY_MS) in
  let c := ex_clip 9 1 (10 * DAY_MS) in
  File.expiresAt (fst (extendExpiry None None 0 f ex_accounts)) = 7 * DAY_MS
  /\ Clipboard.expiresAt (fst (Clipboard_extendExpiry None None 0 c ex_accounts))
     = 7 * DAY_MS
  /\ File.expiresAt (fst (extendExpiry None None 0 f ex_accounts))
     < File.expiresAt f
  /\ File.expiresAt (fst (extendExpiry None (Some 30) 0 f ex_accounts))
     = 30 * DAY_MS.
Proof.
  intros f c.
  destruct (C10_extendExpiry_resets_from_now None None 0 f c ex_accounts)
    as (Hf & Hc & _ & _ & _ & _ & _ & Hearly & _).
  destruct (C10_extendExpiry_resets_from_now None (Some 30) 0 f c ex_accounts)
    as (Hf30 & _).
  split_and!; [exact Hf | exact Hc | apply Hearly; vm_compute; reflexivity
              | exact Hf30].
Defined.

(** * The further properties on concrete stores *)

Lemma ex_library_consistent : consistent ex_library.
Proof. split; by_evaluation. Qed.

Lemma ex_library_exact : exact_ledger ex_library.
Proof. unfold exact_ledger. by_evaluation. Qed.

Lemma ex_locked_unique : unique_ids ex_locked.
Proof. by_evaluation. Qed.

Lemma ex_locked_keyed : keyed ex_locked.
Proof. by_evaluation. Qed.

(** An upload, a delete, a signup and a sweep on [ex_library]. *)
Lemma ledger_stays_exact_witness :
  let trace :=
    [(0, OpUpload 1 None None [ex_upload "todo.txt" 60]);
     (1, OpDelete 1 0);
     (2, OpSignup);
     (15, OpSweep)] in
  let s := run None id id ex_extname trace ex_library in
  consistent ex_library /\ exact_ledger ex_library
  /\ Forall op_sizes_ok trace
  /\ forall k u, users s !! k = Some u ->
       User.storageUsed u = sumZ File.fileSize (owned k (files s)).
Proof.
  intros trace s.
  assert (Forall op_sizes_ok trace) as Hok.
  { subst trace. repeat constructor; cbn; lia. }
  split_and!; [exact ex_library_consistent|exact ex_library_exact|exact Hok|].
  exact (ledger_stays_exact None id id ex_extname ex_library trace
           ex_library_consistent ex_library_exact Hok).
Defined.

(** The stored account holds 100 bytes, [req.user] is a copy from before
    that (0 bytes): after an upload of 10 bytes the stored usage is 10. *)
Lemma upload_saves_from_request_user_witness :
  let s := mkStore {[ 1%nat := User.mk 1 100 1000 ]} [] [] [] ∅ 0 in
  let req := ex_request (User.mk 1 0 1000) 0 [ex_upload "y.txt" 10] in
  let s' := fst (uploadFiles None id id ex_extname req 0 s) in
  users s' !! 1%nat = Some (User.mk 1 10 1000).
Proof.
  intros s req s'.
  exact (upload_saves_from_request_user None id id ex_extname req 0 s s'
           (mkResponse 201 true (Some SUCCESS_MESSAGES.FILE_UPLOADED)
              (UploadData [new_file None id id ex_extname 0 1 None 0
                             (ex_upload "y.txt" 10)] 1 10 20 1000))
           [ex_upload "y.txt" 10] (User.mk 1 100 1000)
           eq_refl eq_refl eq_refl eq_refl).
Defined.

(** Account 1, at 900 bytes, uploads 60: the account is stored with 960
    bytes and the reply says 1020. *)
Lemma upload_reply_overstates_witness :
  let req := ex_request ex_alice 0 [ex_upload "todo.txt" 60] in
  let s' := fst (uploadFiles None id id ex_extname req 0 ex_accounts) in
  let out := snd (uploadFiles None id id ex_extname req 0 ex_accounts) in
  exists u', users s' !! 1%nat = Some u'
    /\ User.storageUsed u' = 960 /\ reply_storageUsed out = Some 1020.
Proof.
  intros req s' out.
  destruct (upload_reply_overstates None id id ex_extname req 0 ex_accounts
              s' out
              (mkResponse 201 true (Some SUCCESS_MESSAGES.FILE_UPLOADED)
                 (UploadData [new_file None id id ex_extname 3 1 None 0
                                (ex_upload "todo.txt" 60)] 1 60 1020 1000))
              [ex_upload "todo.txt" 60])
    as (u' & Hu' & Hused & Hrep).
  - reflexivity.
  - vm_compute. reflexivity.
  - cbn. lia.
  - repeat constructor. cbn. lia.
  - vm_compute. reflexivity.
  - vm_compute. reflexivity.
  - reflexivity.
  - exists u'. split; [exact Hu'|]. split; [exact Hused|].
    rewrite Hrep, Hused. reflexivity.
Defined.

(** The second file of the batch has the stored name of the first: its
    record is rejected, the record of the first stays and stays charged. *)
Lemma upload_failure_leaves_records_witness :
  let fs := [ex_upload "x.txt" 10; ex_upload "x.txt" 20] in
  let req := ex_request ex_bob 0 fs in
  let s := uploadMultiple fs ex_accounts in
  let s' := fst (uploadFiles None id id ex_extname req 0 s) in
  snd (uploadFiles None id id ex_extname req 0 s) = Next DuplicateKey
  /\ exists created,
       files s' = files s ++ created
       /\ (length created < length fs)%nat
       /\ Forall (fun f => File.userId f = 2%nat) created
       /\ (forall k, users s' !! k =
             if decide (2%nat = k)
             then credit (sumZ File.fileSize created) <$> users s !! k
             else users s !! k)
       /\ (forall f, f ∈ created -> disk s' !! File.filePath f <> Some true)
       /\ (forall file, file ∈ fs -> disk s' !! Upload.path file <> Some true).
Proof.
  intros fs req s s'. split; [vm_compute; reflexivity|].
  apply (upload_failure_leaves_records None id id ex_extname req 0 s s'
           DuplicateKey fs).
  - reflexivity.
  - vm_compute. reflexivity.
Defined.

(** Account 1 names folder 7, which is account 2's. *)
Lemma upload_into_foreign_folder_witness :
  let fs := [ex_upload "x.txt" 10] in
  let req := mkRequest ex_alice 0 (Some 7%nat) [] fs None in
  let s := uploadMultiple fs ex_shared in
  let s' := fst (uploadFiles None id id ex_extname req 0 s) in
  snd (uploadFiles None id id ex_extname req 0 s)
  = not_found ERROR_MESSAGES.FOLDER_NOT_FOUND
  /\ users s' = users s /\ files s' = files s
  /\ forall file, file ∈ fs -> disk s' !! Upload.path file <> Some true.
Proof.
  intros fs req s s'.
  apply (upload_into_foreign_folder None id id ex_extname req 0 s fs 7).
  - reflexivity.
  - reflexivity.
  - intros d Hd%list_elem_of_singleton Hid. subst d. cbn. lia.
Defined.

(** A request of 100 bytes that carries 60 bytes of files. *)
Lemma middleware_check_covers_controller_witness :
  let fs := [ex_upload "todo.txt" 60] in
  let req := ex_request ex_alice 0 fs in
  hasStorageSpace (user req) (total_size fs) = true
  /\ snd (uploadFiles None id id ex_extname req 0 ex_accounts)
     <> over_quota req (total_size fs).
Proof.
  intros fs req.
  apply (middleware_check_covers_controller None id id ex_extname req 0
           ex_accounts fs (Some 100)).
  - reflexivity.
  - exact I.
  - reflexivity.
  - vm_compute. discriminate.
Defined.

(** Account 1 uploads 60 bytes and deletes what it uploaded. *)
Lemma upload_then_delete_restores_witness :
  let req := ex_request ex_alice 0 [ex_upload "todo.txt" 60] in
  let s1 := fst (uploadFiles None id id ex_extname req 0 ex_accounts) in
  exists created,
    files s1 = files ex_accounts ++ created
    /\ length created = 1%nat
    /\ forall u2, User._id u2 = 1%nat ->
         let s2 := fst (deleteMultipleFiles
                          (mkRequest u2 0 None (File._id <$> created) []
                             None) s1) in
         files s2 = files ex_accounts /\ users s2 = users ex_accounts.
Proof.
  intros req s1.
  apply (upload_then_delete_restores None id id ex_extname req 0 ex_accounts
           s1
           (mkResponse 201 true (Some SUCCESS_MESSAGES.FILE_UPLOADED)
              (UploadData [new_file None id id ex_extname 3 1 None 0
                             (ex_upload "todo.txt" 60)] 1 60 1020 1000))
           [ex_upload "todo.txt" 60]).
  - exact ex_accounts_consistent.
  - reflexivity.
  - vm_compute. reflexivity.
  - repeat constructor. cbn. lia.
  - vm_compute. reflexivity.
  - reflexivity.
Defined.


(** Account 1 asks to delete files 0 and 2; file 2 is account 2's. *)
Lemma deleteMultipleFiles_only_own_witness :
  let req := mkRequest (User.mk 1 150 1000) 0 None [0%nat; 2%nat] [] None in
  let s' := fst (deleteMultipleFiles req ex_library) in
  (ex_a ∉ files s') /\ ex_c ∈ files s'
  /\ users s' !! 1%nat = Some (User.mk 1 50 1000)
  /\ users s' !! 2%nat = users ex_library !! 2%nat
  /\ reply_storageUsed (snd (deleteMultipleFiles req ex_library)) = Some 50.
Proof.
  intros req s'.
  pose proof (deleteMultipleFiles_only_own req ex_library ex_library_unique)
    as H.
  cbv zeta in H. destruct H as [_ H]; [discriminate|].
  destruct H as (Hf & _ & Hu & Ho & Hr).
  { intros Hnil. vm_compute in Hnil. discriminate. }
  split_and!.
  - intros Hin. apply Hf in Hin as [_ Hn]. apply Hn. split; by_evaluation.
  - apply Hf. split; [by_evaluation|]. intros [_ Hown]. discriminate.
  - etrans; [exact Hu|]. vm_compute. reflexivity.
  - apply Ho. discriminate.
  - destruct Hr as (u' & Hu' & Hrep); [vm_compute; reflexivity|].
    etrans; [exact Hrep|]. f_equal.
    assert (Some u' = Some (User.mk 1 50 1000)) as Heq.
    { etrans; [symmetry; exact Hu'|]. etrans; [exact Hu|].
      vm_compute. reflexivity. }
    by injection Heq as ->.
Defined.

(** A sweep of [ex_library] at time 4 followed by one at time 10. *)
Lemma sweeps_compose_witness :
  let '(s1, r1) := cleanupExpiredFiles 4 ex_library in
  let '(s2, r2) := cleanupExpiredFiles 10 s1 in
  let '(s', r') := cleanupExpiredFiles 10 ex_library in
  files s2 = files s' /\ users s2 = users s'
  /\ (deletedCount r1 + deletedCount r2)%nat = deletedCount r'
  /\ freedSpace r1 + freedSpace r2 = freedSpace r'
  /\ (4 = 10 -> deletedCount r2 = 0%nat /\ freedSpace r2 = 0
                /\ files s2 = files s1 /\ users s2 = users s1).
Proof.
  apply (sweeps_compose 4 10 ex_library ex_library_unique ex_library_keyed).
  lia.
Defined.

(** The sweep of [ex_locked] at time 10 takes [ex_a] and [ex_b]: the
    payload of [ex_a] goes, that of [ex_b] stays without a record, and the
    payload of [ex_c] is not touched. *)
Lemma sweep_payloads_witness :
  let s' := fst (cleanupExpiredFiles 10 ex_locked) in
  disk s' !! "uploads/a.txt"%string = None
  /\ disk s' !! "uploads/b.txt"%string = Some false
  /\ (ex_b ∉ files s')
  /\ disk s' !! "uploads/c.txt"%string = Some true.
Proof.
  intros s'.
  pose proof (sweep_payloads 10 ex_locked ex_locked_unique ex_locked_keyed)
    as H.
  cbv zeta in H. destruct H as (H1 & H2 & H3).
  destruct (H3 ex_b) as (Hb & Hnb & _); [by_evaluation|reflexivity|].
  split_and!.
  - apply (H2 ex_a); [by_evaluation|reflexivity].
  - exact Hb.
  - exact Hnb.
  - unfold s'. rewrite H1; [reflexivity|by_evaluation].
Defined.

(** [ex_b] expired at time 3; extended at time 100 by two days, it is
    still there after a sweep one day later. *)
Lemma extended_file_outlives_sweeps_witness :
  let f' := fst (extendExpiry None (Some 2) 100 ex_b ex_library) in
  let s1 := snd (extendExpiry None (Some 2) 100 ex_b ex_library) in
  File.expiresAt f' = 100 + 2 * DAY_MS
  /\ users s1 = users ex_library
  /\ f' ∈ files (fst (cleanupExpiredFiles (100 + DAY_MS) s1)).
Proof.
  intros f' s1.
  pose proof (extended_file_outlives_sweeps None (Some 2) 100 (100 + DAY_MS)
                ex_b ex_library ex_library_unique ex_library_keyed) as H.
  cbv zeta in H. destruct H as (Hf & Hu & _ & Hin & _); [by_evaluation|].
  split_and!.
  - unfold f'. rewrite Hf. reflexivity.
  - exact Hu.
  - apply Hin. vm_compute. discriminate.
Defined.

(** Account 2 repeats a bulk delete of file 2 and of clip 0. *)
Lemma bulk_delete_twice_witness :
  let req := mkRequest (User.mk 2 100 1000) 0 None [2%nat] [] None in
  let s1 := fst (deleteMultipleFiles req ex_library) in
  let s2 := fst (deleteMultipleClips req [0%nat] ex_library) in
  deleteMultipleFiles req s1 =
    (s1, Json (mkResponse HTTP_STATUS.NOT_FOUND false
                 (Some "No files found"%string) NoData))
  /\ deleteMultipleClips req [0%nat] s2 =
     (s2, mkReply HTTP_STATUS.OK true (Some "0 clip(s) deleted"%string)
            (Some 0%nat)).
Proof.
  intros req.
  apply (bulk_delete_twice req [0%nat] ex_library ex_library_unique);
    discriminate.
Defined.

(** [ex_c] expires at time 10: at time 10 it reads 'Expired' and the
    sweep leaves it. *)
Lemma expired_label_and_sweep_witness :
  expiresIn 10 ex_c = "Expired"%string
  /\ ex_c ∈ files (fst (cleanupExpiredFiles 10 ex_library)).
Proof.
  destruct (expired_label_and_sweep 10 ex_c ex_library ex_library_unique
              ex_library_keyed) as (_ & _ & H); [by_evaluation|].
  apply H. reflexivity.
Defined.

(** The clip of [ex_library] expired at time 10; extended at time 100
    with the default of seven days, it outlives a sweep at time 200. *)
Lemma extended_clip_outlives_sweeps_witness :
  let c := ex_clip 0 2 10 in
  let c' := fst (Clipboard_extendExpiry None None 100 c ex_library) in
  let s1 := snd (Clipboard_extendExpiry None None 100 c ex_library) in
  Clipboard.expiresAt c' = 100 + 7 * DAY_MS
  /\ c' ∈ clips (fst (cleanupExpiredClipboards 200 s1)).
Proof.
  intros c c' s1.
  pose proof (extended_clip_outlives_sweeps None None 100 200 c ex_library)
    as H.
  cbv zeta in H. destruct H as (He & _ & Hin & _); [reflexivity|].
  split.
  - unfold c'. rewrite He. reflexivity.
  - apply Hin. vm_compute. discriminate.
Defined.

(** Account 1 uses 900 bytes; with the limit lowered to 500, an upload of
    one byte is refused. *)
Lemma lowered_limit_blocks_uploads_witness :
  let s1 := fst (updateStorageLimit 1 (Some 500) ex_accounts) in
  let req := ex_request (User.mk 1 900 500) 0 [ex_upload "x.txt" 1] in
  exists r s2,
    uploadFiles None id id ex_extname req 0 s1 = (s2, Json r)
    /\ status r = HTTP_STATUS.BAD_REQUEST
    /\ message r = Some ERROR_MESSAGES.STORAGE_LIMIT
    /\ users s2 = users s1 /\ files s2 = files s1.
Proof.
  intros s1 req.
  apply (lowered_limit_blocks_uploads None id id ex_extname 1 500 ex_alice
           req 0 ex_accounts [ex_upload "x.txt" 1]).
  - vm_compute. reflexivity.
  - cbn. lia.
  - vm_compute. reflexivity.
  - reflexivity.
  - exact I.
  - repeat constructor. cbn. lia.
Defined.

(** Account 1 is credited and debited 60 bytes. *)
Lemma updateStorage_round_trip_witness :
  let u1 := fst (updateStorage ex_alice 60 ex_accounts) in
  let s1 := snd (updateStorage ex_alice 60 ex_accounts) in
  User.storageUsed u1 = 960
  /\ fst (updateStorage u1 (-60) s1) = ex_alice
  /\ users (snd (updateStorage u1 (-60) s1)) = users ex_accounts
  /\ User.storageUsed (fst (updateStorage ex_alice (-2000) ex_accounts)) = 0.
Proof.
  intros u1 s1.
  pose proof (updateStorage_round_trip ex_alice 60 ex_accounts) as H.
  cbv zeta in H.
  destruct H as (H1 & _ & H2 & H3 & _ & H5);
    [vm_compute; reflexivity|cbn; lia|lia|].
  split_and!.
  - unfold u1. rewrite H1. reflexivity.
  - exact H2.
  - exact H3.
  - apply H5. cbn. lia.
Defined.

(** A spreadsheet counts as a document. *)
Lemma fileType_of_office_files_witness :
  fileType ex_sheet = "document"%string.
Proof.
  exact (fileType_of_office_files ex_sheet "spreadsheetml.sheet" eq_refl).
Defined.

(** Account 2 of [ex_library] is deleted. *)
Lemma deleteUser_removes_all_data_witness :
  let s' := fst (deleteUser (fun _ => false) 2 ex_library) in
  users s' = delete 2%nat (users ex_library)
  /\ files s' = [ex_a; ex_b] /\ clips s' = []
  /\ disk s' !! "uploads/c.txt"%string = None
  /\ consistent s' /\ exact_ledger s'.
Proof.
  intros s'.
  pose proof (deleteUser_removes_all_data (fun _ => false) 2 ex_library
                ex_library_consistent) as H.
  cbv zeta in H. destruct H as (_ & _ & H).
  destruct H as (_ & _ & Hu & Hf & _ & Hc & Hd & Hcons & Hex);
    [eexists; vm_compute; reflexivity|reflexivity|].
  split_and!.
  - exact Hu.
  - unfold s'. rewrite Hf. vm_compute. reflexivity.
  - unfold s'. rewrite Hc. vm_compute. reflexivity.
  - apply (Hd ex_c); [by_evaluation|reflexivity|reflexivity].
  - exact Hcons.
  - apply Hex. exact ex_library_exact.
Defined.

(** The example directory against [ex_library]: [old.bin] and [lost.txt]
    go; [tmp], which cannot be unlinked, and the stray [.gitkeep] stay. *)
Lemma ex_upload_dir_cleanup :
  cleanupOrphanedFiles (Some ex_upload_dir) ex_library
  = Some ([UserDir "1" [mkDiskEntry "a.txt" 100 true;
                        mkDiskEntry "tmp" 0 false];
           NotADir ".gitkeep";
           UserDir "2" [mkDiskEntry "c.txt" 30 true]], 2%nat, 47).
Proof. vm_compute. reflexivity. Qed.
